(** * Experience Engine: the consolidation pipeline, embedded and verified

    A shallow embedding of [experience_engine/core.py], [reflection.py] and
    [synthesis.py]: the annotator (regex tagging, hedge scoring), the
    episodic log, the reflection and synthesis stages and the two context
    formatters.

    Modelling conventions.
    - A Python [str] is a list of characters; the alphabet is the code
      points U+0000 to U+00FF, with Python's own classification of these
      (whitespace, line boundaries, word characters, lower-casing).
    - Python [int] is [Z]; a Python [float] is the rational [Q] that its
      decimal literal denotes: comparisons and the score are computed on
      these rationals, so two literals that denote one binary64 number
      are kept apart and negative zero is zero; the percent format, where
      binary rounding shows in the output, rounds as binary64 does.
    - [json.loads] is modelled on texts within the limits of the decoder:
      beyond the nesting depth that the interpreter affords it raises
      RecursionError, and on an integer of more than 4300 digits
      ValueError; the model has neither outcome.
    - Values that come from [json.loads] are the inductive [json]; the
      dynamically typed operations on them ([.get], [x[k]], [len], [>=],
      truthiness, iteration) are total functions into an error type that
      carries the Python exception.
    - The data directory is a record of four files.  The log file holds
      text; the belief, pattern and tension files hold the JSON document
      last written to them.
    - What the code draws from its environment (uuid4, the clock) is an
      explicit argument. *)

From Stdlib Require Import Ascii String.
From Stdlib Require Import Bool Arith ZArith QArith Qround Qminmax Qreduction Qabs.
From Stdlib Require Import List Lia Permutation Sorted DecimalString.
Import ListNotations.

Set Implicit Arguments.

(** ** Python strings *)

Module PyStr.

Definition text := list ascii.

Definition txt (s : string) : text := list_ascii_of_string s.
Arguments txt s%_string.

Definition code (c : ascii) : N := N_of_ascii c.

Definition between (lo hi : N) (c : ascii) : bool :=
  (N.leb lo (code c) && N.leb (code c) hi)%bool.

(** [str.isspace] on one character. *)
Definition is_space (c : ascii) : bool :=
  between 9 13 c || between 28 32 c || N.eqb (code c) 133 || N.eqb (code c) 160.

(** The line boundaries of [str.splitlines]. *)
Definition is_linebreak (c : ascii) : bool :=
  between 10 13 c || between 28 30 c || N.eqb (code c) 133.

(** The class [\w] of [re] on a [str] pattern: alphanumeric or underscore. *)
Definition is_word (c : ascii) : bool :=
  between 48 57 c || between 65 90 c || between 97 122 c || N.eqb (code c) 95
  || N.eqb (code c) 170 || between 178 179 c || N.eqb (code c) 181
  || between 185 186 c || between 188 190 c
  || between 192 214 c || between 216 246 c || between 248 255 c.

Definition lower_char (c : ascii) : ascii :=
  if between 65 90 c || between 192 214 c || between 216 222 c
  then ascii_of_N (code c + 32) else c.

(** [str.lower] *)
Definition lower (s : text) : text := map lower_char s.

Definition lstrip (s : text) : text :=
  (fix go (s : text) : text :=
     match s with
     | c :: s' => if is_space c then go s' else s
     | [] => []
     end) s.

Definition rstrip (s : text) : text := rev (lstrip (rev s)).

(** [str.strip] with no argument *)
Definition strip (s : text) : text := rstrip (lstrip s).

(** [str.rstrip(chars)] for a one-character set *)
Definition rstrip_char (x : ascii) (s : text) : text :=
  rev ((fix go (s : text) : text :=
          match s with
          | c :: s' => if Ascii.eqb c x then go s' else s
          | [] => []
          end) (rev s)).

(** [str.split] with no argument: the maximal runs of non-whitespace.
    [cur] is the run being read, reversed. *)
Fixpoint split_ws (s : text) (cur : text) : list text :=
  match s with
  | [] => match cur with [] => [] | _ => [rev cur] end
  | c :: s' =>
      if is_space c
      then match cur with [] => split_ws s' [] | _ => rev cur :: split_ws s' [] end
      else split_ws s' (c :: cur)
  end.

Definition split (s : text) : list text := split_ws s [].

(** Cutting a text into lines at the characters [brk], a carriage return
    followed by a line feed being one boundary; no empty last line.
    [cur] is the line being read, reversed. *)
Fixpoint lines_by (brk : ascii -> bool) (s : text) (cur : text) : list text :=
  match s with
  | [] => match cur with [] => [] | _ => [rev cur] end
  | c :: s' =>
      if brk c then
        rev cur ::
        match s' with
        | c' :: s'' =>
            if (N.eqb (code c) 13 && N.eqb (code c') 10)%bool
            then lines_by brk s'' []
            else lines_by brk s' []
        | [] => []
        end
      else lines_by brk s' (c :: cur)
  end.

(** [str.splitlines] *)
Definition splitlines (s : text) : list text := lines_by is_linebreak s [].

(** The lines that iterating over a file opened in text mode yields
    (universal newlines), without their line ends. *)
Definition file_lines (s : text) : list text :=
  lines_by (fun c => N.eqb (code c) 10 || N.eqb (code c) 13) s [].

Definition is_blank (s : text) : bool :=
  match strip s with [] => true | _ => false end.

(** [sep.join(parts)] *)
Fixpoint join (sep : text) (parts : list text) : text :=
  match parts with
  | [] => []
  | [p] => p
  | p :: rest => p ++ sep ++ join sep rest
  end.

Definition newline : text := [ascii_of_N 10].

Definition text_eqb (a b : text) : bool :=
  if list_eq_dec ascii_dec a b then true else false.

End PyStr.
Import PyStr.

(** ** The fragment of [re] the engine uses *)

Module Re.

Inductive regex : Type :=
| Eps
| Chr (c : ascii)            (* a literal character *)
| Dot                        (* [.] : any character but a newline *)
| Seq (r1 r2 : regex)
| Alt (r1 r2 : regex)
| Opt (r : regex)            (* [r?], greedy *)
| StarAll                    (* [.*] under re.DOTALL, greedy *)
| WordB.                     (* [\b] *)

Definition orelse {A} (x y : option A) : option A :=
  match x with Some _ => x | None => y end.

Definition head_is_word (s : text) : bool :=
  match s with c :: _ => is_word c | [] => false end.

(** A backtracking matcher in continuation-passing style.  [pw] tells
    whether the character before the current position is a word character
    (false at the start of the text); [k] receives the same flag and the
    rest of the text once the expression has matched. *)
Fixpoint star_all {A} (pw : bool) (s : text) (k : bool -> text -> option A)
  : option A :=
  match s with
  | [] => k pw []
  | c :: s' => orelse (star_all (is_word c) s' k) (k pw s)
  end.

Fixpoint rmatch {A} (r : regex) (pw : bool) (s : text)
  (k : bool -> text -> option A) : option A :=
  match r with
  | Eps => k pw s
  | Chr c =>
      match s with
      | c' :: s' => if Ascii.eqb c c' then k (is_word c') s' else None
      | [] => None
      end
  | Dot =>
      match s with
      | c' :: s' => if N.eqb (code c') 10 then None else k (is_word c') s'
      | [] => None
      end
  | Seq r1 r2 => rmatch r1 pw s (fun pw' s' => rmatch r2 pw' s' k)
  | Alt r1 r2 => orelse (rmatch r1 pw s k) (rmatch r2 pw s k)
  | Opt r1 => orelse (rmatch r1 pw s k) (k pw s)
  | StarAll => star_all pw s k
  | WordB => if xorb pw (head_is_word s) then k pw s else None
  end.

(** The first match starting at the current position, as the text left
    after it. *)
Definition match_here (r : regex) (pw : bool) (s : text) : option text :=
  rmatch r pw s (fun _ rest => Some rest).

(** [re.search]: the first position with a match; the result is the text
    from the start of the match and the text left after it. *)
Fixpoint search_from (r : regex) (pw : bool) (s : text) : option (text * text) :=
  match match_here r pw s with
  | Some rest => Some (s, rest)
  | None =>
      match s with
      | c :: s' => search_from r (is_word c) s'
      | [] => None
      end
  end.

Definition search (r : regex) (s : text) : option (text * text) :=
  search_from r false s.

(** [bool(re.search(r, s))] *)
Definition found (r : regex) (s : text) : bool :=
  match search r s with Some _ => true | None => false end.

(** [match.group()] : the matched text *)
Definition group (m : text * text) : text :=
  firstn (length (fst m) - length (snd m)) (fst m).

(** [len(re.findall(r, s))] for an expression that matches no empty text:
    matches are taken left to right and do not overlap.  [skip] counts the
    characters of the last match still to be passed over. *)
Fixpoint findall_count (r : regex) (pw : bool) (s : text) (skip : nat) : nat :=
  match skip with
  | S n =>
      match s with
      | c :: s' => findall_count r (is_word c) s' n
      | [] => 0
      end
  | O =>
      match match_here r pw s with
      | Some rest =>
          S (match s with
             | c :: s' => findall_count r (is_word c) s' (length s' - length rest)
             | [] => 0
             end)
      | None =>
          match s with
          | c :: s' => findall_count r (is_word c) s' 0
          | [] => 0
          end
      end
  end.

(** [re.sub(r, "", s)] for an expression that matches no empty text. *)
Fixpoint delete_all (r : regex) (pw : bool) (s : text) (skip : nat) : text :=
  match skip with
  | S n =>
      match s with
      | c :: s' => delete_all r (is_word c) s' n
      | [] => []
      end
  | O =>
      match match_here r pw s with
      | Some rest =>
          match s with
          | c :: s' => delete_all r (is_word c) s' (length s' - length rest)
          | [] => []
          end
      | None =>
          match s with
          | c :: s' => c :: delete_all r (is_word c) s' 0
          | [] => []
          end
      end
  end.

(** The flag handed to the position after [u]. *)
Definition last_is_word (pw : bool) (u : text) : bool :=
  match rev u with c :: _ => is_word c | [] => pw end.

(** The text after the prefix [w] of [s], when [w] is a prefix of [s] *)
Fixpoint after_prefix (w s : text) : option text :=
  match w, s with
  | [], _ => Some s
  | c :: w', c' :: s' => if Ascii.eqb c c' then after_prefix w' s' else None
  | _ :: _, [] => None
  end.

(** No space in any of the words *)
Definition spaceless (ws : list text) : bool :=
  forallb (fun w => negb (existsb (Ascii.eqb " "%char) w)) ws.

(** Building expressions *)
Fixpoint lit_chars (s : text) : regex :=
  match s with
  | [] => Eps
  | [c] => Chr c
  | c :: s' => Seq (Chr c) (lit_chars s')
  end.

Definition lit (s : string) : regex := lit_chars (txt s).

Fixpoint alt_of (rs : list regex) : regex :=
  match rs with
  | [] => Eps
  | [r] => r
  | r :: rs' => Alt r (alt_of rs')
  end.

(** The word that a literal expression spells ([[]] for another expression) *)
Fixpoint spelled (r : regex) : text :=
  match r with
  | Chr c => [c]
  | Seq (Chr c) r' => c :: spelled r'
  | _ => []
  end.

(** [\b(w1|w2|...)\b] *)
Definition whole_word (rs : list regex) : regex :=
  Seq WordB (Seq (alt_of rs) WordB).

Definition words (ws : list string) : list regex := map lit ws.

End Re.
Import Re.

(** ** core.py: the annotator *)

Module Annotator.

(** [_TAG_PATTERNS], in the order of the dict literal *)
Definition _TAG_PATTERNS : list (string * regex) :=
  [ ("infrastructure"%string,
      whole_word (words ["docker"; "k8s"; "kubernetes"; "nginx"; "server";
                         "deploy"; "cloud"; "aws"; "gcp"; "azure"; "local"]%string));
    ("ai_ml"%string,
      whole_word (words ["llm"; "model"; "embedding"; "rag"; "vector"]%string
                  ++ [Seq (lit "fine") (Seq (Opt Dot) (lit "tun"))]
                  ++ words ["inference"; "ollama"; "mistral"; "gpt"]%string));
    ("python"%string,
      whole_word (words ["python"; "pip"; "venv"; "fastapi"; "flask"; "django";
                         "pydantic"]%string));
    ("architecture"%string,
      whole_word (words ["architecture"; "design"; "pattern"; "scalab";
                         "microservice"; "monolith"; "system"]%string));
    ("debugging"%string,
      whole_word (words ["error"; "bug"; "fix"; "broken"; "fail"; "crash";
                         "exception"; "traceback"]%string));
    ("preference"%string,
      whole_word (words ["prefer"; "rather"; "instead"; "avoid"; "hate"; "love";
                         "like"; "dislike"; "want"]%string));
    ("goal"%string,
      whole_word (words ["goal"; "want to"; "trying to"; "building"; "create";
                         "launch"; "ship"]%string));
    ("frustration"%string,
      whole_word (words ["frustrat"; "annoy"; "slow"; "complic"; "overengineer";
                         "too much"; "wrong"]%string));
    ("spirituality"%string,
      whole_word (words ["gita"; "krishna"; "karma"; "jnana"; "bhakti"; "dharma";
                         "marga"; "yoga"; "vedic"; "spiritual"]%string));
    ("correction"%string,
      whole_word (words ["no,"; "wrong"; "incorrect"; "not right"; "that's not";
                         "actually,"]%string));
    ("investing"%string,
      whole_word (words ["invest"; "stock"; "market"; "portfolio"; "value"; "p/e";
                         "dividend"; "equity"; "asset"]%string));
    ("learning"%string,
      whole_word (words ["learn"; "study"; "understand"; "teach"; "master";
                         "curriculum"; "course"; "practice"]%string)) ].

Definition _auto_tag (text_ : text) : list string :=
  let t := lower text_ in
  map fst (filter (fun tp => found (snd tp) t) _TAG_PATTERNS).

(** The labels whose pattern is a list of single words *)
Definition single_word_labels : list string :=
  ["infrastructure"; "python"; "architecture"; "debugging"; "preference";
   "spirituality"; "investing"; "learning"]%string.

(** The hedging vocabulary of [_score_confidence] *)
Definition hedge_re : regex :=
  whole_word (words ["maybe"; "perhaps"; "might"; "could"; "not sure"; "unclear";
                     "depends"; "uncertain"; "possibly"]%string).

(** [round(x)] on an exact value: to the nearest integer, ties to even *)
Definition round_half_even (x : Q) : Z :=
  let f := Qfloor x in
  match Qcompare (x - inject_Z f) (1 # 2) with
  | Lt => f
  | Gt => (f + 1)%Z
  | Eq => if Z.even f then f else (f + 1)%Z
  end.

(** [round(x, 2)] *)
Definition py_round2 (x : Q) : Q := Qred (round_half_even (x * 100) # 100).

Definition hedge_count (answer : text) : nat :=
  findall_count hedge_re false (lower answer) 0.

Definition length_ok (answer : text) : bool :=
  let n := List.length (split answer) in
  (Nat.ltb 50 n && Nat.ltb n 600)%bool.

(** The return expression of [_score_confidence], in its two locals *)
Definition confidence_of (hedges : nat) (length_ok_ : bool) : Q :=
  py_round2
    (Qmax (3 # 10)
       (Qmin (95 # 100)
          ((85 # 100) - (inject_Z (Z.of_nat hedges) * (8 # 100))
           + (if length_ok_ then 5 # 100 else 0)))).

Definition _score_confidence (question answer : text) : Q :=
  let hedges := hedge_count answer in
  let length_ok_ := length_ok answer in
  confidence_of hedges length_ok_.

(** The score as the specification words it (section 4.1): base 0.85,
    0.08 off per hedge occurrence, 0.05 on for a word count strictly
    between 50 and 600, clamped to [0.30, 0.95], rounded to two decimals
    (the nearest hundredth). *)
Definition spec_score (hedge_occurrences word_count : nat) : Q :=
  let bonus :=
    if (Nat.ltb 50 word_count && Nat.ltb word_count 600)%bool then 5 # 100 else 0 in
  let raw := (85 # 100) - (8 # 100) * inject_Z (Z.of_nat hedge_occurrences) + bonus in
  let clamped :=
    if Qle_bool raw (30 # 100) then 30 # 100
    else if Qle_bool (95 # 100) raw then 95 # 100
    else raw in
  Qfloor (clamped * 100 + (1 # 2)) # 100.

(** The hedging words *)
Definition hedge_words : list text :=
  map txt ["maybe"; "perhaps"; "might"; "could"; "not sure"; "unclear";
           "depends"; "uncertain"; "possibly"]%string.

(** A hedging word stands at the head of [s] as a whole word: [s] starts
    with it, no word character comes right before it ([before] tells) and
    none right after it. *)
Definition hedge_stands (before : bool) (s : text) : bool :=
  (negb before
   && existsb (fun w => match after_prefix w s with
                        | Some rest => negb (head_is_word rest)
                        | None => false
                        end) hedge_words)%bool.

(** The number of places in [s] where a hedging word stands *)
Fixpoint hedge_places (before : bool) (s : text) : nat :=
  (if hedge_stands before s then 1 else 0)
  + match s with
    | c :: s' => hedge_places (is_word c) s'
    | [] => 0
    end.

(** The occurrences of hedging words in an answer, in any case of the
    letters *)
Definition hedge_occurrences (answer : text) : nat :=
  hedge_places false (lower answer).

(** The number of places in [s] where a word begins: a character that is
    not white space, at the start or after white space *)
Fixpoint word_starts (after_space : bool) (s : text) : nat :=
  match s with
  | [] => 0
  | c :: s' =>
      (if (after_space && negb (is_space c))%bool then 1 else 0)
      + word_starts (is_space c) s'
  end.

(** The word count of an answer *)
Definition word_count (answer : text) : nat := word_starts true answer.

End Annotator.
Import Annotator.

(** ** Python values and exceptions *)

Module Py.

Inductive exn : Type :=
| JSONDecodeError | AttributeError | KeyError | TypeError | ValueError
| OverflowError | RuntimeError.

Inductive result (A : Type) : Type :=
| Ok (a : A)
| Raise (e : exn).
Arguments Ok {A} a.
Arguments Raise {A} e.

Definition rbind {A B} (x : result A) (f : A -> result B) : result B :=
  match x with Ok a => f a | Raise e => Raise e end.

Fixpoint rmap {A B} (f : A -> result B) (l : list A) : result (list B) :=
  match l with
  | [] => Ok []
  | a :: l' =>
      rbind (f a) (fun b => rbind (rmap f l') (fun bs => Ok (b :: bs)))
  end.

Set Warnings "-register-all".

(** What [json.loads] returns: [None], [bool], [int], [float], [str],
    [list], and [dict] with its keys in insertion order. *)
Inductive json : Type :=
| JNull
| JBool (b : bool)
| JInt (z : Z)
| JFloat (q : Q)
| JStr (s : text)
| JArr (items : list json)
| JObj (fields : list (text * json)).

Fixpoint dict_lookup (fields : list (text * json)) (key : text) : option json :=
  match fields with
  | [] => None
  | (k, v) :: rest => if text_eqb k key then Some v else dict_lookup rest key
  end.

(** [d[key] = v]: replaces the value of a key that is there, in place, and
    adds a new key at the end. *)
Fixpoint dict_set (fields : list (text * json)) (key : text) (v : json)
  : list (text * json) :=
  match fields with
  | [] => [(key, v)]
  | (k, v0) :: rest =>
      if text_eqb k key then (k, v) :: rest else (k, v0) :: dict_set rest key v
  end.

(** [x.get(key, default)] *)
Definition py_get (x : json) (key : text) (default : json) : result json :=
  match x with
  | JObj fields =>
      Ok (match dict_lookup fields key with Some v => v | None => default end)
  | _ => Raise AttributeError
  end.

(** [x[key]] for a string key *)
Definition py_getitem (x : json) (key : text) : result json :=
  match x with
  | JObj fields =>
      match dict_lookup fields key with Some v => Ok v | None => Raise KeyError end
  | _ => Raise TypeError
  end.

(** The value of a number; [bool] is a subclass of [int]. *)
Definition as_number (x : json) : option Q :=
  match x with
  | JInt z => Some (inject_Z z)
  | JFloat q => Some q
  | JBool b => Some (if b then 1 else 0)
  | _ => None
  end.

(** [bool(x)] *)
Definition py_truthy (x : json) : bool :=
  match x with
  | JNull => false
  | JBool b => b
  | JInt z => negb (Z.eqb z 0)
  | JFloat q => negb (Qeq_bool q 0)
  | JStr s => match s with [] => false | _ => true end
  | JArr l => match l with [] => false | _ => true end
  | JObj f => match f with [] => false | _ => true end
  end.

(** [len(x)] *)
Definition py_len (x : json) : result nat :=
  match x with
  | JStr s => Ok (List.length s)
  | JArr l => Ok (List.length l)
  | JObj f => Ok (List.length f)
  | _ => Raise TypeError
  end.

(** The elements that [for v in x] visits *)
Definition py_iter (x : json) : result (list json) :=
  match x with
  | JArr l => Ok l
  | JStr s => Ok (map (fun c => JStr [c]) s)
  | JObj f => Ok (map (fun kv => JStr (fst kv)) f)
  | _ => Raise TypeError
  end.

(** [x >= y] and [x > y] against a float [y] *)
Definition py_ge (x : json) (y : Q) : result bool :=
  match as_number x with
  | Some q => Ok (Qle_bool y q)
  | None => Raise TypeError
  end.

Definition py_gt (x : json) (y : Q) : result bool :=
  match as_number x with
  | Some q => Ok (negb (Qle_bool q y))
  | None => Raise TypeError
  end.

(** [-x] *)
Definition py_neg (x : json) : result Q :=
  match as_number x with
  | Some q => Ok (- q)
  | None => Raise TypeError
  end.

(** [x + 1] *)
Definition py_add1 (x : json) : result json :=
  match x with
  | JInt z => Ok (JInt (z + 1))
  | JBool b => Ok (JInt ((if b then 1 else 0) + 1))
  | JFloat q => Ok (JFloat (Qred (q + 1)))
  | _ => Raise TypeError
  end.

(** [2 ** k] *)
Definition pow2 (k : Z) : Q :=
  if Z.leb 0 k then inject_Z (2 ^ k) else 1 # Z.to_pos (2 ^ (- k)).

(** The exponent of the power of two that spaces the binary64 numbers
    around a positive [q]: 52 below that of the largest power of two not
    above [q], and never below -1074. *)
Definition ulp_exponent (q : Q) : Z :=
  let k := (Z.log2 (Qnum q) - Z.log2 (Zpos (Qden q)))%Z in
  let e := if Qle_bool (pow2 k) q then k else (k - 1)%Z in
  Z.max (e - 52) (-1074).

(** [float(q)]: the binary64 number nearest to [q], ties to even; [None]
    where the result is an infinity. *)
Definition to_double (q : Q) : option Q :=
  let a := Qabs q in
  if Qle_bool a 0 then Some 0 else
  let e := ulp_exponent a in
  let m := round_half_even (a / pow2 e) in
  let r := Qred (inject_Z m * pow2 e) in
  if Qle_bool (pow2 1024) r then None
  else Some (if Qle_bool 0 q then r else Qred (- r)).

End Py.
Import Py.

(** ** The [json] module: [dumps] and [loads] *)

(** Limits of the model: the literals [NaN], [Infinity] and [-Infinity],
    which Python reads as floats, are rejected; an escape [\uXXXX] above
    U+00FF is outside the alphabet and is rejected; a number keeps the
    value of its literal where Python rounds it to binary64; deep nesting
    and long integers are read where Python raises RecursionError and
    ValueError. *)
Module Json.

Local Open Scope N_scope.

Definition chr (n : N) : ascii := ascii_of_N n.

Definition dec_of_N (n : N) : text :=
  list_ascii_of_string (NilZero.string_of_uint (N.to_uint n)).

Definition dec_of_Z (z : Z) : text :=
  match z with
  | Zneg p => txt "-" ++ dec_of_N (Npos p)
  | _ => dec_of_N (Z.to_N z)
  end.

Definition hex_digit_char (d : N) : ascii :=
  if N.ltb d 10 then chr (48 + d) else chr (87 + d).

(** [\uXXXX] with lower-case digits, as [json.dumps] writes it *)
Definition u_escape (n : N) : text :=
  txt "\u" ++ [hex_digit_char (n / 4096); hex_digit_char ((n / 256) mod 16);
               hex_digit_char ((n / 16) mod 16); hex_digit_char (n mod 16)].

(** One character of a string under [ensure_ascii=True] *)
Definition escape_char (c : ascii) : text :=
  let n := code c in
  if N.eqb n 34 then [chr 92; chr 34]
  else if N.eqb n 92 then [chr 92; chr 92]
  else if N.eqb n 10 then txt "\n"
  else if N.eqb n 13 then txt "\r"
  else if N.eqb n 9 then txt "\t"
  else if N.eqb n 8 then txt "\b"
  else if N.eqb n 12 then txt "\f"
  else if (N.ltb n 32 || N.ltb 126 n)%bool then u_escape n
  else [c].

Definition quote (s : text) : text :=
  [chr 34] ++ flat_map escape_char s ++ [chr 34].

(** The digits after the decimal point of [num/den], where [num < den];
    [float.__repr__] never writes more than 17 significant digits. *)
Fixpoint frac_digits (fuel : nat) (num den : N) : text :=
  match fuel with
  | O => []
  | S fuel' =>
      if N.eqb num 0 then []
      else chr (48 + (10 * num) / den) :: frac_digits fuel' ((10 * num) mod den) den
  end.

(** [repr] of a float, in positional notation (Python changes to exponent
    notation below 1e-4 and from 1e16 on). *)
Definition float_repr (q : Q) : text :=
  let q' := Qred q in
  let n := Z.abs_N (Qnum q') in
  let d := Npos (Qden q') in
  (if Z.ltb (Qnum q') 0 then txt "-" else [])
  ++ dec_of_N (n / d) ++ txt "."
  ++ match frac_digits 17 (n mod d) d with
     | [] => txt "0"
     | ds => ds
     end.

(** [json.dumps(v)] with its default arguments *)
Fixpoint json_dumps (v : json) : text :=
  match v with
  | JNull => txt "null"
  | JBool true => txt "true"
  | JBool false => txt "false"
  | JInt z => dec_of_Z z
  | JFloat q => float_repr q
  | JStr s => quote s
  | JArr items => txt "[" ++ join (txt ", ") (map json_dumps items) ++ txt "]"
  | JObj fields =>
      txt "{"
      ++ join (txt ", ")
           (map (fun kv => quote (fst kv) ++ txt ": " ++ json_dumps (snd kv)) fields)
      ++ txt "}"
  end.

(** *** Reading: characters to tokens *)

Inductive token : Type :=
| TLBrack | TRBrack | TLBrace | TRBrace | TComma | TColon
| TVal (v : json).           (* a string, a number, or null / true / false *)

Inductive lex_mode : Type :=
| LIdle
| LStr (acc : text)                  (* in a string; [acc] is reversed *)
| LEsc (acc : text)                  (* after a backslash *)
| LUni (acc : text) (n : nat) (v : N) (* in \uXXXX, [n] digits to come *)
| LNum (acc : text)                  (* in a number; [acc] is reversed *)
| LWord (acc : text).                (* in a bare word; [acc] is reversed *)

Definition hex_value (c : ascii) : option N :=
  if between 48 57 c then Some (code c - 48)
  else if between 97 102 c then Some (code c - 87)
  else if between 65 70 c then Some (code c - 55)
  else None.

Definition is_digit (c : ascii) : bool := between 48 57 c.

Fixpoint digits_value (ds : text) (acc : N) : N :=
  match ds with
  | [] => acc
  | c :: ds' => digits_value ds' (10 * acc + (code c - 48))
  end.

Fixpoint span_digits (s : text) : text * text :=
  match s with
  | c :: s' =>
      if is_digit c then let (ds, rest) := span_digits s' in (c :: ds, rest)
      else ([], s)
  | [] => ([], [])
  end.

(** A number literal: an optional minus sign, an integer part (0, or
    digits not starting with 0), an optional fraction (a point and digits)
    and an optional exponent (e or E, an optional sign, digits).  Without
    fraction and exponent it is an [int], otherwise a [float]. *)
Definition number_of (s : text) : option json :=
  let (neg, s1) :=
    match s with
    | c :: s' => if N.eqb (code c) 45 then (true, s') else (false, s)
    | [] => (false, s)
    end in
  let (ip, s2) := span_digits s1 in
  let int_ok :=
    match ip with
    | [] => false
    | [_] => true
    | c :: _ => negb (N.eqb (code c) 48)
    end in
  if negb int_ok then None else
  let frac :=
    match s2 with
    | c :: s' =>
        if N.eqb (code c) 46 then
          let (fp, s3) := span_digits s' in
          match fp with [] => None | _ => Some (Some fp, s3) end
        else Some (None, s2)
    | [] => Some (None, s2)
    end in
  match frac with
  | None => None
  | Some (fp, s3) =>
      let expo :=
        match s3 with
        | c :: s' =>
            if (N.eqb (code c) 101 || N.eqb (code c) 69)%bool then
              let (eneg, s4) :=
                match s' with
                | d :: s'' =>
                    if N.eqb (code d) 45 then (true, s'')
                    else if N.eqb (code d) 43 then (false, s'')
                    else (false, s')
                | [] => (false, s')
                end in
              let (ep, s5) := span_digits s4 in
              match ep, s5 with
              | _ :: _, [] => Some (Some (eneg, ep))
              | _, _ => None
              end
            else None
        | [] => Some None
        end in
      match expo with
      | None => None
      | Some ex =>
          let iv := Z.of_N (digits_value ip 0) in
          match fp, ex with
          | None, None => Some (JInt (if neg then (- iv)%Z else iv))
          | _, _ =>
              let fds := match fp with Some f => f | None => [] end in
              let mant :=
                (iv * 10 ^ Z.of_nat (List.length fds)
                 + Z.of_N (digits_value fds 0))%Z in
              let scale := Z.of_nat (List.length fds) in
              let e : Z :=
                match ex with
                | Some (eneg, ep) =>
                    let ev := Z.of_N (digits_value ep 0) in
                    if eneg then (- ev)%Z else ev
                | None => 0%Z
                end in
              let p := (e - scale)%Z in
              let m := if neg then (- mant)%Z else mant in
              Some (JFloat
                      (Qred (if Z.leb 0 p
                             then inject_Z (m * 10 ^ p)%Z
                             else Qmake m (Z.to_pos (10 ^ (- p))%Z))))
          end
      end
  end.

Definition word_of (s : text) : option json :=
  if text_eqb s (txt "null") then Some JNull
  else if text_eqb s (txt "true") then Some (JBool true)
  else if text_eqb s (txt "false") then Some (JBool false)
  else None.

Definition is_json_ws (c : ascii) : bool :=
  let n := code c in
  (N.eqb n 32 || N.eqb n 9 || N.eqb n 10 || N.eqb n 13)%bool.

Definition is_num_char (c : ascii) : bool :=
  let n := code c in
  (is_digit c || N.eqb n 45 || N.eqb n 43 || N.eqb n 46
   || N.eqb n 101 || N.eqb n 69)%bool.

Definition is_letter (c : ascii) : bool :=
  (between 65 90 c || between 97 122 c)%bool.

(** The character that starts a token, or passes between tokens *)
Definition lex_start (c : ascii) (acc : list token)
  : option (lex_mode * list token) :=
  let n := code c in
  if is_json_ws c then Some (LIdle, acc)
  else if N.eqb n 34 then Some (LStr [], acc)
  else if N.eqb n 91 then Some (LIdle, TLBrack :: acc)
  else if N.eqb n 93 then Some (LIdle, TRBrack :: acc)
  else if N.eqb n 123 then Some (LIdle, TLBrace :: acc)
  else if N.eqb n 125 then Some (LIdle, TRBrace :: acc)
  else if N.eqb n 44 then Some (LIdle, TComma :: acc)
  else if N.eqb n 58 then Some (LIdle, TColon :: acc)
  else if (is_digit c || N.eqb n 45)%bool then Some (LNum [c], acc)
  else if is_letter c then Some (LWord [c], acc)
  else None.

Definition lex_step (c : ascii) (m : lex_mode) (acc : list token)
  : option (lex_mode * list token) :=
  let n := code c in
  match m with
  | LIdle => lex_start c acc
  | LStr a =>
      if N.eqb n 34 then Some (LIdle, TVal (JStr (rev a)) :: acc)
      else if N.eqb n 92 then Some (LEsc a, acc)
      else if N.ltb n 32 then None
      else Some (LStr (c :: a), acc)
  | LEsc a =>
      if N.eqb n 34 then Some (LStr (c :: a), acc)
      else if N.eqb n 92 then Some (LStr (c :: a), acc)
      else if N.eqb n 47 then Some (LStr (c :: a), acc)
      else if N.eqb n 98 then Some (LStr (chr 8 :: a), acc)
      else if N.eqb n 102 then Some (LStr (chr 12 :: a), acc)
      else if N.eqb n 110 then Some (LStr (chr 10 :: a), acc)
      else if N.eqb n 114 then Some (LStr (chr 13 :: a), acc)
      else if N.eqb n 116 then Some (LStr (chr 9 :: a), acc)
      else if N.eqb n 117 then Some (LUni a 4 0, acc)
      else None
  | LUni a k v =>
      match hex_value c with
      | None => None
      | Some d =>
          let v' := (16 * v + d)%N in
          match k with
          | 1%nat => if N.ltb v' 256 then Some (LStr (chr v' :: a), acc) else None
          | S k' => Some (LUni a k' v', acc)
          | O => None
          end
      end
  | LNum a =>
      if is_num_char c then Some (LNum (c :: a), acc)
      else match number_of (rev a) with
           | Some v => lex_start c (TVal v :: acc)
           | None => None
           end
  | LWord a =>
      if is_letter c then Some (LWord (c :: a), acc)
      else match word_of (rev a) with
           | Some v => lex_start c (TVal v :: acc)
           | None => None
           end
  end.

Fixpoint lex_run (s : text) (m : lex_mode) (acc : list token)
  : option (lex_mode * list token) :=
  match s with
  | [] => Some (m, acc)
  | c :: s' =>
      match lex_step c m acc with
      | Some (m', acc') => lex_run s' m' acc'
      | None => None
      end
  end.

Definition lex_finish (m : lex_mode) (acc : list token) : option (list token) :=
  match m with
  | LIdle => Some (rev acc)
  | LNum a =>
      match number_of (rev a) with
      | Some v => Some (rev (TVal v :: acc))
      | None => None
      end
  | LWord a =>
      match word_of (rev a) with
      | Some v => Some (rev (TVal v :: acc))
      | None => None
      end
  | _ => None
  end.

Definition lex (s : text) : option (list token) :=
  match lex_run s LIdle [] with
  | Some (m, acc) => lex_finish m acc
  | None => None
  end.

(** *** Reading: tokens to a value *)

Inductive frame : Type :=
| FArr (items : list json)                     (* read so far, reversed *)
| FObjK (fields : list (text * json))          (* a key is to come *)
| FObjV (fields : list (text * json)) (key : text).  (* the value of [key] is to come *)

Inductive expect : Type :=
| EValue                 (* a value *)
| EValueOrEnd            (* just after [: a value or ] *)
| EKeyOrEnd              (* just after {: a key or } *)
| EKey                   (* after a comma in an object *)
| EColon (key : text)
| EAfter (v : json).     (* [v] is complete: a comma, a closing bracket, or the end *)

Definition parse_value (t : token) (st : list frame)
  : option (expect * list frame) :=
  match t with
  | TVal v => Some (EAfter v, st)
  | TLBrack => Some (EValueOrEnd, FArr [] :: st)
  | TLBrace => Some (EKeyOrEnd, FObjK [] :: st)
  | _ => None
  end.

Definition parse_key (t : token) (st : list frame)
  : option (expect * list frame) :=
  match t with
  | TVal (JStr k) => Some (EColon k, st)
  | _ => None
  end.

Definition parse_step (t : token) (e : expect) (st : list frame)
  : option (expect * list frame) :=
  match e with
  | EValue => parse_value t st
  | EValueOrEnd =>
      match t, st with
      | TRBrack, FArr [] :: st' => Some (EAfter (JArr []), st')
      | _, _ => parse_value t st
      end
  | EKeyOrEnd =>
      match t, st with
      | TRBrace, FObjK [] :: st' => Some (EAfter (JObj []), st')
      | _, _ => parse_key t st
      end
  | EKey => parse_key t st
  | EColon k =>
      match t, st with
      | TColon, FObjK fields :: st' => Some (EValue, FObjV fields k :: st')
      | _, _ => None
      end
  | EAfter v =>
      match st with
      | FArr items :: st' =>
          match t with
          | TComma => Some (EValue, FArr (v :: items) :: st')
          | TRBrack => Some (EAfter (JArr (rev (v :: items))), st')
          | _ => None
          end
      | FObjV fields k :: st' =>
          match t with
          | TComma => Some (EKey, FObjK (dict_set fields k v) :: st')
          | TRBrace => Some (EAfter (JObj (dict_set fields k v)), st')
          | _ => None
          end
      | _ => None
      end
  end.

Fixpoint parse_run (ts : list token) (e : expect) (st : list frame)
  : option (expect * list frame) :=
  match ts with
  | [] => Some (e, st)
  | t :: ts' =>
      match parse_step t e st with
      | Some (e', st') => parse_run ts' e' st'
      | None => None
      end
  end.

Definition parse (ts : list token) : option json :=
  match parse_run ts EValue [] with
  | Some (EAfter v, []) => Some v
  | _ => None
  end.

(** [json.loads(s)] *)
Definition json_loads (s : text) : result json :=
  match lex s with
  | Some ts =>
      match parse ts with
      | Some v => Ok v
      | None => Raise JSONDecodeError
      end
  | None => Raise JSONDecodeError
  end.

(** *** Values that [dumps] writes and [loads] reads back

    [tokens_of v] is the token sequence of [json_dumps v].  A value is
    well formed when its objects have distinct keys, as every Python dict
    has, and each number in it is read back from its own digits. *)

Fixpoint sep_tokens (parts : list (list token)) : list token :=
  match parts with
  | [] => []
  | [p] => p
  | p :: rest => p ++ TComma :: sep_tokens rest
  end.

Fixpoint tokens_of (v : json) : list token :=
  match v with
  | JArr items => TLBrack :: sep_tokens (map tokens_of items) ++ [TRBrack]
  | JObj fields =>
      TLBrace
      :: sep_tokens
           (map (fun kv => TVal (JStr (fst kv)) :: TColon :: tokens_of (snd kv)) fields)
      ++ [TRBrace]
  | _ => [TVal v]
  end.

(** The characters that may follow a value *)
Definition is_delim (c : ascii) : bool :=
  let n := code c in
  (N.eqb n 44 || N.eqb n 93 || N.eqb n 125)%bool.

(** [p] is lexed as the tokens [ts]: at the end of the input, and before
    every delimiter. *)
Definition lexes (p : text) (ts : list token) : Prop :=
  forall acc, exists m acc',
    lex_run p LIdle acc = Some (m, acc')
    /\ lex_finish m acc' = Some (rev (rev ts ++ acc))
    /\ forall c, is_delim c = true ->
                 lex_step c m acc' = lex_start c (rev ts ++ acc).

Definition printable (c : ascii) : bool := between 32 126 c.

Definition number_eqb (a b : json) : bool :=
  match a, b with
  | JInt x, JInt y => Z.eqb x y
  | JFloat x, JFloat y => (Z.eqb (Qnum x) (Qnum y) && Pos.eqb (Qden x) (Qden y))%bool
  | _, _ => false
  end.

Definition number_reads_back (v : json) : bool :=
  match json_dumps v with
  | c :: s =>
      ((is_digit c || N.eqb (code c) 45) && forallb is_num_char s
       && match number_of (c :: s) with
          | Some v' => number_eqb v' v
          | None => false
          end)%bool
  | [] => false
  end.

Fixpoint distinct_keys (fields : list (text * json)) : bool :=
  match fields with
  | [] => true
  | (k, _) :: rest =>
      (negb (existsb (fun kv => text_eqb (fst kv) k) rest) && distinct_keys rest)%bool
  end.

Fixpoint wf_json (v : json) : bool :=
  match v with
  | JNull | JBool _ | JStr _ => true
  | JInt _ | JFloat _ => number_reads_back v
  | JArr items => forallb wf_json items
  | JObj fields =>
      (forallb (fun kv => wf_json (snd kv)) fields && distinct_keys fields)%bool
  end.

(** What the reader does with the tokens of one value *)
Definition reads_back (v : json) : Prop :=
  forall rest e st,
    e = EValue \/ e = EValueOrEnd ->
    parse_run (tokens_of v ++ rest) e st = parse_run rest (EAfter v) st.

(** A line that holds one object, as [json.dumps] writes it *)
Definition object_line (l : text) : Prop :=
  (exists body, l = chr 123 :: body ++ [chr 125])
  /\ forallb printable l = true.

(** A record of the log: an object that reads back from its line *)
Definition entry_ok (e : json) : Prop :=
  wf_json e = true /\ exists fields, e = JObj fields.

End Json.
Import Json.

(** ** config.py, the data directory and the model adapter *)

Module Engine.

Record EngineConfig : Type := {
  reflection_window : Z;
  min_belief_confidence : Q;
  llm_temperature_reflect : Q;
  llm_temperature_synthesize : Q
}.

Definition default_config : EngineConfig := {|
  reflection_window := 50;
  min_belief_confidence := 6 # 10;
  llm_temperature_reflect := 3 # 10;
  llm_temperature_synthesize := 25 # 100
|}.

(** One item of [_format_interactions], before it is laid out as text *)
Record interaction_view : Type := {
  iv_question : json;
  iv_answer : text;          (* the first 300 characters *)
  iv_truncated : bool;       (* whether the ellipsis follows *)
  iv_tags : text;
  iv_confidence : json
}.

(** The arguments that fill the prompt template.  The template text itself
    is not modelled: the adapter is any function of these arguments. *)
Inductive prompt : Type :=
| ReflectionPrompt (n : nat) (interactions : list interaction_view)
    (existing : option json) (min_conf : Q)
| SynthesisPrompt (beliefs : json) (log_count_ : nat).

(** [llm_fn(prompt, temperature=..., config=config)]: the text of the
    model, or an exception. *)
Definition adapter : Type := prompt -> Q -> result text.

(** The files of [config.data_dir] ([None]: the file does not exist), and
    the calls made to the adapter so far, latest first. *)
Record state : Type := {
  log_file : option text;
  belief_file : option json;
  pattern_file : option json;
  tension_file : option json;
  llm_calls : list (prompt * Q)
}.

Definition empty_state : state := {|
  log_file := None; belief_file := None; pattern_file := None;
  tension_file := None; llm_calls := []
|}.

(** Computations that read and write the data directory and may raise.
    The state at the time of an exception is kept: what was written before
    stays written. *)
Definition M (A : Type) : Type := state -> result A * state.

Definition ret {A} (a : A) : M A := fun s => (Ok a, s).

Definition bind {A B} (m : M A) (f : A -> M B) : M B :=
  fun s =>
    match m s with
    | (Ok a, s') => f a s'
    | (Raise e, s') => (Raise e, s')
    end.

Definition lift {A} (r : result A) : M A := fun s => (r, s).

Definition get_state : M state := fun s => (Ok s, s).

Declare Scope engine_scope.
Delimit Scope engine_scope with engine.
Notation "x <- m ;; k" := (bind m (fun x => k))
  (at level 61, m at next level, right associativity) : engine_scope.
Notation "m ;;; k" := (bind m (fun _ => k))
  (at level 61, right associativity) : engine_scope.
Local Open Scope engine_scope.

Definition write_log (t : text) : M unit :=
  fun s => (Ok tt, {| log_file := Some t; belief_file := belief_file s;
                      pattern_file := pattern_file s;
                      tension_file := tension_file s;
                      llm_calls := llm_calls s |}).

Definition write_beliefs (doc : json) : M unit :=
  fun s => (Ok tt, {| log_file := log_file s; belief_file := Some doc;
                      pattern_file := pattern_file s;
                      tension_file := tension_file s;
                      llm_calls := llm_calls s |}).

Definition write_patterns (doc : json) : M unit :=
  fun s => (Ok tt, {| log_file := log_file s; belief_file := belief_file s;
                      pattern_file := Some doc;
                      tension_file := tension_file s;
                      llm_calls := llm_calls s |}).

Definition write_tensions (doc : json) : M unit :=
  fun s => (Ok tt, {| log_file := log_file s; belief_file := belief_file s;
                      pattern_file := pattern_file s;
                      tension_file := Some doc;
                      llm_calls := llm_calls s |}).

(** A call of the adapter: it is recorded, then its text or its exception
    comes back. *)
Definition call_llm (llm_fn : adapter) (p : prompt) (temperature : Q) : M text :=
  fun s => (llm_fn p temperature,
            {| log_file := log_file s; belief_file := belief_file s;
               pattern_file := pattern_file s;
               tension_file := tension_file s;
               llm_calls := (p, temperature) :: llm_calls s |}).

(** *** core.py: the episodic log

    [config.ensure_dirs()] and the progress lines printed under [verbose]
    have no counterpart here. *)

Section Log.

(** The order in which [list(set(l))] lists the distinct elements of [l]:
    Python leaves it unspecified. *)
Variable list_of_set : list text -> list text.

(** The locals [tags] and [entry] of [log_interaction]; [uid] is
    [str(uuid.uuid4())[:8]] and [now] is
    [datetime.now(timezone.utc).isoformat()]. *)
Definition entry_tags (question answer : text) (extra_tags : option (list text))
  : list text :=
  let tags := map txt (_auto_tag (question ++ txt " " ++ answer)) in
  match extra_tags with
  | Some (t :: ts) => list_of_set (tags ++ t :: ts)
  | _ => tags
  end.

Definition make_entry (uid now : text) (question answer : text)
  (extra_tags : option (list text)) : json :=
  JObj [ (txt "id", JStr uid);
         (txt "timestamp", JStr now);
         (txt "question", JStr question);
         (txt "answer", JStr answer);
         (txt "tags", JArr (map JStr (entry_tags question answer extra_tags)));
         (txt "confidence", JFloat (_score_confidence question answer)) ].

Definition log_interaction (uid now : text) (question answer : text)
  (extra_tags : option (list text)) : M json :=
  let entry := make_entry uid now question answer extra_tags in
  s <- get_state ;;
  let old := match log_file s with Some t => t | None => [] end in
  write_log (old ++ json_dumps entry ++ newline) ;;;
  ret entry.

(** The arguments of one call of [log_interaction] *)
Record append_call : Type := {
  ac_uid : text;
  ac_now : text;
  ac_question : text;
  ac_answer : text;
  ac_extra_tags : option (list text)
}.

Definition append (c : append_call) : M json :=
  log_interaction (ac_uid c) (ac_now c) (ac_question c) (ac_answer c)
    (ac_extra_tags c).

(** A sequence of calls, in order: the entries they return and the state
    they leave. *)
Fixpoint run_appends (calls : list append_call) (s : state) : list json * state :=
  match calls with
  | [] => ([], s)
  | c :: rest =>
      match append c s with
      | (Ok e, s') => let (es, s'') := run_appends rest s' in (e :: es, s'')
      | (Raise _, s') => ([], s')
      end
  end.

End Log.

(** [l[i:]] *)
Definition slice_from {A} (i : Z) (l : list A) : list A :=
  let n := Z.of_nat (List.length l) in
  if Z.ltb i 0 then skipn (Z.to_nat (Z.max (n + i) 0)) l
  else skipn (Z.to_nat (Z.min i n)) l.

Definition load_log (n : option Z) : M (list json) :=
  s <- get_state ;;
  match log_file s with
  | None => ret []
  | Some content =>
      let lines := splitlines (strip content) in
      entries <- lift (rmap json_loads (filter (fun l => negb (is_blank l)) lines)) ;;
      match n with
      | Some n' => if Z.eqb n' 0 then ret entries else ret (slice_from (- n') entries)
      | None => ret entries
      end
  end.

Definition log_count : M nat :=
  s <- get_state ;;
  match log_file s with
  | None => ret 0%nat
  | Some content =>
      ret (List.length (filter (fun l => negb (is_blank l)) (file_lines content)))
  end.

(** *** reflection.py *)

Definition load_beliefs : M json :=
  s <- get_state ;;
  match belief_file s with
  | None => ret (JArr [])
  | Some doc => lift (py_get doc (txt "beliefs") (JArr []))
  end.

(** [now] is the clock reading taken by the call. *)
Definition _save_beliefs (beliefs : json) (reflection_count : json) (now : text)
  : M unit :=
  let data :=
    JObj [ (txt "last_updated", JStr now);
           (txt "reflection_count", reflection_count);
           (txt "beliefs", beliefs) ] in
  write_beliefs data.

(** [", ".join(tags)] *)
Definition join_tags (tags : json) : result text :=
  rbind (py_iter tags) (fun items =>
  rbind (rmap (fun t => match t with JStr s => Ok s | _ => Raise TypeError end) items)
        (fun parts => Ok (join (txt ", ") parts))).

Definition format_interaction (e : json) : result interaction_view :=
  rbind (py_get e (txt "tags") (JArr [])) (fun tags =>
  rbind (join_tags tags) (fun joined =>
  rbind (py_getitem e (txt "answer")) (fun answer =>
  match answer with
  | JStr a =>
      rbind (py_getitem e (txt "question")) (fun question =>
      rbind (py_get e (txt "confidence") (JStr (txt "?"))) (fun conf =>
      Ok {| iv_question := question;
            iv_answer := firstn 300 a;
            iv_truncated := Nat.ltb 300 (List.length a);
            iv_tags := joined;
            iv_confidence := conf |}))
  | _ => Raise TypeError
  end))).

Definition _format_interactions (entries : list json)
  : result (list interaction_view) :=
  rmap format_interaction entries.

(** The pattern that [_parse_beliefs] and [_parse_result] delete: three
    backquotes, then json if it is there. *)
Definition fence_re : regex := Seq (lit "```") (Opt (lit "json")).

Definition strip_fences (raw : text) : text :=
  strip (rstrip_char "`"%char (strip (delete_all fence_re false raw 0))).

(** An opening bracket, anything, the last closing bracket *)
Definition array_span_re : regex := Seq (Chr "["%char) (Seq StarAll (Chr "]"%char)).
Definition object_span_re : regex := Seq (Chr "{"%char) (Seq StarAll (Chr "}"%char)).

(** The code catches JSONDecodeError on the first reading and every
    exception on the second.  [json_loads] has no other failure, so the
    exceptions that the first reading lets through in Python
    (RecursionError, ValueError) do not arise here. *)
Definition _parse_beliefs (raw : text) : json :=
  let raw := strip_fences raw in
  match json_loads raw with
  | Ok (JArr items) => JArr items
  | Ok _ => JArr []
  | Raise _ =>
      match search array_span_re raw with
      | Some m =>
          match json_loads (group m) with
          | Ok data => data
          | Raise _ => JArr []
          end
      | None => JArr []
      end
  end.

(** The list comprehension of [run_reflection] *)
Fixpoint filter_confident (min_conf : Q) (beliefs : list json)
  : result (list json) :=
  match beliefs with
  | [] => Ok []
  | b :: rest =>
      rbind (py_get b (txt "confidence") (JInt 0)) (fun c =>
      rbind (py_ge c min_conf) (fun keep =>
      rbind (filter_confident min_conf rest) (fun kept =>
      Ok (if keep then b :: kept else kept))))
  end.

Definition run_reflection (config : EngineConfig) (llm_fn : adapter) (now : text)
  : M json :=
  entries <- load_log (Some (reflection_window config)) ;;
  match entries with
  | [] => ret (JArr [])
  | _ =>
      existing <- load_beliefs ;;
      s <- get_state ;;
      reflection_count <-
        match belief_file s with
        | Some doc => lift (py_get doc (txt "reflection_count") (JInt 0))
        | None => ret (JInt 0)
        end ;;
      interactions <- lift (_format_interactions entries) ;;
      let p :=
        ReflectionPrompt (List.length entries) interactions
          (if py_truthy existing then Some existing else None)
          (min_belief_confidence config) in
      raw <- call_llm llm_fn p (llm_temperature_reflect config) ;;
      let beliefs := _parse_beliefs raw in
      items <- lift (py_iter beliefs) ;;
      filtered <- lift (filter_confident (min_belief_confidence config) items) ;;
      count <- lift (py_add1 reflection_count) ;;
      _save_beliefs (JArr filtered) count now ;;;
      ret (JArr filtered)
  end.

(** *** synthesis.py *)

Definition load_patterns : M json :=
  s <- get_state ;;
  match pattern_file s with
  | None =>
      ret (JObj
             [ (txt "last_updated", JNull);
               (txt "synthesis_count", JInt 0);
               (txt "abstraction_ladder",
                 JObj [ (txt "observations", JArr []); (txt "themes", JArr []);
                        (txt "patterns", JArr []); (txt "biases", JArr []) ]);
               (txt "cognitive_patterns", JArr []);
               (txt "decision_archetype",
                 JObj [ (txt "dominant", JNull); (txt "distribution", JObj []);
                        (txt "history", JArr []) ]);
               (txt "experience_compression",
                 JObj [ (txt "total_events", JInt 0); (txt "total_patterns", JInt 0);
                        (txt "compression_ratio", JNull) ]) ])
  | Some doc => ret doc
  end.

Definition load_tensions : M json :=
  s <- get_state ;;
  match tension_file s with
  | None => ret (JArr [])
  | Some doc => lift (py_get doc (txt "tensions") (JArr []))
  end.

(** [now1] and [now2] are the two clock readings of the call. *)
Definition _save_synthesis (result_ : json) (synthesis_count : json)
  (total_events : nat) (now1 now2 : text) : M unit :=
  patterns <- lift (py_get result_ (txt "cognitive_patterns") (JArr [])) ;;
  tensions <- lift (py_get result_ (txt "tensions") (JArr [])) ;;
  archetype <- lift (py_get result_ (txt "decision_archetype") (JObj [])) ;;
  ladder <- lift (py_get result_ (txt "abstraction_ladder") (JObj [])) ;;
  total_patterns <- lift (py_len patterns) ;;
  let pattern_data :=
    JObj [ (txt "last_updated", JStr now1);
           (txt "synthesis_count", synthesis_count);
           (txt "abstraction_ladder", ladder);
           (txt "cognitive_patterns", patterns);
           (txt "decision_archetype", archetype);
           (txt "experience_compression",
             JObj [ (txt "total_events", JInt (Z.of_nat total_events));
                    (txt "total_patterns", JInt (Z.of_nat total_patterns));
                    (txt "compression_ratio",
                      JStr (if py_truthy patterns
                            then dec_of_N (N.of_nat total_events) ++ txt ":"
                                 ++ dec_of_N (N.of_nat total_patterns)
                            else txt "N/A")) ]) ] in
  write_patterns pattern_data ;;;
  let tension_data :=
    JObj [ (txt "last_updated", JStr now2);
           (txt "tensions", tensions);
           (txt "resolved", JArr []) ] in
  write_tensions tension_data.

Definition _parse_result (raw : text) : json :=
  let raw := strip_fences raw in
  match json_loads raw with
  | Ok data => data
  | Raise _ =>
      match search object_span_re raw with
      | Some m =>
          match json_loads (group m) with
          | Ok data => data
          | Raise _ => JObj []
          end
      | None => JObj []
      end
  end.

Definition run_synthesis (config : EngineConfig) (llm_fn : adapter)
  (now1 now2 : text) : M json :=
  beliefs <- load_beliefs ;;
  if negb (py_truthy beliefs) then ret (JObj []) else
  total_events <- log_count ;;
  existing <- load_patterns ;;
  synth_count <- lift (py_get existing (txt "synthesis_count") (JInt 0)) ;;
  let p := SynthesisPrompt beliefs total_events in
  raw <- call_llm llm_fn p (llm_temperature_synthesize config) ;;
  let result_ := _parse_result raw in
  if negb (py_truthy result_) then ret (JObj []) else
  count <- lift (py_add1 synth_count) ;;
  _save_synthesis result_ count total_events now1 now2 ;;;
  patterns <- lift (py_get result_ (txt "cognitive_patterns") (JArr [])) ;;
  n_patterns <- lift (py_len patterns) ;;
  tensions <- lift (py_get result_ (txt "tensions") (JArr [])) ;;
  n_tensions <- lift (py_len tensions) ;;
  ret result_.

(** *** The context formatters *)

(** [sorted(items, key=...)] on items paired with their keys: a stable
    sort by increasing key. *)
Fixpoint insert_by_key {A} (k : Q) (x : A) (l : list (Q * A)) : list (Q * A) :=
  match l with
  | [] => [(k, x)]
  | (k', y) :: l' =>
      if Qle_bool k k' then (k, x) :: l else (k', y) :: insert_by_key k x l'
  end.

Fixpoint sort_by_key {A} (l : list (Q * A)) : list (Q * A) :=
  match l with
  | [] => []
  | (k, x) :: l' => insert_by_key k x (sort_by_key l')
  end.

(** The key [lambda x: -x.get("confidence", 0)] *)
Definition neg_confidence (x : json) : result Q :=
  rbind (py_get x (txt "confidence") (JInt 0)) py_neg.

(** [sorted(xs, key=lambda x: -x.get("confidence", 0))] *)
Definition sorted_by_confidence (xs : json) : result (list json) :=
  rbind (py_iter xs) (fun items =>
  rbind (rmap (fun x => rbind (neg_confidence x) (fun k => Ok (k, x))) items)
        (fun keyed => Ok (map snd (sort_by_key keyed)))).

(** The format [.0%] of a value.  A number is taken as a float and
    multiplied by 100 in binary64 arithmetic; the product is written
    without decimals (the nearest integer, ties to even) and as inf when
    it is beyond the largest float.  An int too large for a float raises
    OverflowError, a string ValueError, any other value TypeError. *)
Definition format_percent (x : json) : result text :=
  match x with
  | JStr _ => Raise ValueError
  | _ =>
      match as_number x with
      | None => Raise TypeError
      | Some q =>
          let sign := if Qle_bool 0 q then [] else txt "-" in
          match to_double q with
          | None =>
              match x with
              | JFloat _ => Ok (sign ++ txt "inf%")
              | _ => Raise OverflowError
              end
          | Some d =>
              match to_double (d * 100) with
              | None => Ok (sign ++ txt "inf%")
              | Some p =>
                  Ok (sign ++ dec_of_Z (round_half_even (Qabs p)) ++ txt "%")
              end
          end
      end
  end.

Section Formatters.

(** [str(v)] for a value that is not a string, as an f-string writes it *)
Variable py_str : json -> text.

Definition py_format (v : json) : text :=
  match v with JStr s => s | _ => py_str v end.

Definition belief_line (b : json) : result text :=
  rbind (py_getitem b (txt "belief")) (fun belief =>
  rbind (py_get b (txt "confidence") (JInt 0)) (fun c =>
  rbind (format_percent c) (fun pc =>
  Ok (txt "- " ++ py_format belief ++ txt " (" ++ pc ++ txt ")")))).

(** The body of [format_belief_block] once the beliefs are at hand *)
Definition belief_block (beliefs : json) : result text :=
  if negb (py_truthy beliefs) then Ok [] else
  rbind (sorted_by_confidence beliefs) (fun sorted =>
  rbind (rmap belief_line sorted) (fun lines =>
  Ok (join newline
        ((txt "## What I know about you (domain beliefs)" ++ newline) :: lines)
      ++ newline ++ newline))).

(** [Some b]: the caller passes the beliefs [b]; [None]: the caller
    passes nothing, or None, and the stored beliefs are loaded. *)
Definition format_belief_block (beliefs : option json) : M text :=
  beliefs <- match beliefs with Some b => ret b | None => load_beliefs end ;;
  lift (belief_block beliefs).

Definition pattern_line (p : json) : result text :=
  rbind (py_getitem p (txt "pattern")) (fun pattern =>
  rbind (py_getitem p (txt "confidence")) (fun c =>
  rbind (format_percent c) (fun pc =>
  Ok (txt "- " ++ py_format pattern ++ txt " (" ++ pc ++ txt ")")))).

(** The comprehension [[t for t in tensions if t.get("severity", 0) > 0.5]] *)
Fixpoint filter_active (tensions : list json) : result (list json) :=
  match tensions with
  | [] => Ok []
  | t :: rest =>
      rbind (py_get t (txt "severity") (JInt 0)) (fun sev =>
      rbind (py_gt sev (5 # 10)) (fun keep =>
      rbind (filter_active rest) (fun kept =>
      Ok (if keep then t :: kept else kept))))
  end.

Definition tension_line (t : json) : result text :=
  rbind (py_getitem t (txt "strategic_question")) (fun q =>
  Ok (txt "- " ++ py_format q)).

(** The body of [format_cognitive_block] once the two files are loaded *)
Definition cognitive_block (patterns_data tensions : json) : result text :=
  rbind (py_get patterns_data (txt "cognitive_patterns") (JArr [])) (fun patterns =>
  rbind (py_get patterns_data (txt "decision_archetype") (JObj [])) (fun archetype =>
  if negb (py_truthy patterns) then Ok [] else
  rbind (sorted_by_confidence patterns) (fun sorted =>
  rbind (rmap pattern_line sorted) (fun lines =>
  rbind (py_get archetype (txt "dominant") JNull) (fun dominant =>
  rbind (if py_truthy dominant
         then rbind (py_getitem archetype (txt "dominant")) (fun d =>
              Ok [newline ++ txt "Dominant decision archetype: " ++ py_format d])
         else Ok []) (fun arch_lines =>
  rbind (py_iter tensions) (fun tension_items =>
  rbind (filter_active tension_items) (fun active_tensions =>
  rbind (match active_tensions with
         | [] => Ok []
         | _ =>
             rbind (rmap tension_line active_tensions) (fun qs =>
             Ok ((newline ++ txt "Active cognitive tensions:") :: qs))
         end) (fun tension_lines =>
  Ok (join newline
        (((txt "## Cognitive Signature (how this user thinks)" ++ newline) :: lines)
         ++ arch_lines ++ tension_lines
         ++ [newline
             ++ txt "When responding: align with cognitive style. "
             ++ txt "Flag contradictions to archetype. "
             ++ txt "Apply cross-domain transfer when relevant. "
             ++ txt "No lists. Direct prose only. Name patterns by label."
             ++ newline]))))))))))).

Definition format_cognitive_block : M text :=
  patterns_data <- load_patterns ;;
  tensions <- load_tensions ;;
  lift (cognitive_block patterns_data tensions).

End Formatters.

End Engine.
Import Engine.

(** ** Notions used in the statements *)

Module Statements.

Local Open Scope engine_scope.

(** The text of a log that holds the records [es] *)
Definition log_text (es : list json) : text :=
  flat_map (fun e => json_dumps e ++ newline) es.

(** The last [n] elements *)
Definition lastn {A} (n : nat) (l : list A) : list A :=
  skipn (List.length l - n) l.

(** What [load_log] returns from the records read *)
Definition limit (n : option Z) (entries : list json) : list json :=
  match n with
  | Some n' => if Z.eqb n' 0 then entries else slice_from (- n') entries
  | None => entries
  end.

(** The log holds exactly the records [es], as [log_interaction] writes
    them. *)
Definition log_written (s : state) (es : list json) : Prop :=
  Forall entry_ok es
  /\ ((log_file s = None /\ es = []) \/ log_file s = Some (log_text es)).

(** The count that [run_reflection] reads from the belief file *)
Definition stored_reflection_count (s : state) : result json :=
  match belief_file s with
  | Some doc => py_get doc (txt "reflection_count") (JInt 0)
  | None => Ok (JInt 0)
  end.

(** The state after [_save_beliefs] in a run that called the adapter *)
Definition reflected (config : EngineConfig) (s : state) (entries : list json)
  (ivs : list interaction_view) (existing : json) (count : json)
  (filtered : list json) (now : text) : state :=
  {| log_file := log_file s;
     belief_file :=
       Some (JObj [ (txt "last_updated", JStr now);
                    (txt "reflection_count", count);
                    (txt "beliefs", JArr filtered) ]);
     pattern_file := pattern_file s;
     tension_file := tension_file s;
     llm_calls :=
       (ReflectionPrompt (List.length entries) ivs
          (if py_truthy existing then Some existing else None)
          (min_belief_confidence config),
        llm_temperature_reflect config) :: llm_calls s |}.


(** An adapter that returns the same text whatever the prompt *)
Definition constant_adapter (raw : text) : adapter := fun _ _ => Ok raw.

(** The store can be read by a reflection run: the log loads and formats,
    the belief file (if any) holds an object with a count that can be
    incremented. *)
Definition reflection_inputs_ok (config : EngineConfig) (s : state) : Prop :=
  exists entries ivs existing count0 count,
    load_log (Some (reflection_window config)) s = (Ok entries, s)
    /\ _format_interactions entries = Ok ivs
    /\ load_beliefs s = (Ok existing, s)
    /\ stored_reflection_count s = Ok count0
    /\ py_add1 count0 = Ok count.

(** The store can be read by a synthesis run: the belief file and the
    pattern file (if any) hold objects. *)
Definition synthesis_inputs_ok (s : state) : Prop :=
  exists beliefs existing sc,
    load_beliefs s = (Ok beliefs, s)
    /\ load_patterns s = (Ok existing, s)
    /\ py_get existing (txt "synthesis_count") (JInt 0) = Ok sc.

(** The stored belief set is empty: no belief file, or one whose object
    has no beliefs. *)
Definition no_beliefs (s : state) : Prop :=
  belief_file s = None
  \/ exists fields,
       belief_file s = Some (JObj fields)
       /\ (dict_lookup fields (txt "beliefs") = None
           \/ dict_lookup fields (txt "beliefs") = Some (JArr [])).

(** The confidence of a belief or pattern as the sort key reads it *)
Definition confidence_value (x : json) : option Q :=
  match py_get x (txt "confidence") (JInt 0) with
  | Ok c => as_number c
  | Raise _ => None
  end.

(** [a] may stand before [b] in a list sorted by descending confidence *)
Definition higher_first (a b : json) : Prop :=
  exists qa qb,
    confidence_value a = Some qa /\ confidence_value b = Some qb /\ qb <= qa.

(** [sorted] holds the elements of [items], by descending confidence *)
Definition sorted_descending (items sorted : list json) : Prop :=
  Permutation items sorted /\ StronglySorted higher_first sorted.

(** The stored pattern set is empty: no pattern file, or one whose object
    has no cognitive patterns. *)
Definition no_patterns (s : state) : Prop :=
  pattern_file s = None
  \/ exists fields,
       pattern_file s = Some (JObj fields)
       /\ (dict_lookup fields (txt "cognitive_patterns") = None
           \/ dict_lookup fields (txt "cognitive_patterns") = Some (JArr [])).

(** The tension file, if there is one, holds an object, as
    [_save_synthesis] writes it. *)
Definition tension_doc_ok (s : state) : Prop :=
  tension_file s = None \/ exists fields, tension_file s = Some (JObj fields).

(** The belief set that the belief file holds; none without a file, and
    none without the key *)
Definition stored_beliefs (s : state) (beliefs : json) : Prop :=
  (belief_file s = None /\ beliefs = JArr [])
  \/ exists fields,
       belief_file s = Some (JObj fields)
       /\ beliefs = match dict_lookup fields (txt "beliefs") with
                    | Some v => v
                    | None => JArr []
                    end.

(** The pattern set that the pattern file holds *)
Definition stored_patterns (s : state) (patterns : json) : Prop :=
  (pattern_file s = None /\ patterns = JArr [])
  \/ exists fields,
       pattern_file s = Some (JObj fields)
       /\ patterns = match dict_lookup fields (txt "cognitive_patterns") with
                     | Some v => v
                     | None => JArr []
                     end.

(** A dict without the key "confidence" *)
Definition confidence_absent (x : json) : bool :=
  match x with
  | JObj fields =>
      match dict_lookup fields (txt "confidence") with
      | None => true
      | Some _ => false
      end
  | _ => false
  end.

(** A dict that has the key [key] and whose confidence, when it has one,
    can be written as a percentage *)
Definition renderable (key : text) (x : json) : bool :=
  match x with
  | JObj fields =>
      match dict_lookup fields key, dict_lookup fields (txt "confidence") with
      | Some _, None => true
      | Some _, Some c =>
          match format_percent c with Ok _ => true | Raise _ => false end
      | None, _ => false
      end
  | _ => false
  end.

(** A tension that can be listed: a dict with a strategic question whose
    severity, when it has one, is a number *)
Definition tension_renderable (t : json) : bool :=
  match t with
  | JObj fields =>
      match dict_lookup fields (txt "strategic_question"),
            dict_lookup fields (txt "severity") with
      | Some _, None => true
      | Some _, Some v =>
          match as_number v with Some _ => true | None => false end
      | None, _ => false
      end
  | _ => false
  end.

(** The pattern and tension files as a synthesis leaves them for the
    cognitive block: patterns that can be rendered, each with a
    confidence, an archetype that is a dict when there is one, and
    tensions that can be listed *)
Definition cognitive_store_ok (s : state) (items : list json) : Prop :=
  (exists fields,
     pattern_file s = Some (JObj fields)
     /\ dict_lookup fields (txt "cognitive_patterns") = Some (JArr items)
     /\ forallb (fun p => (renderable (txt "pattern") p
                            && negb (confidence_absent p))%bool) items = true
     /\ (dict_lookup fields (txt "decision_archetype") = None
         \/ exists a, dict_lookup fields (txt "decision_archetype") = Some (JObj a)))
  /\ (tension_file s = None
      \/ exists fields,
           tension_file s = Some (JObj fields)
           /\ (dict_lookup fields (txt "tensions") = None
               \/ exists ts,
                    dict_lookup fields (txt "tensions") = Some (JArr ts)
                    /\ forallb tension_renderable ts = true)).

Definition belief_header : text :=
  txt "## What I know about you (domain beliefs)" ++ newline.

Definition cognitive_header : text :=
  txt "## Cognitive Signature (how this user thinks)" ++ newline.

(** The stores that the engine produces: what calls of the three entry
    points leave behind, starting from an empty data directory.  (The
    formatters write nothing.) *)
Inductive call : Type :=
| CallLog (c : append_call)
| CallReflect (config : EngineConfig) (llm_fn : adapter) (now : text)
| CallSynthesize (config : EngineConfig) (llm_fn : adapter) (now1 now2 : text).

Section Reachable.

Variable list_of_set : list text -> list text.

Definition after_call (s : state) (c : call) : state :=
  match c with
  | CallLog a => snd (append list_of_set a s)
  | CallReflect config llm_fn now => snd (run_reflection config llm_fn now s)
  | CallSynthesize config llm_fn now1 now2 =>
      snd (run_synthesis config llm_fn now1 now2 s)
  end.

Definition reachable (s : state) : Prop :=
  exists calls, s = fold_left after_call calls empty_state.

End Reachable.

(** A record as [log_interaction] builds it *)
Definition is_entry (e : json) : Prop :=
  exists uid now question answer tags conf,
    e = JObj [ (txt "id", JStr uid);
               (txt "timestamp", JStr now);
               (txt "question", JStr question);
               (txt "answer", JStr answer);
               (txt "tags", JArr (map JStr tags));
               (txt "confidence", JFloat conf) ]
    /\ number_reads_back (JFloat conf) = true.

(** The shape of every store that the engine produces *)
Definition store_ok (s : state) : Prop :=
  (exists es, log_written s es /\ Forall is_entry es)
  /\ (belief_file s = None
      \/ exists now z beliefs,
           belief_file s
           = Some (JObj [ (txt "last_updated", JStr now);
                          (txt "reflection_count", JInt z);
                          (txt "beliefs", JArr beliefs) ]))
  /\ (pattern_file s = None \/ exists fields, pattern_file s = Some (JObj fields))
  /\ tension_doc_ok s.

End Statements.
Import Statements.

(** ** A small store to try the statements on *)

Module Demo.

(** Two calls, a third one, and the log after the first two *)
Definition demo_calls : list append_call :=
  [ {| ac_uid := txt "ab12cd34"; ac_now := txt "2026-01-01T00:00:00+00:00";
       ac_question := txt "What is karma marga?";
       ac_answer := txt "The path of selfless action.";
       ac_extra_tags := None |};
    {| ac_uid := txt "ab12cd35"; ac_now := txt "2026-01-01T00:05:00+00:00";
       ac_question := txt "What is jnana marga?";
       ac_answer := txt "Maybe the path of knowledge.";
       ac_extra_tags := Some [txt "spirituality"] |} ].

Definition demo_call : append_call :=
  {| ac_uid := txt "ab12cd36"; ac_now := txt "2026-01-01T00:09:00+00:00";
     ac_question := txt "Should I use docker?";
     ac_answer := txt "It depends on the server.";
     ac_extra_tags := None |}.

Definition demo_log : state :=
  snd (run_appends (fun l => l) demo_calls empty_state).

(** The log after one reflection whose model answers with two beliefs
    wrapped in prose and a code fence *)
Definition demo_llm : adapter :=
  fun _ _ =>
    Ok (txt "Here are the beliefs: ```json "
        ++ json_dumps
             (JArr [ JObj [ (txt "belief", JStr (txt "User studies the margas"));
                            (txt "confidence", JFloat (8 # 10)) ];
                     JObj [ (txt "belief", JStr (txt "User may like yoga"));
                            (txt "confidence", JFloat (4 # 10)) ] ])
        ++ txt " ``` Hope this helps.").

Definition demo_store : state :=
  snd (run_reflection default_config demo_llm (txt "2026-01-01T01:00:00+00:00")
         demo_log).

(** [demo_store] after a synthesis *)
Definition demo_synthesis_llm : adapter :=
  fun _ _ =>
    Ok (json_dumps
          (JObj [ (txt "cognitive_patterns",
                    JArr [ JObj [ (txt "pattern", JStr (txt "P1"));
                                  (txt "confidence", JFloat (7 # 10)) ];
                           JObj [ (txt "pattern", JStr (txt "P2"));
                                  (txt "confidence", JFloat (9 # 10)) ] ]);
                  (txt "decision_archetype",
                    JObj [ (txt "dominant", JStr (txt "depth-first")) ]);
                  (txt "tensions",
                    JArr [ JObj [ (txt "strategic_question", JStr (txt "Q?"));
                                  (txt "severity", JFloat (6 # 10)) ] ]) ])).

Definition demo_patterns : state :=
  snd (run_synthesis default_config demo_synthesis_llm
         (txt "2026-01-01T03:00:00+00:00") (txt "2026-01-01T03:00:01+00:00")
         demo_store).

End Demo.
Import Demo.

(** ** Notions used in the further statements *)

Module Notions.

(** [l1] is [l2] with some of its elements left out *)
Inductive sublist {A : Type} : list A -> list A -> Prop :=
| sublist_nil : sublist [] []
| sublist_skip (x : A) (l1 l2 : list A) : sublist l1 l2 -> sublist l1 (x :: l2)
| sublist_keep (x : A) (l1 l2 : list A) : sublist l1 l2 -> sublist (x :: l1) (x :: l2).

(** The alternatives of [r1|r2|...] *)
Fixpoint alternatives (r : regex) : list regex :=
  match r with
  | Alt r1 r2 => r1 :: alternatives r2
  | _ => [r]
  end.

(** The words of a pattern [\b(w1|w2|...)\b] of literal words *)
Definition keywords (pat : regex) : list text :=
  match pat with
  | Seq WordB (Seq body WordB) => map spelled (alternatives body)
  | _ => []
  end.

(** [list(set(l))] lists each element of [l] once, in some order. *)
Definition lists_set (list_of_set : list text -> list text) : Prop :=
  forall l, NoDup (list_of_set l) /\ forall x, In x (list_of_set l) <-> In x l.

(** One way to list a set: the first occurrences, in order *)
Definition first_occurrences (l : list text) : list text :=
  rev (nodup (list_eq_dec ascii_dec) (rev l)).

(** The text of the log file; an absent file has none. *)
Definition log_content (s : state) : text :=
  match log_file s with Some t => t | None => [] end.

(** The four files of [s'] are those of [s]. *)
Definition same_files (s s' : state) : Prop :=
  log_file s' = log_file s
  /\ belief_file s' = belief_file s
  /\ pattern_file s' = pattern_file s
  /\ tension_file s' = tension_file s.

(** The state after one call of the adapter and nothing else *)
Definition with_call (s : state) (p : prompt) (temperature : Q) : state :=
  {| log_file := log_file s; belief_file := belief_file s;
     pattern_file := pattern_file s; tension_file := tension_file s;
     llm_calls := (p, temperature) :: llm_calls s |}.

(** [x.get(key, default)] on a value that is an object *)
Definition field_or (x : json) (key : text) (default : json) : json :=
  match py_get x key default with Ok v => v | Raise _ => default end.

(** The state after [_save_synthesis] has written its two files *)
Definition synthesized (s : state) (result_ count : json)
  (total_events total_patterns : nat) (now1 now2 : text) : state :=
  let patterns := field_or result_ (txt "cognitive_patterns") (JArr []) in
  {| log_file := log_file s;
     belief_file := belief_file s;
     pattern_file :=
       Some (JObj [ (txt "last_updated", JStr now1);
                    (txt "synthesis_count", count);
                    (txt "abstraction_ladder",
                      field_or result_ (txt "abstraction_ladder") (JObj []));
                    (txt "cognitive_patterns", patterns);
                    (txt "decision_archetype",
                      field_or result_ (txt "decision_archetype") (JObj []));
                    (txt "experience_compression",
                      JObj [ (txt "total_events", JInt (Z.of_nat total_events));
                             (txt "total_patterns", JInt (Z.of_nat total_patterns));
                             (txt "compression_ratio",
                               JStr (if py_truthy patterns
                                     then dec_of_N (N.of_nat total_events) ++ txt ":"
                                          ++ dec_of_N (N.of_nat total_patterns)
                                     else txt "N/A")) ]) ]);
     tension_file :=
       Some (JObj [ (txt "last_updated", JStr now2);
                    (txt "tensions", field_or result_ (txt "tensions") (JArr []));
                    (txt "resolved", JArr []) ]);
     llm_calls := llm_calls s |}.

(** The count that [run_synthesis] reads from the pattern file *)
Definition stored_synthesis_count (s : state) : result json :=
  match pattern_file s with
  | Some doc => py_get doc (txt "synthesis_count") (JInt 0)
  | None => Ok (JInt 0)
  end.

Section Appended.

Variable list_of_set : list text -> list text.

(** The records that the [log_interaction] calls among [calls] return,
    in order, when the calls are made one after the other from [s] *)
Fixpoint appended (calls : list call) (s : state) : list json :=
  match calls with
  | [] => []
  | c :: rest =>
      match c with
      | CallLog a =>
          match fst (append list_of_set a s) with
          | Ok e => [e]
          | Raise _ => []
          end
      | _ => []
      end ++ appended rest (after_call list_of_set s c)
  end.

End Appended.

Definition is_log_call (c : call) : bool :=
  match c with CallLog _ => true | _ => false end.

(** A value is a list ([arr = true]) or a dict ([arr = false]). *)
Definition value_kind (arr : bool) (v : json) : bool :=
  match v with
  | JArr _ => arr
  | JObj _ => negb arr
  | _ => false
  end.

Definition frame_kind (arr : bool) (f : frame) : bool :=
  match f with
  | FArr _ => arr
  | _ => negb arr
  end.

(** The reader is inside a value of the kind [arr] that began with the
    first token, or has just completed it. *)
Definition inside_kind (arr : bool) (e : expect) (st : list frame) : bool :=
  match st with
  | [] => match e with EAfter v => value_kind arr v | _ => false end
  | f :: st' => frame_kind arr (last st' f)
  end.

(** How a code fence around the answer of the model may open and close *)
Definition fence_opens : list text := [ []; txt "```"; txt "```json" ].
Definition fence_closes : list text := [ []; txt "```" ].

Definition no_backquote (s : text) : bool :=
  negb (existsb (Ascii.eqb "`"%char) s).

(** The character [c] does not occur in [s]. *)
Definition lacks (c : ascii) (s : text) : bool :=
  negb (existsb (Ascii.eqb c) s).

(** The view [iv] shows the record [e]: the question and the confidence
    as they are, the first 300 characters of the answer, the tags joined
    by a comma and a space. *)
Definition view_of (e : json) (iv : interaction_view) : Prop :=
  exists a tags,
    py_getitem e (txt "answer") = Ok (JStr a)
    /\ py_getitem e (txt "tags") = Ok (JArr (map JStr tags))
    /\ py_getitem e (txt "question") = Ok (iv_question iv)
    /\ py_getitem e (txt "confidence") = Ok (iv_confidence iv)
    /\ iv_answer iv = firstn 300 a
    /\ iv_truncated iv = Nat.ltb 300 (List.length a)
    /\ iv_tags iv = join (txt ", ") tags.

(** A value that [", ".join] accepts: a list of strings, a string (its
    characters) or a dict (its keys) *)
Definition tags_joinable (tags : json) : bool :=
  match tags with
  | JArr items =>
      forallb (fun t => match t with JStr _ => true | _ => false end) items
  | JStr _ | JObj _ => true
  | _ => false
  end.

(** The longest run of digits in [s]; [run] is the length of the run that
    ends where [s] begins, [best] the longest run before. *)
Fixpoint longest_digit_run (s : text) (run best : nat) : nat :=
  match s with
  | [] => Nat.max run best
  | c :: s' =>
      if is_digit c then longest_digit_run s' (S run) best
      else longest_digit_run s' 0 (Nat.max run best)
  end.

(** The opening brackets and braces of [s]: no value in it nests deeper. *)
Definition opening_brackets (s : text) : nat :=
  List.length (filter (fun c => (Ascii.eqb c "["%char || Ascii.eqb c "{"%char)%bool) s).

(** A text on which [json.loads] returns or raises JSONDecodeError: no
    integer of more than 4300 digits, and no nesting beyond [depth], the
    depth that the interpreter affords where the decoder is called. *)
Definition within_decoder_limits (depth : nat) (s : text) : bool :=
  (Nat.leb (longest_digit_run s 0 0) 4300 && Nat.leb (opening_brackets s) depth)%bool.

(** An adapter that cannot reach the model *)
Definition failing_adapter : adapter := fun _ _ => Raise RuntimeError.

End Notions.
Import Notions.

(** ** synthesis.py: the transfer entry point *)

Module Transfer.

Local Open Scope engine_scope.

(** The values that fill the prompt of [apply_patterns]: the stored
    patterns, the dominant archetype and the situation.  As for the other
    prompts, the text around them is not modelled. *)
Record transfer_prompt : Type := {
  tp_patterns : json;
  tp_archetype : json;
  tp_situation : text
}.

Definition transfer_adapter : Type := transfer_prompt -> Q -> result text.

Definition no_patterns_message : text :=
  txt "No cognitive patterns available. Run run_synthesis() first.".

(** The archetype is read before the patterns are looked at. *)
Definition apply_patterns (situation : text) (llm_fn : transfer_adapter) : M text :=
  patterns_data <- load_patterns ;;
  patterns <- lift (py_get patterns_data (txt "cognitive_patterns") (JArr [])) ;;
  archetype_data <- lift (py_get patterns_data (txt "decision_archetype") (JObj [])) ;;
  archetype <- lift (py_get archetype_data (txt "dominant") (JStr (txt "unknown"))) ;;
  if negb (py_truthy patterns) then ret no_patterns_message else
  lift (llm_fn {| tp_patterns := patterns; tp_archetype := archetype;
                  tp_situation := situation |} (5 # 10)).

(** The pattern file, if there is one, holds a dict whose archetype, if
    there is one, is a dict. *)
Definition archetype_ok (s : state) : Prop :=
  pattern_file s = None
  \/ exists fields,
       pattern_file s = Some (JObj fields)
       /\ (dict_lookup fields (txt "decision_archetype") = None
           \/ exists a, dict_lookup fields (txt "decision_archetype") = Some (JObj a)).

End Transfer.
Import Transfer.

(** ** ingest.py: social media exports into the log

    The parsers of the single platforms work on formats (chat lines, CSV)
    that are not modelled, except the generic JSON parser: the others are
    parameters of [ingest], any functions from the source text to
    normalised entries or an exception. *)

Module Ingest.

Local Open Scope engine_scope.

Record IngestResult : Type := {
  platform : text;
  total_parsed : nat;
  total_ingested : nat;
  skipped : nat;
  errors : list text
}.

Definition dec_of_nat (n : nat) : text := dec_of_N (N.of_nat n).

(** [IngestResult.summary] *)
Definition summary (r : IngestResult) : text :=
  txt "[" ++ platform r ++ txt "] "
  ++ dec_of_nat (total_ingested r) ++ txt " ingested | "
  ++ dec_of_nat (skipped r) ++ txt " skipped | "
  ++ dec_of_nat (total_parsed r) ++ txt " total parsed"
  ++ match errors r with
     | [] => []
     | _ => txt " | " ++ dec_of_nat (List.length (errors r)) ++ txt " errors"
     end.

(** The dict that [_make_entry] builds, with its three keys *)
Record normalised_entry : Type := {
  ne_question : text;
  ne_answer : text;
  ne_extra_tags : list text
}.

Definition _make_entry (question answer platform_ : text)
  (extra_tags : option (list text)) : normalised_entry :=
  let tags := [txt "source:" ++ platform_; txt "social_media"] in
  {| ne_question := strip question;
     ne_answer := strip answer;
     ne_extra_tags :=
       match extra_tags with
       | Some (t :: ts) => tags ++ t :: ts
       | _ => tags
       end |}.

(** *** The generic JSON parser *)

Definition container_keys : list text :=
  [txt "posts"; txt "messages"; txt "data"; txt "items"; txt "tweets"].

Definition TEXT_KEYS : list text :=
  [txt "text"; txt "content"; txt "message"; txt "post"; txt "body";
   txt "caption"; txt "description"; txt "comment"].

(** The first container key that the dict has gives the data. *)
Fixpoint unwrap_first (fields : list (text * json)) (keys : list text)
  : option json :=
  match keys with
  | [] => None
  | key :: rest =>
      match dict_lookup fields key with
      | Some v => Some v
      | None => unwrap_first fields rest
      end
  end.

Definition unwrap (data : json) : json :=
  match data with
  | JObj fields =>
      match unwrap_first fields container_keys with
      | Some v => v
      | None => data
      end
  | _ => data
  end.

(** The first text key whose value is a string of more than 20
    characters gives the text of a dict. *)
Fixpoint first_long_text (fields : list (text * json)) (keys : list text)
  : option text :=
  match keys with
  | [] => None
  | key :: rest =>
      match dict_lookup fields key with
      | Some (JStr val) =>
          if Nat.ltb 20 (List.length val) then Some val
          else first_long_text fields rest
      | _ => first_long_text fields rest
      end
  end.

Definition item_text (item : json) : option text :=
  match item with
  | JStr s => if Nat.ltb 20 (List.length s) then Some s else None
  | JObj fields => first_long_text fields TEXT_KEYS
  | _ => None
  end.

Definition generic_entry (t : text) : normalised_entry :=
  _make_entry [] t (txt "generic") (Some [txt "imported"]).

Definition _parse_generic_json (text_ : text) : list normalised_entry :=
  match json_loads text_ with
  | Ok data =>
      match unwrap data with
      | JArr items =>
          flat_map (fun item =>
                      match item_text item with
                      | Some t => [generic_entry t]
                      | None => []
                      end) items
      | _ => []
      end
  | Raise _ => []
  end.

(** *** The public entry points *)

Definition SUPPORTED_PLATFORMS : list text :=
  [txt "whatsapp"; txt "twitter"; txt "linkedin_posts"; txt "linkedin_messages";
   txt "instagram"; txt "telegram"; txt "csv"; txt "json"].

(** [try: m except Exception: handler]; what [m] wrote stays written. *)
Definition try_except {A} (m handler : M A) : M A :=
  fun s =>
    match m s with
    | (Ok a, s') => (Ok a, s')
    | (Raise _, s') => handler s'
    end.

Definition with_error (r : IngestResult) (msg : text) : IngestResult :=
  {| platform := platform r; total_parsed := total_parsed r;
     total_ingested := total_ingested r; skipped := skipped r;
     errors := errors r ++ [msg] |}.

Definition count_entry (r : IngestResult) (written : bool) : IngestResult :=
  {| platform := platform r; total_parsed := total_parsed r;
     total_ingested := if written then S (total_ingested r) else total_ingested r;
     skipped := if written then skipped r else S (skipped r);
     errors := errors r |}.

(** [p in s] and [s.endswith(p)] on strings *)
Fixpoint starts_with (p s : text) : bool :=
  match p, s with
  | [], _ => true
  | c :: p', d :: s' => (Ascii.eqb c d && starts_with p' s')%bool
  | _ :: _, [] => false
  end.

Fixpoint contains (p s : text) : bool :=
  (starts_with p s
   || match s with
      | [] => false
      | _ :: s' => contains p s'
      end)%bool.

Definition ends_with (p s : text) : bool := starts_with (rev p) (rev s).

(** The platform that [ingest_file] takes from the name of the file
    ([path.name]) when none is given *)
Definition detect_platform (path_name : text) : text :=
  let name := lower path_name in
  if (contains (txt "whatsapp") name || ends_with (txt ".txt") name)%bool
  then txt "whatsapp"
  else if (contains (txt "tweet") name || text_eqb name (txt "tweets.js"))%bool
  then txt "twitter"
  else if (contains (txt "message") name && ends_with (txt ".csv") name)%bool
  then txt "linkedin_messages"
  else if ends_with (txt ".csv") name then txt "linkedin_posts"
  else if (contains (txt "telegram") name || contains (txt "result") name)%bool
  then txt "telegram"
  else if ends_with (txt ".json") name then txt "instagram"
  else txt "json".

Section Ingestion.

Variable list_of_set : list text -> list text.

(** The id and the time stamp that [log_interaction] draws for the entry
    at each position *)
Variable env : nat -> text * text.

(** [str(e)] in the message of a parse error *)
Variable str_exn : exn -> text.

Variable _parse_whatsapp : text -> option text -> result (list normalised_entry).
Variable _parse_twitter : text -> result (list normalised_entry).
Variable _parse_linkedin_posts : text -> result (list normalised_entry).
Variable _parse_linkedin_messages
  : text -> option text -> result (list normalised_entry).
Variable _parse_instagram : text -> option text -> result (list normalised_entry).
Variable _parse_telegram : text -> option text -> result (list normalised_entry).
Variable _parse_generic_csv : text -> result (list normalised_entry).

Definition _write_entry (uid now : text) (entry : normalised_entry) : M bool :=
  if is_blank (ne_answer entry) then ret false else
  try_except
    (log_interaction list_of_set uid now (ne_question entry) (ne_answer entry)
       (Some (ne_extra_tags entry)) ;;;
     ret true)
    (ret false).

(** The loop of [ingest] over the parsed entries, from position [i] *)
Fixpoint write_entries (entries : list normalised_entry) (i : nat)
  (result_ : IngestResult) : M IngestResult :=
  match entries with
  | [] => ret result_
  | entry :: rest =>
      written <- _write_entry (fst (env i)) (snd (env i)) entry ;;
      write_entries rest (S i) (count_entry result_ written)
  end.

(** The chain of comparisons of [ingest]: [None] for a platform that is
    not known. *)
Definition parse_source (platform_ source : text) (user_handle : option text)
  : option (result (list normalised_entry)) :=
  if text_eqb platform_ (txt "whatsapp") then Some (_parse_whatsapp source user_handle)
  else if text_eqb platform_ (txt "twitter") then Some (_parse_twitter source)
  else if text_eqb platform_ (txt "linkedin_posts")
       then Some (_parse_linkedin_posts source)
  else if text_eqb platform_ (txt "linkedin_messages")
       then Some (_parse_linkedin_messages source user_handle)
  else if text_eqb platform_ (txt "instagram")
       then Some (_parse_instagram source user_handle)
  else if text_eqb platform_ (txt "telegram")
       then Some (_parse_telegram source user_handle)
  else if text_eqb platform_ (txt "csv") then Some (_parse_generic_csv source)
  else if text_eqb platform_ (txt "json") then Some (Ok (_parse_generic_json source))
  else None.

Definition ingest (source platform_ : text) (user_handle : option text)
  : M IngestResult :=
  let platform_ := strip (lower platform_) in
  let result_ :=
    {| platform := platform_; total_parsed := 0; total_ingested := 0;
       skipped := 0; errors := [] |} in
  match parse_source platform_ source user_handle with
  | None =>
      ret (with_error result_
             (txt "Unknown platform '" ++ platform_ ++ txt "'. Supported: "
              ++ join (txt ", ") SUPPORTED_PLATFORMS))
  | Some (Raise e) => ret (with_error result_ (txt "Parse error: " ++ str_exn e))
  | Some (Ok entries) =>
      write_entries entries 0
        {| platform := platform_; total_parsed := List.length entries;
           total_ingested := 0; skipped := 0; errors := [] |}
  end.

(** [ingest_file]: [file] is the text of the file at [filepath], [None]
    when there is no such file; [path_name] is the last component of the
    path. *)
Definition ingest_file (filepath path_name : text) (file : option text)
  (platform_ : option text) (user_handle : option text) : M IngestResult :=
  match file with
  | None =>
      ret {| platform :=
               match platform_ with
               | Some (c :: p) => c :: p
               | _ => txt "unknown"
               end;
             total_parsed := 0; total_ingested := 0; skipped := 0;
             errors := [txt "File not found: " ++ filepath] |}
  | Some text_ =>
      let platform_ :=
        match platform_ with
        | Some p => p
        | None => detect_platform path_name
        end in
      ingest text_ platform_ user_handle
  end.

End Ingestion.

End Ingest.
Import Ingest.

(** ** Notions used in the statements about ingestion *)

Module IngestNotions.

Definition blank_answer (x : normalised_entry) : bool := is_blank (ne_answer x).

(** The entries that are written: those with an answer that is not blank *)
Definition filled (entries : list normalised_entry) : list normalised_entry :=
  filter (fun x => negb (blank_answer x)) entries.

(** The record [e] of the log carries the question and the answer of the
    entry [x]. *)
Definition logs_entry (e : json) (x : normalised_entry) : Prop :=
  py_getitem e (txt "question") = Ok (JStr (ne_question x))
  /\ py_getitem e (txt "answer") = Ok (JStr (ne_answer x)).

(** Parsers that fail, to stand for the formats that are not modelled *)
Definition no_parser (source : text) : result (list normalised_entry) :=
  Raise ValueError.
Definition no_chat_parser (source : text) (user_handle : option text)
  : result (list normalised_entry) := Raise ValueError.

Definition demo_env (i : nat) : text * text :=
  (txt "id" ++ dec_of_nat i, txt "2026-02-01T00:00:0" ++ dec_of_nat i).

(** [ingest] with these *)
Definition demo_ingest (source platform_ : text) : M IngestResult :=
  ingest first_occurrences demo_env (fun _ => txt "error") no_chat_parser no_parser
    no_parser no_chat_parser no_chat_parser no_chat_parser no_parser
    source platform_ None.

(** An export: three strings, the second too short to count, the third
    blank *)
Definition demo_export : list text :=
  [ txt "I prefer fastapi over flask for services";
    txt "too short";
    txt "                         " ].

End IngestNotions.
Import IngestNotions.

(** ** More of the small store *)

Module Samples.

(** What the synthesis of [demo_patterns] returned *)
Definition demo_result : json :=
  match fst (run_synthesis default_config demo_synthesis_llm
               (txt "2026-01-01T03:00:00+00:00") (txt "2026-01-01T03:00:01+00:00")
               demo_store) with
  | Ok r => r
  | Raise _ => JNull
  end.

(** Two beliefs, as a model may answer them *)
Definition demo_answer : list json :=
  [ JObj [ (txt "belief", JStr (txt "User studies the margas"));
           (txt "confidence", JFloat (4 # 5)) ];
    JObj [ (txt "belief", JStr (txt "User may like yoga"));
           (txt "confidence", JFloat (2 # 5)) ] ].

(** A belief file and a pattern file edited by hand: in each, one
    item has lost its confidence. *)
Definition demo_edited : state :=
  {| log_file := None;
     belief_file :=
       Some (JObj [ (txt "beliefs",
                      JArr [ JObj [ (txt "belief", JStr (txt "B1")) ];
                             JObj [ (txt "belief", JStr (txt "B2"));
                                    (txt "confidence", JFloat (7 # 10)) ] ]) ]);
     pattern_file :=
       Some (JObj [ (txt "cognitive_patterns",
                      JArr [ JObj [ (txt "pattern", JStr (txt "P1")) ];
                             JObj [ (txt "pattern", JStr (txt "P2"));
                                    (txt "confidence", JFloat (7 # 10)) ] ]) ]);
     tension_file := None;
     llm_calls := [] |}.

(** [demo_store] after a synthesis whose model answered with an object
    that names an archetype as a string and no patterns *)
Definition demo_odd : state :=
  snd (run_synthesis default_config
         (constant_adapter
            (json_dumps (JObj [ (txt "decision_archetype", JStr (txt "x")) ])))
         (txt "2026-01-01T03:00:00+00:00") (txt "2026-01-01T03:00:01+00:00")
         demo_store).

(** An adapter for [apply_patterns] that answers with the situation *)
Definition demo_transfer_llm : transfer_adapter :=
  fun p _ => Ok (txt "About " ++ tp_situation p).

(** Appends with a reflection and a synthesis in between *)
Definition demo_session : list call :=
  [ CallLog (nth 0 demo_calls demo_call);
    CallReflect default_config demo_llm (txt "2026-01-01T01:00:00+00:00");
    CallLog (nth 1 demo_calls demo_call);
    CallSynthesize default_config demo_synthesis_llm
      (txt "2026-01-01T03:00:00+00:00") (txt "2026-01-01T03:00:01+00:00");
    CallReflect default_config failing_adapter (txt "2026-01-01T04:00:00+00:00");
    CallLog demo_call ].

End Samples.
Import Samples.

(** * Proofs *)

Unset Implicit Arguments.

(** ** Exact arithmetic of the confidence score *)

Section ScoreArithmetic.

Local Open Scope Q_scope.

Lemma round_half_even_Z (x : Q) (k : Z) :
  x == inject_Z k -> round_half_even x = k.
Proof.
  intros Hx. unfold round_half_even.
  assert (Hf : Qfloor x = k).
  { rewrite (Qfloor_comp _ _ Hx). apply Qfloor_Z. }
  rewrite Hf.
  assert (Hc : (x - inject_Z k ?= 1 # 2) = Lt).
  { assert (H0 : x - inject_Z k == 0) by (rewrite Hx; ring).
    rewrite H0. reflexivity. }
  now rewrite Hc.
Qed.

Lemma py_round2_hundredths (x : Q) (k : Z) :
  x == k # 100 -> py_round2 x == k # 100.
Proof.
  intros Hx. unfold py_round2. rewrite Qred_correct.
  rewrite (round_half_even_Z (x * 100) k); [reflexivity|].
  rewrite Hx. unfold Qeq, Qmult, inject_Z. simpl. lia.
Qed.

Lemma clamp_hundredths (v : Z) :
  Qmax (3 # 10) (Qmin (95 # 100) (v # 100)) == Z.max 30 (Z.min 95 v) # 100.
Proof.
  destruct (Q.min_spec (95 # 100) (v # 100)) as [[H1 E1] | [H1 E1]];
    rewrite E1;
    destruct (Q.max_spec (3 # 10) (95 # 100)) as [[H2 E2] | [H2 E2]];
    destruct (Q.max_spec (3 # 10) (v # 100)) as [[H3 E3] | [H3 E3]];
    try rewrite E2; try rewrite E3;
    unfold Qlt, Qle, Qeq in *; cbn [Qnum Qden] in *; lia.

Qed.

Lemma raw_score_hundredths (h : nat) (b : bool) :
  (85 # 100) - inject_Z (Z.of_nat h) * (8 # 100) + (if b then 5 # 100 else 0)
  == (85 - 8 * Z.of_nat h + (if b then 5 else 0)) # 100.
Proof.
  destruct b; unfold Qeq, Qminus, Qplus, Qmult, Qopp, inject_Z;
    cbn [Qnum Qden]; rewrite ?Pos2Z.inj_mul; lia.
Qed.

(** The score in hundredths: rounding to two decimals changes nothing. *)
Lemma confidence_of_hundredths (h : nat) (b : bool) :
  confidence_of h b
  == Z.max 30 (Z.min 95 (85 - 8 * Z.of_nat h + (if b then 5 else 0))) # 100.
Proof.
  unfold confidence_of. apply py_round2_hundredths.
  rewrite raw_score_hundredths. apply clamp_hundredths.
Qed.

End ScoreArithmetic.

Section ScoreClaims.

Local Open Scope Q_scope.

Lemma spec_score_hundredths (h wc : nat) :
  spec_score h wc
  == Z.max 30 (Z.min 95 (85 - 8 * Z.of_nat h
                         + (if (Nat.ltb 50 wc && Nat.ltb wc 600)%bool then 5 else 0))) # 100.
Proof.
  unfold spec_score.
  set (b := (Nat.ltb 50 wc && Nat.ltb wc 600)%bool).
  set (v := (85 - 8 * Z.of_nat h + (if b then 5 else 0))%Z).
  assert (Hraw : (85 # 100) - (8 # 100) * inject_Z (Z.of_nat h)
                 + (if b then 5 # 100 else 0) == v # 100).
  { unfold v. rewrite <- (raw_score_hundredths h b). ring. }
  set (raw := (85 # 100) - (8 # 100) * inject_Z (Z.of_nat h)
              + (if b then 5 # 100 else 0)) in *.
  assert (Hfl : forall k : Z, Qfloor ((k # 100) * 100 + (1 # 2)) = k).
  { intros k. unfold Qplus, Qmult, inject_Z, Qfloor; cbn [Qnum Qden].
    rewrite ?Pos2Z.inj_mul.
    symmetry. apply Z.div_unique with (r := 100%Z); lia. }
  assert (Hfl' : forall (x : Q) (k : Z),
             x == k # 100 -> Qfloor (x * 100 + (1 # 2)) # 100 == k # 100).
  { intros x k Hx.
    assert (E : Qfloor (x * 100 + (1 # 2)) = k).
    { rewrite <- (Hfl k). apply Qfloor_comp. rewrite Hx. reflexivity. }
    rewrite E. reflexivity. }
  destruct (Qle_bool raw (30 # 100)) eqn:E1.
  - apply Hfl'. apply Qle_bool_iff in E1. rewrite Hraw in E1.
    unfold Qeq, Qle in *; cbn [Qnum Qden] in *; lia.
  - assert (L1 : ~ raw <= 30 # 100).
    { intros H. apply Qle_bool_iff in H. congruence. }
    rewrite Hraw in L1.
    destruct (Qle_bool (95 # 100) raw) eqn:E2.
    + apply Hfl'. apply Qle_bool_iff in E2. rewrite Hraw in E2.
      unfold Qeq, Qle in *; cbn [Qnum Qden] in *; lia.
    + assert (L2 : ~ 95 # 100 <= raw).
      { intros H. apply Qle_bool_iff in H. congruence. }
      rewrite Hraw in L2. apply Hfl'. rewrite Hraw.
      unfold Qeq, Qle in *; cbn [Qnum Qden] in *; lia.
Qed.

Lemma confidence_of_bounds (h : nat) (b : bool) :
  3 # 10 <= confidence_of h b /\ confidence_of h b <= 95 # 100.
Proof.
  rewrite confidence_of_hundredths.
  unfold Qle; cbn [Qnum Qden]; lia.
Qed.

Lemma confidence_of_antitone (h1 h2 : nat) (b : bool) :
  (h1 <= h2)%nat -> confidence_of h2 b <= confidence_of h1 b.
Proof.
  intros H. rewrite !confidence_of_hundredths.
  unfold Qle; cbn [Qnum Qden]; lia.
Qed.

(** C7.  With the word-count bonus held fixed, more hedge occurrences in
    the answer never raise the score: if the first answer has at most as
    many hedges as the second, the second scores at most as high. *)
Theorem score_confidence_hedge_monotone (q1 a1 q2 a2 : text) :
  length_ok a1 = length_ok a2 ->
  (hedge_count a1 <= hedge_count a2)%nat ->
  _score_confidence q2 a2 <= _score_confidence q1 a1.
Proof.
  intros Hlen Hh. unfold _score_confidence. rewrite Hlen.
  now apply confidence_of_antitone.
Qed.

Lemma score_confidence_hedge_monotone_witness :
  _score_confidence (txt "and you?") (txt "maybe, it depends")
  <= _score_confidence (txt "sure?") (txt "yes it might").
Proof.
  apply score_confidence_hedge_monotone.
  - reflexivity.
  - vm_compute. lia.
Defined.

End ScoreClaims.

(** ** Matching under concatenation *)

Section RegexConcat.

Variable A : Type.

Lemma orelse_some (x y : option A) :
  orelse x y <> None <-> x <> None \/ y <> None.
Proof.
  destruct x, y; simpl; split; intros H; try congruence; tauto.
Qed.

Lemma star_all_later (pw : bool) (s : text) (k : bool -> text -> option A) :
  k pw s <> None -> star_all pw s k <> None.
Proof.
  destruct s as [|c s]; simpl; intros H; [exact H|].
  apply orelse_some. now right.
Qed.

(** A match survives when text is appended after it, provided the
    appended text does not start with a word character (so that a word
    boundary at the end of the old text is still one). *)
Lemma rmatch_app (r : regex) :
  forall (pw : bool) (s t : text) (k k' : bool -> text -> option A),
    head_is_word t = false ->
    (forall pw' s', k pw' s' <> None -> k' pw' (s' ++ t) <> None) ->
    rmatch r pw s k <> None -> rmatch r pw (s ++ t) k' <> None.
Proof.
  induction r as [| c | | r1 IH1 r2 IH2 | r1 IH1 r2 IH2 | r1 IH1 | |];
    intros pw s t k k' Ht Hk; simpl.
  - apply Hk.
  - destruct s as [|c' s]; simpl; [congruence|].
    destruct (Ascii.eqb c c'); [apply Hk | congruence].
  - destruct s as [|c' s]; simpl; [congruence|].
    destruct (N.eqb (code c') 10); [congruence | apply Hk].
  - apply IH1; [exact Ht|]. intros pw' s'. now apply IH2.
  - rewrite !orelse_some. intros [H | H]; [left | right].
    + now apply (IH1 pw s t k k').
    + now apply (IH2 pw s t k k').
  - rewrite !orelse_some. intros [H | H]; [left | right].
    + now apply (IH1 pw s t k k').
    + now apply Hk.
  - revert pw. induction s as [|c s IHs]; intros pw; simpl.
    + intros H. apply star_all_later. now apply (Hk pw []).
    + rewrite !orelse_some. intros [H | H]; [left | right].
      * now apply IHs.
      * now apply (Hk pw (c :: s)).
  - assert (E : head_is_word (s ++ t) = head_is_word s).
    { destruct s; simpl; [exact Ht | reflexivity]. }
    rewrite E. destruct (xorb pw (head_is_word s)); [apply Hk | congruence].
Qed.

End RegexConcat.

Section SearchConcat.

Lemma search_from_here (r : regex) (pw : bool) (s : text) :
  match_here r pw s <> None -> search_from r pw s <> None.
Proof.
  intros H. destruct s; simpl; destruct (match_here r pw _); congruence.
Qed.

Lemma match_here_app (r : regex) (pw : bool) (s t : text) :
  head_is_word t = false ->
  match_here r pw s <> None -> match_here r pw (s ++ t) <> None.
Proof.
  intros Ht. unfold match_here.
  apply rmatch_app; [exact Ht | intros; congruence].
Qed.

Lemma search_from_app (r : regex) (s t : text) :
  head_is_word t = false ->
  forall pw, search_from r pw s <> None -> search_from r pw (s ++ t) <> None.
Proof.
  intros Ht. induction s as [|c s IH]; intros pw H.
  - apply search_from_here. apply (match_here_app r pw [] t Ht).
    simpl in H. destruct (match_here r pw []); congruence.
  - simpl in H. destruct (match_here r pw (c :: s)) eqn:E.
    + apply search_from_here. apply (match_here_app r pw (c :: s) t Ht).
      congruence.
    + simpl. destruct (match_here r pw (c :: s ++ t)); [congruence|].
      now apply IH.
Qed.

Lemma last_is_word_cons (pw : bool) (c : ascii) (u : text) :
  last_is_word pw (c :: u) = last_is_word (is_word c) u.
Proof.
  unfold last_is_word. simpl.
  destruct (rev u) as [|d l] eqn:E; simpl; reflexivity.
Qed.

Lemma search_from_prefix (r : regex) (u s : text) :
  forall pw, search_from r (last_is_word pw u) s <> None ->
             search_from r pw (u ++ s) <> None.
Proof.
  induction u as [|c u IH]; intros pw.
  - simpl. exact (fun H => H).
  - rewrite last_is_word_cons. intros H. simpl.
    destruct (match_here r pw (c :: u ++ s)); [congruence|].
    now apply IH.
Qed.

Lemma found_app (r : regex) (s t : text) :
  head_is_word t = false -> found r s = true -> found r (s ++ t) = true.
Proof.
  unfold found, search. intros Ht H.
  pose proof (search_from_app r s t Ht false) as P.
  destruct (search_from r false s); [|discriminate].
  destruct (search_from r false (s ++ t)); [reflexivity|].
  exfalso. apply P; congruence.
Qed.

Lemma found_prefix (r : regex) (u s : text) :
  last_is_word false u = false -> found r s = true -> found r (u ++ s) = true.
Proof.
  unfold found, search. intros Hu H.
  pose proof (search_from_prefix r u s false) as P. rewrite Hu in P.
  destruct (search_from r false s); [|discriminate].
  destruct (search_from r false (u ++ s)); [reflexivity|].
  exfalso. apply P; congruence.
Qed.

End SearchConcat.

(** ** Whole-word patterns of literal words *)

Section WholeWords.

Lemma after_prefix_app (w s rest : text) :
  after_prefix w s = Some rest <-> s = w ++ rest.
Proof.
  revert s. induction w as [|c w IH]; intros s; simpl.
  - split; congruence.
  - destruct s as [|c' s]; [split; discriminate|].
    destruct (Ascii.eqb_spec c c') as [E|E].
    + subst c'. rewrite IH. simpl.
      split; [intros ->; reflexivity | intros H; now injection H].
    + simpl. split; [discriminate | intros H; injection H; congruence].
Qed.

Lemma rmatch_lit_chars {A} (w : text) :
  forall (pw : bool) (s : text) (k : bool -> text -> option A),
    rmatch (lit_chars w) pw s k
    = match after_prefix w s with
      | Some rest => k (last_is_word pw w) rest
      | None => None
      end.
Proof.
  induction w as [|c w IH]; intros pw s k.
  - reflexivity.
  - destruct w as [|c2 w].
    + simpl. destruct s as [|c' s]; [reflexivity|].
      destruct (Ascii.eqb_spec c c') as [E|E]; [now subst c' | reflexivity].
    + change (lit_chars (c :: c2 :: w)) with (Seq (Chr c) (lit_chars (c2 :: w))).
      rewrite last_is_word_cons.
      cbn [rmatch after_prefix]. destruct s as [|c' s]; [reflexivity|].
      destruct (Ascii.eqb_spec c c') as [E|E]; [|reflexivity].
      subst c'. apply IH.
Qed.

Lemma rmatch_alt_of {A} (rs : list regex) (pw : bool) (s : text)
  (k : bool -> text -> option A) :
  rs <> [] ->
  (rmatch (alt_of rs) pw s k <> None <-> Exists (fun r => rmatch r pw s k <> None) rs).
Proof.
  induction rs as [|r rs IH]; intros Hne; [now contradiction Hne|].
  destruct rs as [|r2 rs].
  - simpl. split; [intros H; now constructor|].
    intros H. inversion H as [? ? H1|? ? H1]; subst; [exact H1 | inversion H1].
  - change (alt_of (r :: r2 :: rs)) with (Alt r (alt_of (r2 :: rs))).
    cbn [rmatch]. rewrite orelse_some, IH by discriminate.
    split.
    + intros [H | H]; [now apply Exists_cons_hd | now apply Exists_cons_tl].
    + intros H. inversion H; subst; [now left | now right].
Qed.

(** A whole-word pattern matches at the start of [s] exactly when one of
    its words is a prefix of [s] with a word boundary before and after. *)
Lemma match_here_whole_word (ws : list text) (pw : bool) (s : text) :
  ws <> [] ->
  (match_here (whole_word (map lit_chars ws)) pw s <> None <->
   xorb pw (head_is_word s) = true
   /\ Exists (fun w => exists rest,
                 s = w ++ rest
                 /\ xorb (last_is_word pw w) (head_is_word rest) = true) ws).
Proof.
  intros Hne. unfold match_here, whole_word. cbn [rmatch].
  destruct (xorb pw (head_is_word s)); [|split; [congruence | intros [H _]; discriminate]].
  rewrite rmatch_alt_of by (destruct ws; [now contradiction Hne | discriminate]).
  rewrite Exists_map. split.
  - intros H. split; [reflexivity|].
    eapply Exists_impl; [|exact H]. intros w Hw. cbv beta in Hw.
    rewrite rmatch_lit_chars in Hw.
    destruct (after_prefix w s) as [rest|] eqn:E; [|congruence].
    exists rest. split; [now apply after_prefix_app|].
    cbn [rmatch] in Hw.
    destruct (xorb (last_is_word pw w) (head_is_word rest)); congruence.
  - intros [_ H]. eapply Exists_impl; [|exact H].
    intros w [rest [E Hx]]. cbv beta. rewrite rmatch_lit_chars.
    apply after_prefix_app in E. rewrite E. cbn [rmatch]. rewrite Hx. congruence.
Qed.

Lemma search_from_iff (r : regex) (s : text) :
  forall pw,
    search_from r pw s <> None <->
    exists u x, s = u ++ x /\ match_here r (last_is_word pw u) x <> None.
Proof.
  induction s as [|c s IH]; intros pw.
  - cbn [search_from]. split.
    + intros H. exists [], []. split; [reflexivity|].
      change (last_is_word pw []) with pw.
      destruct (match_here r pw []); congruence.
    + intros [u [x [E H]]]. symmetry in E. apply app_eq_nil in E.
      destruct E; subst. change (last_is_word pw []) with pw in H.
      destruct (match_here r pw []); congruence.
  - cbn [search_from]. destruct (match_here r pw (c :: s)) eqn:E.
    + split; [|congruence]. intros _. exists [], (c :: s).
      split; [reflexivity|]. change (last_is_word pw []) with pw. congruence.
    + rewrite IH. split.
      * intros [u [x [Es H]]]. exists (c :: u), x. subst s.
        split; [reflexivity|]. now rewrite last_is_word_cons.
      * intros [u [x [Es H]]]. destruct u as [|c' u].
        -- change (last_is_word pw []) with pw in H. simpl in Es. subst x.
           congruence.
        -- simpl in Es. injection Es as <- ->. exists u, x.
           split; [reflexivity|]. now rewrite last_is_word_cons in H.
Qed.

(** Where a word without the separator lies in a joined text: before the
    separator or after it. *)
Lemma split_around (sp : ascii) (w : text) :
  ~ In sp w ->
  forall u rest s t,
    u ++ w ++ rest = s ++ sp :: t ->
    (exists r1, s = u ++ w ++ r1 /\ rest = r1 ++ sp :: t)
    \/ (exists u', u = s ++ sp :: u' /\ t = u' ++ w ++ rest).
Proof.
  intros Hw. induction u as [|c u IH]; intros rest s t E.
  - left. simpl in E. revert s E.
    induction w as [|d w IHw]; intros s E.
    + exists s. simpl in *. now split.
    + destruct s as [|d' s].
      * simpl in E. injection E as -> _. exfalso. apply Hw. now left.
      * simpl in E. injection E as <- E.
        destruct (IHw (fun H => Hw (or_intror H)) s E) as [r1 [E1 E2]].
        exists r1. simpl in *. split; [congruence | exact E2].
  - destruct s as [|c' s].
    + simpl in E. injection E as -> E. right. exists u. now split.
    + simpl in E. injection E as <- E.
      destruct (IH rest s t E) as [[r1 [E1 E2]] | [u' [E1 E2]]].
      * left. exists r1. simpl in *. split; [congruence | exact E2].
      * right. exists u'. simpl in *. split; [congruence | exact E2].
Qed.

Lemma head_is_word_app_space (x t : text) :
  head_is_word (x ++ " "%char :: t) = head_is_word x.
Proof. destruct x; reflexivity. Qed.

Lemma last_is_word_after_space (pw : bool) (s u : text) :
  last_is_word pw (s ++ " "%char :: u) = last_is_word false u.
Proof.
  unfold last_is_word. rewrite rev_app_distr. simpl.
  destruct (rev u) as [|d l]; [|reflexivity].
  simpl. reflexivity.
Qed.

Lemma spaceless_In (ws : list text) (w : text) :
  spaceless ws = true -> In w ws -> ~ In " "%char w.
Proof.
  unfold spaceless. rewrite forallb_forall. intros H Hw Hin.
  specialize (H w Hw). apply negb_true_iff in H.
  assert (E : existsb (Ascii.eqb " "%char) w = true).
  { apply existsb_exists. exists " "%char. split; [exact Hin | reflexivity]. }
  congruence.
Qed.

(** A whole-word pattern of words without a space that is found in
    [s + " " + t] is found in [s] or in [t]. *)
Lemma found_join_split (ws : list text) (s t : text) :
  ws <> [] -> spaceless ws = true ->
  found (whole_word (map lit_chars ws)) (s ++ " "%char :: t) = true ->
  found (whole_word (map lit_chars ws)) s = true
  \/ found (whole_word (map lit_chars ws)) t = true.
Proof.
  intros Hne Hsp. set (r := whole_word (map lit_chars ws)).
  assert (Hfound : forall x, found r x = true <-> search_from r false x <> None).
  { intros x. unfold found, search.
    destruct (search_from r false x); split; congruence. }
  rewrite !Hfound. rewrite !search_from_iff.
  intros [u [x [E H]]]. unfold r in H.
  apply (match_here_whole_word ws _ _ Hne) in H. destruct H as [Hb Hex].
  apply Exists_exists in Hex. destruct Hex as [w [Hw [rest [Ex Ha]]]].
  subst x. symmetry in E.
  destruct (split_around " "%char w (spaceless_In ws w Hsp Hw) u rest s t E)
    as [[r1 [E1 E2]] | [u' [E1 E2]]].
  - left. exists u, (w ++ r1). split; [exact E1|].
    apply (match_here_whole_word ws _ _ Hne). split.
    + subst rest. rewrite app_assoc, head_is_word_app_space in Hb. exact Hb.
    + apply Exists_exists. exists w. split; [exact Hw|].
      exists r1. split; [reflexivity|].
      subst rest. now rewrite head_is_word_app_space in Ha.
  - right. exists u', (w ++ rest). split; [exact E2|].
    subst u. rewrite last_is_word_after_space in Hb.
    apply (match_here_whole_word ws _ _ Hne). split; [exact Hb|].
    apply Exists_exists. exists w. split; [exact Hw|].
    exists rest. split; [reflexivity|].
    destruct w as [|d w].
    + simpl in *. now rewrite last_is_word_after_space in Ha.
    + rewrite !last_is_word_cons in *. exact Ha.
Qed.

End WholeWords.

(** ** Tag derivation *)

Section TagClaims.

Lemma In_auto_tag (tag : string) (s : text) :
  In tag (_auto_tag s) <->
  exists pat, In (tag, pat) _TAG_PATTERNS /\ found pat (lower s) = true.
Proof.
  unfold _auto_tag. rewrite in_map_iff. split.
  - intros [[tg pat] [E H]]. simpl in E. subst tg.
    apply filter_In in H. now exists pat.
  - intros [pat [H1 H2]]. exists (tag, pat). split; [reflexivity|].
    apply filter_In. now split.
Qed.

Lemma lower_app (s t : text) : lower (s ++ t) = lower s ++ lower t.
Proof. apply map_app. Qed.

Lemma last_is_word_space (u : text) :
  last_is_word false (u ++ txt " ") = false.
Proof.
  unfold last_is_word. rewrite rev_app_distr. reflexivity.
Qed.

Lemma auto_tag_left (tag : string) (s t : text) :
  In tag (_auto_tag s) -> In tag (_auto_tag (s ++ txt " " ++ t)).
Proof.
  rewrite !In_auto_tag. intros [pat [H1 H2]]. exists pat. split; [exact H1|].
  rewrite lower_app. apply found_app; [|exact H2].
  rewrite lower_app. reflexivity.
Qed.

Lemma auto_tag_right (tag : string) (s t : text) :
  In tag (_auto_tag t) -> In tag (_auto_tag (s ++ txt " " ++ t)).
Proof.
  rewrite !In_auto_tag. intros [pat [H1 H2]]. exists pat. split; [exact H1|].
  rewrite app_assoc, lower_app. apply found_prefix; [|exact H2].
  rewrite lower_app. apply last_is_word_space.
Qed.

(** C5 as stated fails: the label "goal" is derived from "trying" + " " +
    "to" (the pattern "trying to" matches across the join) and from "go" +
    "al", but not from the same texts joined the other way round. *)
Lemma auto_tag_order_counterexample :
  (In "goal"%string (_auto_tag (txt "trying" ++ txt " " ++ txt "to"))
   /\ ~ In "goal"%string (_auto_tag (txt "to" ++ txt " " ++ txt "trying")))
  /\ (In "goal"%string (_auto_tag (txt "go" ++ txt "al"))
      /\ ~ In "goal"%string (_auto_tag (txt "al" ++ txt "go"))).
Proof.
  repeat split.
  - vm_compute. now left.
  - vm_compute. tauto.
  - vm_compute. now left.
  - vm_compute. tauto.
Qed.

Lemma single_word_pattern (tag : string) (pat : regex) :
  In tag single_word_labels -> In (tag, pat) _TAG_PATTERNS ->
  exists ws, ws <> [] /\ spaceless ws = true /\ pat = whole_word (map lit_chars ws).
Proof.
  intros Hs Hin. unfold _TAG_PATTERNS in Hin.
  repeat (destruct Hin as [Hin | Hin];
          [injection Hin as <- <-;
           first [ exfalso; simpl in Hs; intuition discriminate
                 | match goal with
                   | |- exists ws, _ /\ _ /\ whole_word ?R = _ =>
                       exists (map spelled R);
                       split; [discriminate | split; reflexivity]
                   end ]
          |]).
  contradiction.
Qed.

Lemma auto_tag_join_split (tag : string) (s t : text) :
  In tag single_word_labels ->
  In tag (_auto_tag (s ++ txt " " ++ t)) ->
  In tag (_auto_tag s) \/ In tag (_auto_tag t).
Proof.
  intros Hs. rewrite !In_auto_tag. intros [pat [Hin Hf]].
  destruct (single_word_pattern tag pat Hs Hin) as [ws [Hne [Hsp E]]].
  subst pat. rewrite !lower_app in Hf.
  change (lower (txt " ") ++ lower t) with (" "%char :: lower t) in Hf.
  destruct (found_join_split ws (lower s) (lower t) Hne Hsp Hf) as [H | H].
  - left. eexists. split; [exact Hin | exact H].
  - right. eexists. split; [exact Hin | exact H].
Qed.

(** C5, amended.  Tag derivation is a function of the text alone.  Every
    label derived from the question alone or from the answer alone is
    derived from both joins, question + " " + answer and answer + " " +
    question.  For the labels whose patterns are single words
    (infrastructure, python, architecture, debugging, preference,
    spirituality, investing, learning) the converse holds too, so for these
    the order of the join does not matter. *)
Theorem auto_tag_join_order (question answer : text) (tag : string) :
  (In tag (_auto_tag question) \/ In tag (_auto_tag answer) ->
   In tag (_auto_tag (question ++ txt " " ++ answer))
   /\ In tag (_auto_tag (answer ++ txt " " ++ question)))
  /\ (In tag single_word_labels ->
      (In tag (_auto_tag (question ++ txt " " ++ answer)) <->
       In tag (_auto_tag question) \/ In tag (_auto_tag answer))
      /\ (In tag (_auto_tag (question ++ txt " " ++ answer)) <->
          In tag (_auto_tag (answer ++ txt " " ++ question)))).
Proof.
  assert (Hin : forall q a,
             In tag (_auto_tag q) \/ In tag (_auto_tag a) ->
             In tag (_auto_tag (q ++ txt " " ++ a))).
  { intros q a [H | H]; [now apply auto_tag_left | now apply auto_tag_right]. }
  split.
  - intros H. split; apply Hin; tauto.
  - intros Hs.
    assert (Hout : forall q a,
               In tag (_auto_tag (q ++ txt " " ++ a)) ->
               In tag (_auto_tag q) \/ In tag (_auto_tag a)).
    { intros q a. now apply auto_tag_join_split. }
    split; split.
    + apply Hout.
    + apply Hin.
    + intros H. apply Hin. destruct (Hout _ _ H); tauto.
    + intros H. apply Hin. destruct (Hout _ _ H); tauto.
Qed.

Lemma auto_tag_join_order_witness :
  (In "spirituality"%string
     (_auto_tag (txt "What is karma yoga?" ++ txt " " ++ txt "Selfless action."))
   /\ In "spirituality"%string
        (_auto_tag (txt "Selfless action." ++ txt " " ++ txt "What is karma yoga?")))
  /\ (In "python"%string
        (_auto_tag (txt "Is flask" ++ txt " " ++ txt "fast enough?")) <->
      In "python"%string
        (_auto_tag (txt "fast enough?" ++ txt " " ++ txt "Is flask"))).
Proof.
  destruct (auto_tag_join_order (txt "What is karma yoga?") (txt "Selfless action.")
              "spirituality"%string) as [H1 _].
  destruct (auto_tag_join_order (txt "Is flask") (txt "fast enough?")
              "python"%string) as [_ H2].
  split.
  - apply H1. left. vm_compute. now left.
  - assert (Hs : In "python"%string single_word_labels)
      by (vm_compute; right; left; reflexivity).
    destruct (H2 Hs) as [_ H3]. exact H3.
Defined.

End TagClaims.

(** ** Counting hedges and words *)

Section Counting.

Lemma split_ws_length (s : text) :
  forall cur,
    List.length (split_ws s cur)
    = ((match cur with [] => 0 | _ => 1 end)
       + word_starts (match cur with [] => true | _ => false end) s)%nat.
Proof.
  induction s as [|c s IH]; intros cur.
  - destruct cur; simpl; lia.
  - cbn [split_ws word_starts].
    destruct (is_space c); destruct cur; cbn [andb negb length];
      rewrite IH; reflexivity.
Qed.

(** [len(answer.split())] is the number of words of the answer. *)
Lemma split_length (answer : text) : List.length (split answer) = word_count answer.
Proof. unfold split, word_count. now rewrite split_ws_length. Qed.

Lemma hedge_re_words : hedge_re = whole_word (map lit_chars hedge_words).
Proof. reflexivity. Qed.

Lemma rmatch_alt_of_some {A} (rs : list regex) (pw : bool) (s : text)
  (k : bool -> text -> option A) (x : A) :
  rs <> [] ->
  rmatch (alt_of rs) pw s k = Some x ->
  Exists (fun r => rmatch r pw s k = Some x) rs.
Proof.
  induction rs as [|r rs IH]; intros Hne H; [now contradiction Hne|].
  destruct rs as [|r2 rs].
  - now constructor.
  - change (alt_of (r :: r2 :: rs)) with (Alt r (alt_of (r2 :: rs))) in H.
    cbn [rmatch] in H. destruct (rmatch r pw s k) as [y|] eqn:E; cbn [orelse] in H.
    + apply Exists_cons_hd. congruence.
    + apply Exists_cons_tl. apply IH; [discriminate | exact H].
Qed.

(** The text that a match of a whole-word pattern leaves is what follows
    one of its words. *)
Lemma match_here_whole_word_rest (ws : list text) (pw : bool) (s rest : text) :
  ws <> [] ->
  match_here (whole_word (map lit_chars ws)) pw s = Some rest ->
  exists w, In w ws /\ s = w ++ rest.
Proof.
  intros Hne. unfold match_here, whole_word. cbn [rmatch].
  destruct (xorb pw (head_is_word s)); [|discriminate].
  intros H. apply rmatch_alt_of_some in H;
    [|destruct ws; [now contradiction Hne | discriminate]].
  rewrite Exists_map in H. apply Exists_exists in H.
  destruct H as [w [Hin Hw]]. exists w. split; [exact Hin|].
  rewrite rmatch_lit_chars in Hw.
  destruct (after_prefix w s) as [rest'|] eqn:E; [|discriminate].
  cbn [rmatch] in Hw.
  destruct (xorb (last_is_word pw w) (head_is_word rest')); [|discriminate].
  injection Hw as <-. now apply after_prefix_app.
Qed.

(** Every hedging word begins and ends with a word character. *)
Lemma hedge_word_ends (w : text) :
  In w hedge_words ->
  (forall rest, head_is_word (w ++ rest) = true)
  /\ (forall pw, last_is_word pw w = true).
Proof.
  intros H. cbn [hedge_words map In] in H.
  repeat (destruct H as [<- | H]; [split; intros; reflexivity|]).
  contradiction.
Qed.

(** The pattern matches at a place exactly when a hedging word stands
    there. *)
Lemma hedge_stands_match (pw : bool) (s : text) :
  hedge_stands pw s = true <-> match_here hedge_re pw s <> None.
Proof.
  rewrite hedge_re_words, match_here_whole_word by discriminate.
  unfold hedge_stands. rewrite andb_true_iff, existsb_exists. split.
  - intros [Hb [w [Hin Hw]]].
    destruct (after_prefix w s) as [rest|] eqn:E; [|discriminate].
    apply after_prefix_app in E. subst s.
    destruct (hedge_word_ends w Hin) as [Hh Hl].
    rewrite Hh. split; [now destruct pw|].
    apply Exists_exists. exists w. split; [exact Hin|].
    exists rest. split; [reflexivity|]. rewrite Hl.
    now destruct (head_is_word rest).
  - intros [Hx Hex]. apply Exists_exists in Hex.
    destruct Hex as [w [Hin [rest [-> Hr]]]].
    destruct (hedge_word_ends w Hin) as [Hh Hl].
    rewrite Hh in Hx. rewrite Hl in Hr. split; [now destruct pw|].
    exists w. split; [exact Hin|].
    assert (E : after_prefix w (w ++ rest) = Some rest)
      by now apply after_prefix_app.
    rewrite E. now destruct (head_is_word rest).
Qed.

(** Passing over the characters of a match *)
Lemma findall_count_skip (r : regex) (u s : text) :
  forall pw,
    findall_count r pw (u ++ s) (List.length u)
    = findall_count r (last_is_word pw u) s 0.
Proof.
  induction u as [|c u IH]; intros pw.
  - reflexivity.
  - cbn [app length findall_count]. rewrite IH. now rewrite last_is_word_cons.
Qed.

(** No hedging word stands inside another: the places after the first
    character of a hedging word that stands in the text hold none. *)
Lemma hedge_places_inside (c : ascii) (w rest : text) (pw : bool) :
  In (c :: w) hedge_words ->
  hedge_places (is_word c) (w ++ rest) = hedge_places (last_is_word pw (c :: w)) rest.
Proof.
  intros H. cbn [hedge_words map In] in H.
  repeat (destruct H as [H | H];
          [injection H as <- <-; reflexivity|]).
  contradiction.
Qed.

Lemma findall_hedges (n : nat) :
  forall s pw,
    (List.length s <= n)%nat ->
    findall_count hedge_re pw s 0 = hedge_places pw s.
Proof.
  induction n as [|n IH]; intros s pw Hn.
  - destruct s; [|simpl in Hn; lia]. destruct pw; reflexivity.
  - destruct s as [|c s]; [destruct pw; reflexivity|].
    cbn [findall_count hedge_places].
    destruct (match_here hedge_re pw (c :: s)) as [rest|] eqn:E.
    + assert (Hs : hedge_stands pw (c :: s) = true)
        by (apply hedge_stands_match; congruence).
      rewrite Hs.
      rewrite hedge_re_words in E.
      apply match_here_whole_word_rest in E; [|discriminate].
      destruct E as [w [Hin Ew]].
      destruct w as [|c' w]; [exfalso; revert Hin; vm_compute; intuition discriminate|].
      cbn [app] in Ew. injection Ew as <- ->.
      rewrite length_app, Nat.add_sub, findall_count_skip.
      rewrite (hedge_places_inside c w rest pw Hin).
      rewrite last_is_word_cons. cbn [Nat.add]. f_equal. apply IH.
      cbn [length] in Hn. rewrite length_app in Hn. lia.
    + assert (Hs : hedge_stands pw (c :: s) = false).
      { destruct (hedge_stands pw (c :: s)) eqn:Hs; [|reflexivity].
        apply hedge_stands_match in Hs. congruence. }
      rewrite Hs. apply IH. cbn [length] in Hn. lia.
Qed.

(** [len(re.findall(...))] is the number of places in the lower-cased
    answer where a hedging word stands as a whole word. *)
Lemma hedge_count_occurrences (answer : text) :
  hedge_count answer = hedge_occurrences answer.
Proof.
  unfold hedge_count, hedge_occurrences.
  now apply (findall_hedges (List.length (lower answer))).
Qed.

(** C4.  For every question and answer: what the code counts as hedges is
    the number of places in the lower-cased answer where one of the nine
    hedging words stands as a whole word, and what it counts as words is
    the number of runs of characters other than white space; the score is
    the specified formula of these two counts (base 0.85, minus 0.08 per
    hedge occurrence, plus 0.05 when the word count is strictly between 50
    and 600, clamped to [0.30, 0.95], rounded to two decimals); it does
    not depend on the question and it always lies within [0.30, 0.95]. *)
Theorem score_confidence_formula (question answer : text) :
  hedge_count answer = hedge_occurrences answer
  /\ List.length (split answer) = word_count answer
  /\ _score_confidence question answer
     == spec_score (hedge_occurrences answer) (word_count answer)
  /\ 30 # 100 <= _score_confidence question answer
  /\ _score_confidence question answer <= 95 # 100
  /\ (forall question' : text,
        _score_confidence question' answer = _score_confidence question answer).
Proof.
  split; [apply hedge_count_occurrences|].
  split; [apply split_length|].
  rewrite <- hedge_count_occurrences, <- split_length.
  unfold _score_confidence, length_ok. repeat split.
  - rewrite spec_score_hundredths, confidence_of_hundredths. reflexivity.
  - rewrite confidence_of_hundredths. unfold Qle; cbn [Qnum Qden]; lia.
  - apply confidence_of_bounds.
Qed.

End Counting.

Lemma score_confidence_formula_witness :
  hedge_count (txt "Maybe. It MIGHT work, but I am not sure; I couldn't say.")
  = 3%nat
  /\ _score_confidence (txt "Will it scale?")
       (txt "Maybe. It MIGHT work, but I am not sure; I couldn't say.")
     == 61 # 100.
Proof.
  destruct (score_confidence_formula (txt "Will it scale?")
              (txt "Maybe. It MIGHT work, but I am not sure; I couldn't say."))
    as [H1 [_ [H3 _]]].
  split.
  - rewrite H1. vm_compute. reflexivity.
  - eapply Qeq_trans; [exact H3|]. vm_compute. reflexivity.
Defined.

(** ** [json.loads] after [json.dumps] *)

Section JsonInduction.

Variable P : json -> Prop.
Hypothesis HNull : P JNull.
Hypothesis HBool : forall b, P (JBool b).
Hypothesis HInt : forall z, P (JInt z).
Hypothesis HFloat : forall q, P (JFloat q).
Hypothesis HStr : forall s, P (JStr s).
Hypothesis HArr : forall items, Forall P items -> P (JArr items).
Hypothesis HObj :
  forall fields, Forall (fun kv => P (snd kv)) fields -> P (JObj fields).

Lemma json_induction : forall v, P v.
Proof.
  fix IH 1. intros [ | b | z | q | s | items | fields].
  - exact HNull.
  - apply HBool.
  - apply HInt.
  - apply HFloat.
  - apply HStr.
  - apply HArr. induction items as [|x xs IHxs]; constructor.
    + apply IH.
    + exact IHxs.
  - apply HObj. induction fields as [|[k x] xs IHxs]; constructor.
    + apply IH.
    + exact IHxs.
Qed.

End JsonInduction.

Section Lexing.

Lemma lex_run_app (s1 s2 : text) :
  forall m acc,
    lex_run (s1 ++ s2) m acc =
    match lex_run s1 m acc with
    | Some (m', acc') => lex_run s2 m' acc'
    | None => None
    end.
Proof.
  induction s1 as [|c s1 IH]; intros m acc; simpl.
  - reflexivity.
  - destruct (lex_step c m acc) as [[m' acc']|]; [apply IH | reflexivity].
Qed.

Lemma lex_escape_char (c : ascii) (a : text) (acc : list token) :
  lex_run (escape_char c) (LStr a) acc = Some (LStr (c :: a), acc).
Proof.
  destruct c as [b0 b1 b2 b3 b4 b5 b6 b7];
    destruct b0, b1, b2, b3, b4, b5, b6, b7; vm_compute; reflexivity.
Qed.

Lemma lex_escape (s : text) :
  forall a acc,
    lex_run (flat_map escape_char s) (LStr a) acc = Some (LStr (rev s ++ a), acc).
Proof.
  induction s as [|c s IH]; intros a acc; simpl.
  - reflexivity.
  - rewrite lex_run_app, lex_escape_char, IH.
    now rewrite <- app_assoc.
Qed.

Lemma lex_quote (s : text) (acc : list token) :
  lex_run (quote s) LIdle acc = Some (LIdle, TVal (JStr s) :: acc).
Proof.
  unfold quote.
  change ([chr 34] ++ flat_map escape_char s ++ [chr 34])
    with (chr 34 :: (flat_map escape_char s ++ [chr 34])).
  change (lex_run (chr 34 :: flat_map escape_char s ++ [chr 34]) LIdle acc)
    with (lex_run (flat_map escape_char s ++ [chr 34]) (LStr []) acc).
  rewrite lex_run_app, lex_escape. simpl. now rewrite app_nil_r, rev_involutive.
Qed.

Lemma lex_quote_lexes (s : text) : lexes (quote s) [TVal (JStr s)].
Proof.
  intros acc. exists LIdle, (TVal (JStr s) :: acc).
  split; [apply lex_quote|]. split; reflexivity.
Qed.

Lemma lex_num_chars (s : text) :
  forallb is_num_char s = true ->
  forall a acc, lex_run s (LNum a) acc = Some (LNum (rev s ++ a), acc).
Proof.
  induction s as [|c s IH]; intros H a acc; simpl in *.
  - reflexivity.
  - apply andb_prop in H. destruct H as [Hc Hs].
    rewrite Hc. rewrite IH by exact Hs. now rewrite <- app_assoc.
Qed.

Lemma number_eqb_eq (a b : json) : number_eqb a b = true -> a = b.
Proof.
  destruct a, b; simpl; try discriminate.
  - intros H. apply Z.eqb_eq in H. now subst.
  - destruct q as [n d], q0 as [n' d']. simpl. intros H.
    apply andb_prop in H. destruct H as [H1 H2].
    apply Z.eqb_eq in H1. apply Pos.eqb_eq in H2. now subst.
Qed.

Lemma is_delim_not_num (c : ascii) : is_delim c = true -> is_num_char c = false.
Proof.
  destruct c as [b0 b1 b2 b3 b4 b5 b6 b7];
    destruct b0, b1, b2, b3, b4, b5, b6, b7; vm_compute; congruence.
Qed.

Lemma is_delim_not_letter (c : ascii) : is_delim c = true -> is_letter c = false.
Proof.
  destruct c as [b0 b1 b2 b3 b4 b5 b6 b7];
    destruct b0, b1, b2, b3, b4, b5, b6, b7; vm_compute; congruence.
Qed.

Lemma lex_number_lexes (v : json) :
  number_reads_back v = true -> lexes (json_dumps v) [TVal v].
Proof.
  unfold number_reads_back. destruct (json_dumps v) as [|c s] eqn:E; [discriminate|].
  intros H. apply andb_prop in H. destruct H as [H Hn].
  apply andb_prop in H. destruct H as [Hc Hs].
  destruct (number_of (c :: s)) as [v'|] eqn:En; [|discriminate].
  apply number_eqb_eq in Hn. subst v'.
  assert (Hstart : forall acc, lex_start c acc = Some (LNum [c], acc)).
  { intros acc. revert Hc. clear.
    destruct c as [b0 b1 b2 b3 b4 b5 b6 b7];
      destruct b0, b1, b2, b3, b4, b5, b6, b7; vm_compute; congruence. }
  intros acc. exists (LNum (rev s ++ [c])), acc.
  assert (Er : rev (rev s ++ [c]) = c :: s).
  { rewrite rev_app_distr, rev_involutive. reflexivity. }
  split; [|split].
  - simpl. rewrite Hstart. now apply lex_num_chars.
  - simpl. rewrite Er, En. reflexivity.
  - intros d Hd. simpl. rewrite (is_delim_not_num _ Hd), Er, En. reflexivity.
Qed.

Lemma lex_word_lexes (v : json) :
  match v with JNull | JBool _ => True | _ => False end ->
  lexes (json_dumps v) [TVal v].
Proof.
  destruct v as [ | [|] | | | | | ]; intros H; try contradiction; intros acc.
  - exists (LWord (rev (txt "null"))), acc.
    split; [reflexivity | split; [reflexivity|]].
    intros c Hc. simpl. now rewrite (is_delim_not_letter _ Hc).
  - exists (LWord (rev (txt "true"))), acc.
    split; [reflexivity | split; [reflexivity|]].
    intros c Hc. simpl. now rewrite (is_delim_not_letter _ Hc).
  - exists (LWord (rev (txt "false"))), acc.
    split; [reflexivity | split; [reflexivity|]].
    intros c Hc. simpl. now rewrite (is_delim_not_letter _ Hc).
Qed.

Lemma lex_run_single (c : ascii) (m : lex_mode) (acc : list token) :
  lex_run [c] m acc = lex_step c m acc.
Proof.
  simpl. now destruct (lex_step c m acc) as [[m' acc']|].
Qed.

Lemma lexes_then (p : text) (ts : list token) (c : ascii) (rest : text)
  (acc : list token) :
  lexes p ts -> is_delim c = true ->
  lex_run (p ++ c :: rest) LIdle acc =
  match lex_start c (rev ts ++ acc) with
  | Some (m', acc') => lex_run rest m' acc'
  | None => None
  end.
Proof.
  intros Hp Hc. destruct (Hp acc) as [m [acc' [H1 [_ H3]]]].
  rewrite lex_run_app, H1. simpl. now rewrite (H3 c Hc).
Qed.

(** Pieces separated by a comma and a space, then a closing bracket *)
Lemma lex_joined (parts : list (text * list token)) (c : ascii) :
  Forall (fun pt => lexes (fst pt) (snd pt)) parts ->
  is_delim c = true ->
  forall acc,
    lex_run (join (txt ", ") (map fst parts) ++ [c]) LIdle acc
    = lex_start c (rev (sep_tokens (map snd parts)) ++ acc).
Proof.
  intros Hparts Hc. induction Hparts as [|[p ts] rest Hp Hrest IH]; intros acc.
  - simpl. apply (lex_run_single c LIdle acc).
  - destruct rest as [|[p2 ts2] rest'].
    + simpl. rewrite (lexes_then p ts c [] acc Hp Hc).
      now destruct (lex_start c (rev ts ++ acc)) as [[m' acc']|].
    + change (join (txt ", ") (map fst ((p, ts) :: (p2, ts2) :: rest')))
        with (p ++ txt ", " ++ join (txt ", ") (map fst ((p2, ts2) :: rest'))).
      change (sep_tokens (map snd ((p, ts) :: (p2, ts2) :: rest')))
        with (ts ++ TComma :: sep_tokens (map snd ((p2, ts2) :: rest'))).
      rewrite <- !app_assoc.
      change (txt ", " ++ join (txt ", ") (map fst ((p2, ts2) :: rest')) ++ [c])
        with (chr 44 :: chr 32
              :: (join (txt ", ") (map fst ((p2, ts2) :: rest')) ++ [c])).
      assert (Hcomma : is_delim (chr 44) = true) by reflexivity.
      rewrite (lexes_then p ts (chr 44) _ acc Hp Hcomma).
      change (lex_start (chr 44) (rev ts ++ acc))
        with (Some (LIdle, TComma :: rev ts ++ acc)).
      cbv iota beta.
      assert (Hsp : forall x a, lex_run (chr 32 :: x) LIdle a = lex_run x LIdle a)
        by reflexivity.
      rewrite Hsp, IH. f_equal.
      rewrite rev_app_distr. simpl. now rewrite <- !app_assoc.
Qed.

Lemma lexes_field (k : text) (p : text) (ts : list token) :
  lexes p ts -> lexes (quote k ++ txt ": " ++ p) (TVal (JStr k) :: TColon :: ts).
Proof.
  intros Hp acc.
  destruct (Hp (TColon :: TVal (JStr k) :: acc)) as [m [acc' [H1 [H2 H3]]]].
  assert (E : rev (TVal (JStr k) :: TColon :: ts) ++ acc
              = rev ts ++ TColon :: TVal (JStr k) :: acc).
  { simpl. now rewrite <- !app_assoc. }
  exists m, acc'. rewrite E. split; [|split; assumption].
  rewrite lex_run_app, lex_quote. exact H1.
Qed.

Lemma lexes_closed (open close : ascii) (t_open t_close : token)
  (parts : list (text * list token)) :
  (forall acc, lex_start open acc = Some (LIdle, t_open :: acc)) ->
  (forall acc, lex_start close acc = Some (LIdle, t_close :: acc)) ->
  is_delim close = true ->
  Forall (fun pt => lexes (fst pt) (snd pt)) parts ->
  lexes ([open] ++ join (txt ", ") (map fst parts) ++ [close])
        (t_open :: sep_tokens (map snd parts) ++ [t_close]).
Proof.
  intros Hopen Hclose Hd Hparts acc.
  exists LIdle, (t_close :: rev (sep_tokens (map snd parts)) ++ t_open :: acc).
  assert (E : rev (t_open :: sep_tokens (map snd parts) ++ [t_close]) ++ acc
              = t_close :: rev (sep_tokens (map snd parts)) ++ t_open :: acc).
  { simpl. rewrite rev_app_distr. simpl. now rewrite <- !app_assoc. }
  rewrite E. split; [|split; reflexivity].
  simpl. rewrite Hopen. rewrite (lex_joined parts close Hparts Hd). apply Hclose.
Qed.

Lemma lex_dumps (v : json) : wf_json v = true -> lexes (json_dumps v) (tokens_of v).
Proof.
  induction v as [ | b | z | q | s | items IH | fields IH ] using json_induction;
    intros Hwf.
  - now apply lex_word_lexes.
  - now apply lex_word_lexes.
  - now apply lex_number_lexes.
  - now apply lex_number_lexes.
  - apply lex_quote_lexes.
  - simpl in Hwf.
    pose (parts := map (fun x => (json_dumps x, tokens_of x)) items).
    assert (E1 : map json_dumps items = map fst parts).
    { unfold parts. rewrite map_map. reflexivity. }
    assert (E2 : map tokens_of items = map snd parts).
    { unfold parts. rewrite map_map. reflexivity. }
    change (json_dumps (JArr items))
      with ([chr 91] ++ join (txt ", ") (map json_dumps items) ++ [chr 93]).
    change (tokens_of (JArr items))
      with (TLBrack :: sep_tokens (map tokens_of items) ++ [TRBrack]).
    rewrite E1, E2.
    apply (lexes_closed (chr 91) (chr 93) TLBrack TRBrack parts);
      try reflexivity.
    unfold parts. apply Forall_map. simpl.
    rewrite forallb_forall in Hwf. rewrite Forall_forall in *.
    intros x Hx. apply IH; [exact Hx | now apply Hwf].
  - simpl in Hwf. apply andb_prop in Hwf. destruct Hwf as [Hwf _].
    pose (parts := map (fun kv => (quote (fst kv) ++ txt ": " ++ json_dumps (snd kv),
                                   TVal (JStr (fst kv)) :: TColon :: tokens_of (snd kv)))
                       fields).
    assert (E1 : map (fun kv => quote (fst kv) ++ txt ": " ++ json_dumps (snd kv)) fields
                 = map fst parts).
    { unfold parts. rewrite map_map. reflexivity. }
    assert (E2 : map (fun kv => TVal (JStr (fst kv)) :: TColon :: tokens_of (snd kv)) fields
                 = map snd parts).
    { unfold parts. rewrite map_map. reflexivity. }
    change (json_dumps (JObj fields))
      with ([chr 123]
            ++ join (txt ", ")
                 (map (fun kv => quote (fst kv) ++ txt ": " ++ json_dumps (snd kv))
                      fields)
            ++ [chr 125]).
    change (tokens_of (JObj fields))
      with (TLBrace
            :: sep_tokens
                 (map (fun kv => TVal (JStr (fst kv)) :: TColon :: tokens_of (snd kv))
                      fields)
            ++ [TRBrace]).
    rewrite E1, E2.
    apply (lexes_closed (chr 123) (chr 125) TLBrace TRBrace parts);
      try reflexivity.
    unfold parts. apply Forall_map. simpl.
    rewrite forallb_forall in Hwf. rewrite Forall_forall in *.
    intros kv Hkv. apply lexes_field. apply IH; [exact Hkv | now apply Hwf].
Qed.

Lemma lex_json_dumps (v : json) :
  wf_json v = true -> lex (json_dumps v) = Some (tokens_of v).
Proof.
  intros Hwf. destruct (lex_dumps v Hwf []) as [m [acc' [H1 [H2 _]]]].
  unfold lex. rewrite H1, H2. now rewrite app_nil_r, rev_involutive.
Qed.

End Lexing.

Section Parsing.

Lemma parse_run_app (ts1 ts2 : list token) :
  forall e st,
    parse_run (ts1 ++ ts2) e st =
    match parse_run ts1 e st with
    | Some (e', st') => parse_run ts2 e' st'
    | None => None
    end.
Proof.
  induction ts1 as [|t ts1 IH]; intros e st; simpl.
  - reflexivity.
  - destruct (parse_step t e st) as [[e' st']|]; [apply IH | reflexivity].
Qed.

Lemma text_eqb_true (a b : text) : text_eqb a b = true <-> a = b.
Proof.
  unfold text_eqb. destruct (list_eq_dec ascii_dec a b); split; congruence.
Qed.

Lemma text_eqb_refl (a : text) : text_eqb a a = true.
Proof. now apply text_eqb_true. Qed.

Lemma text_eqb_sym (a b : text) : text_eqb a b = text_eqb b a.
Proof.
  destruct (text_eqb a b) eqn:E1, (text_eqb b a) eqn:E2; try reflexivity.
  - apply text_eqb_true in E1. subst. now rewrite text_eqb_refl in E2.
  - apply text_eqb_true in E2. subst. now rewrite text_eqb_refl in E1.
Qed.

Lemma dict_set_fresh (done more : list (text * json)) (k : text) (v : json) :
  distinct_keys (done ++ (k, v) :: more) = true ->
  dict_set done k v = done ++ [(k, v)].
Proof.
  induction done as [|[k0 v0] done IH]; simpl; intros H.
  - reflexivity.
  - apply andb_prop in H. destruct H as [H1 H2].
    rewrite existsb_app in H1. simpl in H1.
    destruct (text_eqb k k0) eqn:E.
    + rewrite orb_true_r in H1. discriminate.
    + rewrite text_eqb_sym, E. now rewrite IH.
Qed.

Lemma reads_back_atom (v : json) :
  tokens_of v = [TVal v] -> reads_back v.
Proof.
  intros E rest e st [He | He]; subst e; rewrite E; simpl.
  - reflexivity.
  - destruct st as [|[items | fields | fields k] st]; try reflexivity;
      try (destruct items; reflexivity).
Qed.

Lemma parse_items (items : list json) :
  Forall reads_back items ->
  forall done rest e st,
    (items = [] -> e = EValueOrEnd /\ done = []) ->
    e = EValue \/ e = EValueOrEnd ->
    parse_run (sep_tokens (map tokens_of items) ++ TRBrack :: rest) e
      (FArr done :: st)
    = parse_run rest (EAfter (JArr (rev done ++ items))) st.
Proof.
  intros H. induction H as [|x xs Hx Hxs IH]; intros done rest e st Hnil He.
  - destruct (Hnil eq_refl) as [E1 E2]. subst. reflexivity.
  - destruct xs as [|y ys].
    + change (sep_tokens (map tokens_of [x])) with (tokens_of x).
      rewrite (Hx _ _ _ He). reflexivity.
    + change (sep_tokens (map tokens_of (x :: y :: ys)))
        with (tokens_of x ++ TComma :: sep_tokens (map tokens_of (y :: ys))).
      rewrite <- app_assoc. rewrite (Hx _ _ _ He).
      change (parse_run ((TComma :: sep_tokens (map tokens_of (y :: ys)))
                         ++ TRBrack :: rest) (EAfter x) (FArr done :: st))
        with (parse_run (sep_tokens (map tokens_of (y :: ys)) ++ TRBrack :: rest)
                EValue (FArr (x :: done) :: st)).
      rewrite IH; [|discriminate | now left].
      simpl rev. now rewrite <- app_assoc.
Qed.

Lemma parse_fields (fields : list (text * json)) :
  Forall (fun kv => reads_back (snd kv)) fields ->
  forall done rest e st,
    (fields = [] -> e = EKeyOrEnd /\ done = []) ->
    e = EKey \/ e = EKeyOrEnd ->
    distinct_keys (done ++ fields) = true ->
    parse_run
      (sep_tokens
         (map (fun kv => TVal (JStr (fst kv)) :: TColon :: tokens_of (snd kv)) fields)
       ++ TRBrace :: rest) e (FObjK done :: st)
    = parse_run rest (EAfter (JObj (done ++ fields))) st.
Proof.
  intros H. induction H as [|[k x] xs Hx Hxs IH]; intros done rest e st Hnil He Hd.
  - destruct (Hnil eq_refl) as [E1 E2]. subst. reflexivity.
  - assert (Hkey : forall ts,
               parse_run (TVal (JStr k) :: TColon :: ts) e (FObjK done :: st)
               = parse_run ts EValue (FObjV done k :: st)).
    { intros ts. destruct He; subst e; simpl; try reflexivity. }
    pose proof (dict_set_fresh done xs k x Hd) as Hset.
    simpl in Hx. destruct xs as [|[k2 y] ys].
    + change (sep_tokens
                (map (fun kv => TVal (JStr (fst kv)) :: TColon :: tokens_of (snd kv))
                     [(k, x)]))
        with (TVal (JStr k) :: TColon :: tokens_of x).
      change ((TVal (JStr k) :: TColon :: tokens_of x) ++ TRBrace :: rest)
        with (TVal (JStr k) :: TColon :: (tokens_of x ++ TRBrace :: rest)).
      rewrite Hkey. rewrite (Hx _ _ _ (or_introl eq_refl)).
      change (parse_run (TRBrace :: rest) (EAfter x) (FObjV done k :: st))
        with (parse_run rest (EAfter (JObj (dict_set done k x))) st).
      now rewrite Hset.
    + change (sep_tokens
                (map (fun kv => TVal (JStr (fst kv)) :: TColon :: tokens_of (snd kv))
                     ((k, x) :: (k2, y) :: ys)))
        with ((TVal (JStr k) :: TColon :: tokens_of x)
              ++ TComma
              :: sep_tokens
                   (map (fun kv => TVal (JStr (fst kv)) :: TColon :: tokens_of (snd kv))
                        ((k2, y) :: ys))).
      rewrite <- app_assoc.
      change ((TVal (JStr k) :: TColon :: tokens_of x) ++ ?r)
        with (TVal (JStr k) :: TColon :: (tokens_of x ++ r)).
      rewrite Hkey. rewrite (Hx _ _ _ (or_introl eq_refl)).
      change (parse_run ((TComma :: ?r) ++ TRBrace :: rest) (EAfter x)
                (FObjV done k :: st))
        with (parse_run (r ++ TRBrace :: rest) EKey
                (FObjK (dict_set done k x) :: st)).
      rewrite Hset. rewrite IH; [|discriminate | now left|].
      * now rewrite <- app_assoc.
      * now rewrite <- app_assoc.
Qed.

Lemma parse_tokens (v : json) : wf_json v = true -> reads_back v.
Proof.
  induction v as [ | b | z | q | s | items IH | fields IH ] using json_induction;
    intros Hwf; try (now apply reads_back_atom).
  - intros rest e st He.
    change (tokens_of (JArr items) ++ rest)
      with (TLBrack :: (sep_tokens (map tokens_of items) ++ [TRBrack]) ++ rest).
    rewrite <- app_assoc.
    assert (Hopen : forall ts, parse_run (TLBrack :: ts) e st
                               = parse_run ts EValueOrEnd (FArr [] :: st)).
    { intros ts. destruct He; subst e; simpl; try reflexivity;
      destruct st as [|[i | f | f k] st]; try reflexivity;
        try (destruct i; reflexivity); try (destruct f; reflexivity). }
    rewrite Hopen. simpl app at 2.
    rewrite parse_items; [reflexivity | | tauto | now right].
    simpl in Hwf. rewrite forallb_forall in Hwf. rewrite Forall_forall in *.
    intros x Hx. apply IH; [exact Hx | now apply Hwf].
  - intros rest e st He.
    change (tokens_of (JObj fields) ++ rest)
      with (TLBrace
            :: (sep_tokens
                  (map (fun kv => TVal (JStr (fst kv)) :: TColon :: tokens_of (snd kv))
                       fields)
                ++ [TRBrace]) ++ rest).
    rewrite <- app_assoc.
    assert (Hopen : forall ts, parse_run (TLBrace :: ts) e st
                               = parse_run ts EKeyOrEnd (FObjK [] :: st)).
    { intros ts. destruct He; subst e; simpl; try reflexivity;
      destruct st as [|[i | f | f k] st]; try reflexivity;
        try (destruct i; reflexivity); try (destruct f; reflexivity). }
    rewrite Hopen. simpl app at 2.
    simpl in Hwf. apply andb_prop in Hwf. destruct Hwf as [Hwf Hd].
    rewrite parse_fields; [reflexivity | | tauto | now right | exact Hd].
    rewrite forallb_forall in Hwf. rewrite Forall_forall in *.
    intros kv Hkv. apply IH; [exact Hkv | now apply Hwf].
Qed.

(** Reading back what was written *)
Theorem json_loads_dumps (v : json) :
  wf_json v = true -> json_loads (json_dumps v) = Ok v.
Proof.
  intros Hwf. unfold json_loads. rewrite (lex_json_dumps v Hwf).
  unfold parse.
  pose proof (parse_tokens v Hwf [] EValue [] (or_introl eq_refl)) as H.
  rewrite app_nil_r in H. rewrite H. reflexivity.
Qed.

End Parsing.

(** ** What [json.dumps] writes is one line of printable ASCII *)

Section Printable.

Lemma escape_char_printable (c : ascii) : forallb printable (escape_char c) = true.
Proof.
  destruct c as [b0 b1 b2 b3 b4 b5 b6 b7];
    destruct b0, b1, b2, b3, b4, b5, b6, b7; vm_compute; reflexivity.
Qed.

Lemma forallb_flat_map {A B} (p : B -> bool) (f : A -> list B) (l : list A) :
  (forall x, forallb p (f x) = true) -> forallb p (flat_map f l) = true.
Proof.
  intros H. induction l as [|x l IH]; simpl.
  - reflexivity.
  - now rewrite forallb_app, H, IH.
Qed.

Lemma quote_printable (s : text) : forallb printable (quote s) = true.
Proof.
  unfold quote. rewrite !forallb_app.
  rewrite (forallb_flat_map printable escape_char s escape_char_printable).
  reflexivity.
Qed.

Lemma num_char_printable (c : ascii) : is_num_char c = true -> printable c = true.
Proof.
  destruct c as [b0 b1 b2 b3 b4 b5 b6 b7];
    destruct b0, b1, b2, b3, b4, b5, b6, b7; vm_compute; congruence.
Qed.

Lemma number_printable (v : json) :
  number_reads_back v = true -> forallb printable (json_dumps v) = true.
Proof.
  unfold number_reads_back. destruct (json_dumps v) as [|c s]; [discriminate|].
  intros H. apply andb_prop in H. destruct H as [H _].
  apply andb_prop in H. destruct H as [Hc Hs].
  simpl. apply andb_true_intro. split.
  - revert Hc. clear.
    destruct c as [b0 b1 b2 b3 b4 b5 b6 b7];
      destruct b0, b1, b2, b3, b4, b5, b6, b7; vm_compute; congruence.
  - rewrite forallb_forall in *. intros x Hx. apply num_char_printable. now apply Hs.
Qed.

Lemma join_printable (parts : list text) :
  Forall (fun p => forallb printable p = true) parts ->
  forallb printable (join (txt ", ") parts) = true.
Proof.
  intros H. induction H as [|p rest Hp Hrest IH].
  - reflexivity.
  - destruct rest as [|p2 rest'].
    + exact Hp.
    + change (join (txt ", ") (p :: p2 :: rest'))
        with (p ++ txt ", " ++ join (txt ", ") (p2 :: rest')).
      rewrite !forallb_app, Hp, IH. reflexivity.
Qed.

Lemma dumps_printable (v : json) :
  wf_json v = true -> forallb printable (json_dumps v) = true.
Proof.
  induction v as [ | b | z | q | s | items IH | fields IH ] using json_induction;
    intros Hwf.
  - reflexivity.
  - destruct b; reflexivity.
  - now apply number_printable.
  - now apply number_printable.
  - apply quote_printable.
  - change (json_dumps (JArr items))
      with ([chr 91] ++ join (txt ", ") (map json_dumps items) ++ [chr 93]).
    rewrite !forallb_app. rewrite join_printable; [reflexivity|].
    apply Forall_map. simpl in Hwf.
    rewrite forallb_forall in Hwf. rewrite Forall_forall in *.
    intros x Hx. apply IH; [exact Hx | now apply Hwf].
  - change (json_dumps (JObj fields))
      with ([chr 123]
            ++ join (txt ", ")
                 (map (fun kv => quote (fst kv) ++ txt ": " ++ json_dumps (snd kv))
                      fields)
            ++ [chr 125]).
    rewrite !forallb_app. rewrite join_printable; [reflexivity|].
    apply Forall_map. simpl in Hwf.
    apply andb_prop in Hwf. destruct Hwf as [Hwf _].
    rewrite forallb_forall in Hwf. rewrite Forall_forall in *.
    intros kv Hkv. rewrite !forallb_app, quote_printable.
    rewrite IH; [reflexivity | exact Hkv | now apply Hwf].
Qed.

End Printable.

(** ** The lines of a log that [log_interaction] wrote *)

Section LogLines.

Variable brk : ascii -> bool.
Hypothesis brk_printable : forall c, printable c = true -> brk c = false.
Hypothesis brk_newline : brk (ascii_of_N 10) = true.

Lemma lines_by_line (l : text) :
  forallb printable l = true ->
  forall rest cur,
    lines_by brk (l ++ newline ++ rest) cur = (rev cur ++ l) :: lines_by brk rest [].
Proof.
  induction l as [|c l IH]; intros Hl rest cur.
  - change ([] ++ newline ++ rest) with (ascii_of_N 10 :: rest).
    cbn [lines_by]. rewrite brk_newline, app_nil_r.
    destruct rest as [|c' rest']; reflexivity.
  - simpl in Hl. apply andb_prop in Hl. destruct Hl as [Hc Hl].
    change ((c :: l) ++ newline ++ rest) with (c :: (l ++ newline ++ rest)).
    cbn [lines_by]. rewrite (brk_printable c Hc). rewrite (IH Hl).
    simpl rev. now rewrite <- app_assoc.
Qed.

Lemma lines_by_last (l : text) :
  forallb printable l = true ->
  forall cur, rev cur ++ l <> [] -> lines_by brk l cur = [rev cur ++ l].
Proof.
  induction l as [|c l IH]; intros Hl cur Hne.
  - rewrite app_nil_r in *. simpl.
    destruct cur as [|x cur]; [now contradiction Hne | reflexivity].
  - simpl in Hl. apply andb_prop in Hl. destruct Hl as [Hc Hl].
    simpl. rewrite (brk_printable c Hc). rewrite (IH Hl).
    + simpl. now rewrite <- app_assoc.
    + simpl. rewrite <- app_assoc. simpl. now destruct (rev cur).
Qed.

Lemma lines_by_log_text (es : list json) (tail : text) :
  Forall (fun e => forallb printable (json_dumps e) = true) es ->
  lines_by brk (log_text es ++ tail) [] = map json_dumps es ++ lines_by brk tail [].
Proof.
  intros H. induction H as [|e es He Hes IH].
  - reflexivity.
  - unfold log_text in *. simpl. rewrite <- !app_assoc.
    rewrite (lines_by_line _ He). simpl. now rewrite IH.
Qed.

End LogLines.

Section LogStrip.

Lemma printable_not_linebreak (c : ascii) : printable c = true -> is_linebreak c = false.
Proof.
  destruct c as [b0 b1 b2 b3 b4 b5 b6 b7];
    destruct b0, b1, b2, b3, b4, b5, b6, b7; vm_compute; congruence.
Qed.

Lemma printable_not_newline (c : ascii) :
  printable c = true -> (N.eqb (code c) 10 || N.eqb (code c) 13)%bool = false.
Proof.
  destruct c as [b0 b1 b2 b3 b4 b5 b6 b7];
    destruct b0, b1, b2, b3, b4, b5, b6, b7; vm_compute; congruence.
Qed.

Lemma lstrip_head (c : ascii) (s : text) :
  is_space c = false -> lstrip (c :: s) = c :: s.
Proof. intros H. simpl. now rewrite H. Qed.

Lemma rstrip_last (s : text) (c : ascii) :
  is_space c = false -> rstrip (s ++ [c]) = s ++ [c].
Proof.
  intros H. unfold rstrip. rewrite rev_app_distr.
  change (rev [c] ++ rev s) with (c :: rev s).
  rewrite (lstrip_head c (rev s) H). simpl. now rewrite rev_involutive.
Qed.

Lemma rstrip_last_newline (s : text) (c : ascii) :
  is_space c = false -> rstrip ((s ++ [c]) ++ newline) = s ++ [c].
Proof.
  intros H. unfold rstrip, newline. rewrite rev_app_distr.
  change (rev [ascii_of_N 10] ++ rev (s ++ [c]))
    with (ascii_of_N 10 :: rev (s ++ [c])).
  change (lstrip (ascii_of_N 10 :: rev (s ++ [c]))) with (lstrip (rev (s ++ [c]))).
  rewrite rev_app_distr.
  change (rev [c] ++ rev s) with (c :: rev s).
  rewrite (lstrip_head c (rev s) H). simpl. now rewrite rev_involutive.
Qed.

Lemma strip_object_line (l : text) : object_line l -> strip l = l.
Proof.
  intros [[body E] _]. subst l. unfold strip.
  rewrite lstrip_head by reflexivity.
  change (chr 123 :: body ++ [chr 125]) with ((chr 123 :: body) ++ [chr 125]).
  now apply rstrip_last.
Qed.

Lemma object_line_not_blank (l : text) : object_line l -> is_blank l = false.
Proof.
  intros H. unfold is_blank. rewrite (strip_object_line l H).
  destruct H as [[body E] _]. now subst l.
Qed.

Lemma log_text_app (es1 es2 : list json) :
  log_text (es1 ++ es2) = log_text es1 ++ log_text es2.
Proof. unfold log_text. apply flat_map_app. Qed.

Lemma log_text_snoc (es : list json) (e : json) :
  log_text (es ++ [e]) = log_text es ++ json_dumps e ++ newline.
Proof.
  rewrite log_text_app. unfold log_text at 2. simpl. now rewrite app_nil_r.
Qed.

(** The stripped text of a log that is not empty: the last newline goes. *)
Lemma strip_log_text (es : list json) (e : json) :
  Forall (fun x => object_line (json_dumps x)) (es ++ [e]) ->
  strip (log_text (es ++ [e])) = log_text es ++ json_dumps e.
Proof.
  intros H. rewrite log_text_snoc.
  assert (Hhead : exists r, log_text es ++ json_dumps e = chr 123 :: r).
  { destruct es as [|e1 es'].
    - apply Forall_inv in H. destruct H as [[body E] _].
      exists (body ++ [chr 125]). simpl. exact E.
    - apply Forall_inv in H. destruct H as [[body E] _].
      unfold log_text. simpl. rewrite E. simpl. eexists. reflexivity. }
  assert (Hlast : exists r, log_text es ++ json_dumps e = r ++ [chr 125]).
  { apply Forall_app in H. destruct H as [_ H].
    apply Forall_inv in H. destruct H as [[body E] _].
    exists (log_text es ++ chr 123 :: body). rewrite E.
    rewrite <- app_assoc. reflexivity. }
  destruct Hhead as [r1 E1]. destruct Hlast as [r2 E2].
  unfold strip. rewrite app_assoc. rewrite E1.
  change ((chr 123 :: r1) ++ newline) with (chr 123 :: (r1 ++ newline)).
  rewrite lstrip_head by reflexivity.
  change (chr 123 :: (r1 ++ newline)) with ((chr 123 :: r1) ++ newline).
  rewrite <- E1, E2.
  now apply rstrip_last_newline.
Qed.

End LogStrip.

(** ** The episodic log *)

Section LogEntries.

Lemma entry_object_line (e : json) : entry_ok e -> object_line (json_dumps e).
Proof.
  intros [Hwf [fields E]]. split.
  - subst e. eexists. reflexivity.
  - now apply dumps_printable.
Qed.

Lemma entries_object_lines (es : list json) :
  Forall entry_ok es -> Forall (fun x => object_line (json_dumps x)) es.
Proof.
  intros H. eapply Forall_impl; [|exact H]. apply entry_object_line.
Qed.

Lemma entries_printable (es : list json) :
  Forall entry_ok es -> Forall (fun e => forallb printable (json_dumps e) = true) es.
Proof.
  intros H. eapply Forall_impl; [|exact H].
  intros e He. now destruct (entry_object_line e He).
Qed.

Lemma filter_not_blank (es : list json) :
  Forall entry_ok es ->
  filter (fun l => negb (is_blank l)) (map json_dumps es) = map json_dumps es.
Proof.
  intros H. induction H as [|e es He Hes IH]; simpl.
  - reflexivity.
  - rewrite (object_line_not_blank _ (entry_object_line e He)). simpl.
    now rewrite IH.
Qed.

Lemma loads_lines (es : list json) :
  Forall entry_ok es -> rmap json_loads (map json_dumps es) = Ok es.
Proof.
  intros H. induction H as [|e es [Hwf _] Hes IH]; simpl.
  - reflexivity.
  - rewrite (json_loads_dumps e Hwf). simpl. now rewrite IH.
Qed.

Lemma splitlines_log_text (es : list json) :
  Forall entry_ok es ->
  splitlines (strip (log_text es)) = map json_dumps es.
Proof.
  intros H. destruct es as [|e0 es0] using rev_ind; [reflexivity|].
  clear IHes0.
  rewrite (strip_log_text es0 e0 (entries_object_lines _ H)).
  unfold splitlines.
  rewrite (lines_by_log_text is_linebreak printable_not_linebreak eq_refl).
  - apply Forall_app in H. destruct H as [H1 H2]. apply Forall_inv in H2.
    destruct (entry_object_line e0 H2) as [[body E] Hp].
    rewrite (lines_by_last is_linebreak printable_not_linebreak _ Hp).
    + now rewrite map_app.
    + rewrite E. discriminate.
  - apply Forall_app in H. destruct H as [H1 _]. now apply entries_printable.
Qed.

Lemma file_lines_log_text (es : list json) :
  Forall entry_ok es -> file_lines (log_text es) = map json_dumps es.
Proof.
  intros H. unfold file_lines.
  rewrite <- (app_nil_r (log_text es)).
  rewrite (lines_by_log_text _ printable_not_newline eq_refl).
  - simpl. now rewrite app_nil_r.
  - now apply entries_printable.
Qed.

Lemma load_log_text (es : list json) (n : option Z) (s : state) :
  Forall entry_ok es -> log_file s = Some (log_text es) ->
  load_log n s = (Ok (limit n es), s).
Proof.
  intros H Hf. unfold load_log, bind, get_state, lift, ret. rewrite Hf.
  rewrite (splitlines_log_text es H), (filter_not_blank es H), (loads_lines es H).
  unfold limit. destruct n as [n'|]; [|reflexivity].
  now destruct (Z.eqb n' 0).
Qed.

Lemma log_count_text (es : list json) (s : state) :
  Forall entry_ok es -> log_file s = Some (log_text es) ->
  log_count s = (Ok (List.length es), s).
Proof.
  intros H Hf. unfold log_count, bind, get_state, ret. rewrite Hf.
  rewrite (file_lines_log_text es H), (filter_not_blank es H).
  now rewrite length_map.
Qed.

Lemma slice_from_last {A} (n : Z) (l : list A) :
  (0 < n)%Z -> slice_from (- n) l = lastn (Z.to_nat n) l.
Proof.
  intros Hn. unfold slice_from, lastn.
  destruct (Z.ltb_spec (- n) 0) as [_|Hc]; [|lia].
  f_equal. lia.
Qed.

End LogEntries.

Section LogClaims.

Variable list_of_set : list text -> list text.

Lemma confidence_of_canonical (h : nat) (b : bool) :
  exists k : Z, (30 <= k <= 95)%Z /\ confidence_of h b = Qred (k # 100).
Proof.
  exists (Z.max 30 (Z.min 95 (85 - 8 * Z.of_nat h + (if b then 5 else 0)))).
  split; [lia|].
  unfold confidence_of, py_round2. f_equal. f_equal.
  apply round_half_even_Z.
  rewrite raw_score_hundredths, clamp_hundredths.
  unfold Qeq, Qmult, inject_Z. cbn [Qnum Qden]. lia.
Qed.

Lemma hundredths_read_back (k : Z) :
  (30 <= k <= 95)%Z -> number_reads_back (JFloat (Qred (k # 100))) = true.
Proof.
  intros Hk.
  assert (Hall : forallb (fun i => number_reads_back
                                     (JFloat (Qred ((30 + Z.of_nat i) # 100))))
                         (seq 0 66) = true) by (vm_compute; reflexivity).
  rewrite forallb_forall in Hall.
  replace k with (30 + Z.of_nat (Z.to_nat (k - 30)))%Z by lia.
  apply Hall. apply in_seq. lia.
Qed.

Lemma score_reads_back (question answer : text) :
  number_reads_back (JFloat (_score_confidence question answer)) = true.
Proof.
  unfold _score_confidence.
  destruct (confidence_of_canonical (hedge_count answer) (length_ok answer))
    as [k [Hk E]].
  rewrite E. now apply hundredths_read_back.
Qed.

Lemma strings_wf (l : list text) : forallb wf_json (map JStr l) = true.
Proof. induction l; simpl; auto. Qed.

(** What one call of [log_interaction] does *)
Lemma log_interaction_spec (uid now question answer : text)
  (extra : option (list text)) (s : state) :
  exists e,
    log_interaction list_of_set uid now question answer extra s
    = (Ok e,
       {| log_file := Some (match log_file s with Some t => t | None => [] end
                            ++ json_dumps e ++ newline);
          belief_file := belief_file s;
          pattern_file := pattern_file s;
          tension_file := tension_file s;
          llm_calls := llm_calls s |})
    /\ entry_ok e
    /\ py_getitem e (txt "question") = Ok (JStr question)
    /\ py_getitem e (txt "answer") = Ok (JStr answer).
Proof.
  exists (make_entry list_of_set uid now question answer extra).
  split; [reflexivity|]. split; [|split; reflexivity].
  split; [|eexists; reflexivity].
  unfold make_entry. cbn [wf_json forallb snd].
  rewrite strings_wf, score_reads_back. reflexivity.
Qed.

Lemma append_written (c : append_call) (s : state) (es : list json) :
  log_written s es ->
  exists e s',
    append list_of_set c s = (Ok e, s')
    /\ log_written s' (es ++ [e])
    /\ belief_file s' = belief_file s
    /\ pattern_file s' = pattern_file s
    /\ tension_file s' = tension_file s
    /\ llm_calls s' = llm_calls s.
Proof.
  intros [Hes Hf]. unfold append.
  destruct (log_interaction_spec (ac_uid c) (ac_now c) (ac_question c)
              (ac_answer c) (ac_extra_tags c) s) as [e [E [He _]]].
  eexists. eexists. split; [exact E|]. split; [|repeat split].
  split.
  - apply Forall_app. split; [exact Hes | now constructor].
  - right. simpl. rewrite log_text_snoc.
    destruct Hf as [[Hf Hnil] | Hf]; rewrite Hf; [now subst es | reflexivity].
Qed.

Lemma run_appends_written (calls : list append_call) :
  forall s prev,
    log_written s prev ->
    log_written (snd (run_appends list_of_set calls s))
                (prev ++ fst (run_appends list_of_set calls s))
    /\ List.length (fst (run_appends list_of_set calls s)) = List.length calls.
Proof.
  induction calls as [|c calls IH]; intros s prev H.
  - simpl. rewrite app_nil_r. now split.
  - cbn [run_appends].
    destruct (append_written c s prev H) as [e [s' [E [H' _]]]].
    rewrite E. destruct (IH s' (prev ++ [e]) H') as [IH1 IH2].
    destruct (run_appends list_of_set calls s') as [es s'']. simpl in *.
    rewrite <- app_assoc in IH1. split; [exact IH1 | now rewrite IH2].
Qed.

Lemma load_log_written (s : state) (es : list json) (n : option Z) :
  log_written s es -> load_log n s = (Ok (limit n es), s).
Proof.
  intros [Hes [[Hf Hnil] | Hf]].
  - subst es. unfold load_log, bind, get_state, ret. rewrite Hf.
    unfold limit. destruct n as [n'|]; [|reflexivity].
    destruct (Z.eqb n' 0); [reflexivity|].
    unfold slice_from. simpl. now destruct (Z.ltb (- n') 0), (Z.to_nat _).
  - now apply load_log_text.
Qed.

Lemma log_count_written (s : state) (es : list json) :
  log_written s es -> log_count s = (Ok (List.length es), s).
Proof.
  intros [Hes [[Hf Hnil] | Hf]].
  - subst es. unfold log_count, bind, get_state, ret. now rewrite Hf.
  - now apply log_count_text.
Qed.

(** C3 as stated fails at the limit 0: after one append, [load_log(0)]
    returns the record, not the most recent zero records. *)
Lemma load_log_limit_counterexample :
  let call := {| ac_uid := txt "ab12cd34"; ac_now := txt "2026-01-01T00:00:00+00:00";
                 ac_question := txt "What is karma yoga?";
                 ac_answer := txt "Selfless action."; ac_extra_tags := None |} in
  let es := fst (run_appends (fun l => l) [call] empty_state) in
  let s := snd (run_appends (fun l => l) [call] empty_state) in
  fst (load_log (Some 0%Z) s) <> Ok (lastn 0 es).
Proof. vm_compute. discriminate. Qed.

(** C3, amended.  Starting from a log that does not exist, after any
    sequence of appends [load_log()] returns the appended records in the
    order of the appends, [log_count()] is the number of appends, and for
    every positive limit [n], [load_log(n)] returns the last [n] records
    (all of them when there are fewer), oldest first; on the log that was
    never created [load_log()] returns the empty list. *)
Theorem log_load_after_appends (calls : list append_call) (s0 : state) :
  log_file s0 = None ->
  let es := fst (run_appends list_of_set calls s0) in
  let s := snd (run_appends list_of_set calls s0) in
  load_log None s0 = (Ok [], s0)
  /\ List.length es = List.length calls
  /\ load_log None s = (Ok es, s)
  /\ log_count s = (Ok (List.length calls), s)
  /\ forall n : Z, (0 < n)%Z ->
       load_log (Some n) s = (Ok (lastn (Z.to_nat n) es), s).
Proof.
  intros H0 es s.
  assert (Hinit : log_written s0 []) by (split; [constructor | now left]).
  destruct (run_appends_written calls s0 [] Hinit) as [Hw Hlen].
  simpl in Hw. fold es s in Hw, Hlen.
  split; [|split; [exact Hlen | split; [|split]]].
  - unfold load_log, bind, get_state, ret. now rewrite H0.
  - apply (load_log_written s es None Hw).
  - rewrite <- Hlen. now apply log_count_written.
  - intros n Hn. rewrite (load_log_written s es (Some n) Hw).
    unfold limit. destruct (Z.eqb_spec n 0) as [E|_]; [lia|].
    now rewrite slice_from_last.
Qed.

(** C9.  On a log written by [log_interaction], a further call that
    returns the entry [e] leaves a log whose records are the records that
    were there before, unchanged and in their order, followed by [e]: the
    last element of [load_log()] is [e]. *)
Theorem log_append_read_back (calls : list append_call) (c : append_call)
  (s0 s' : state) (e : json) :
  log_file s0 = None ->
  append list_of_set c (snd (run_appends list_of_set calls s0)) = (Ok e, s') ->
  let es := fst (run_appends list_of_set calls s0) in
  let s := snd (run_appends list_of_set calls s0) in
  load_log None s = (Ok es, s)
  /\ load_log None s' = (Ok (es ++ [e]), s')
  /\ last (es ++ [e]) JNull = e.
Proof.
  intros H0 Happ es s.
  assert (Hinit : log_written s0 []) by (split; [constructor | now left]).
  destruct (run_appends_written calls s0 [] Hinit) as [Hw _].
  simpl in Hw. fold es s in Hw.
  destruct (append_written c s es Hw) as [e1 [s1 [E [Hw' _]]]].
  fold s in Happ. rewrite E in Happ. injection Happ as -> ->.
  split; [|split].
  - apply (load_log_written s es None Hw).
  - apply (load_log_written s' (es ++ [e]) None Hw').
  - apply last_last.
Qed.

End LogClaims.

Lemma log_load_after_appends_witness :
  load_log None empty_state = (Ok [], empty_state)
  /\ List.length (fst (run_appends (fun l => l) demo_calls empty_state)) = 2%nat
  /\ load_log None demo_log
     = (Ok (fst (run_appends (fun l => l) demo_calls empty_state)), demo_log)
  /\ log_count demo_log = (Ok 2%nat, demo_log)
  /\ forall n : Z, (0 < n)%Z ->
       load_log (Some n) demo_log
       = (Ok (lastn (Z.to_nat n) (fst (run_appends (fun l => l) demo_calls empty_state))),
          demo_log).
Proof.
  apply (log_load_after_appends (fun l => l) demo_calls empty_state).
  reflexivity.
Defined.

Lemma log_append_read_back_witness :
  load_log None demo_log
  = (Ok (fst (run_appends (fun l => l) demo_calls empty_state)), demo_log)
  /\ load_log None (snd (append (fun l => l) demo_call demo_log))
     = (Ok (fst (run_appends (fun l => l) demo_calls empty_state)
            ++ [make_entry (fun l => l) (ac_uid demo_call) (ac_now demo_call)
                  (ac_question demo_call) (ac_answer demo_call) None]),
        snd (append (fun l => l) demo_call demo_log))
  /\ last (fst (run_appends (fun l => l) demo_calls empty_state)
           ++ [make_entry (fun l => l) (ac_uid demo_call) (ac_now demo_call)
                 (ac_question demo_call) (ac_answer demo_call) None]) JNull
     = make_entry (fun l => l) (ac_uid demo_call) (ac_now demo_call)
         (ac_question demo_call) (ac_answer demo_call) None.
Proof.
  apply (log_append_read_back (fun l => l) demo_calls demo_call empty_state).
  - reflexivity.
  - reflexivity.
Defined.


Section LoadLimit.

(** C10.  On a log that holds at least one record, [load_log(0)] returns
    all the records, as [load_log()] does, and not the empty list. *)
Theorem load_log_zero_limit (s : state) (es : list json) :
  load_log None s = (Ok es, s) -> es <> [] ->
  load_log (Some 0%Z) s = (Ok es, s)
  /\ fst (load_log (Some 0%Z) s) <> Ok [].
Proof.
  intros H Hne.
  assert (E : load_log (Some 0%Z) s = load_log None s).
  { unfold load_log, bind, get_state, lift, ret.
    destruct (log_file s) as [content|]; [|reflexivity].
    destruct (rmap json_loads _); reflexivity. }
  rewrite E, H. split; [reflexivity|]. simpl. congruence.
Qed.

Lemma load_log_zero_limit_witness :
  load_log (Some 0%Z) demo_log
  = (Ok (fst (run_appends (fun l => l) demo_calls empty_state)), demo_log)
  /\ fst (load_log (Some 0%Z) demo_log) <> Ok [].
Proof.
  apply (load_log_zero_limit demo_log
           (fst (run_appends (fun l => l) demo_calls empty_state))).
  - vm_compute. reflexivity.
  - vm_compute. discriminate.
Defined.

End LoadLimit.

(** ** The reflection stage *)

Section Reflection.

Local Open Scope engine_scope.

Lemma load_log_state (n : option Z) (s : state) : snd (load_log n s) = s.
Proof.
  unfold load_log, bind, get_state, lift, ret.
  destruct (log_file s) as [content|]; [|reflexivity].
  destruct (rmap json_loads _); [|reflexivity].
  destruct n as [n'|]; [|reflexivity]. now destruct (Z.eqb n' 0).
Qed.

Lemma log_count_state (s : state) : snd (log_count s) = s.
Proof.
  unfold log_count, bind, get_state, ret. now destruct (log_file s).
Qed.

Lemma load_beliefs_state (s : state) : snd (load_beliefs s) = s.
Proof.
  unfold load_beliefs, bind, get_state, lift, ret. now destruct (belief_file s).
Qed.

Lemma load_patterns_state (s : state) : snd (load_patterns s) = s.
Proof.
  unfold load_patterns, bind, get_state, ret. now destruct (pattern_file s).
Qed.

Lemma load_tensions_state (s : state) : snd (load_tensions s) = s.
Proof.
  unfold load_tensions, bind, get_state, lift, ret. now destruct (tension_file s).
Qed.


End Reflection.

Section ReflectionClaims.





End ReflectionClaims.

(** ** The synthesis stage, and model output that does not parse *)

Section Degradation.

Local Open Scope engine_scope.

Lemma run_synthesis_no_beliefs (config : EngineConfig) (llm_fn : adapter)
  (now1 now2 : text) (s : state) (beliefs : json) :
  load_beliefs s = (Ok beliefs, s) -> py_truthy beliefs = false ->
  run_synthesis config llm_fn now1 now2 s = (Ok (JObj []), s).
Proof.
  intros Hb Ht. unfold run_synthesis, bind at 1. rewrite Hb, Ht. reflexivity.
Qed.

(** C6.  When the stored belief set is empty (no belief file, or a belief
    file without beliefs), [run_synthesis] returns the empty result and
    leaves the state as it was: the adapter is not called and neither the
    pattern file nor the tension file is written. *)
Theorem synthesis_without_beliefs (config : EngineConfig) (llm_fn : adapter)
  (now1 now2 : text) (s : state) :
  no_beliefs s ->
  run_synthesis config llm_fn now1 now2 s = (Ok (JObj []), s)
  /\ llm_calls (snd (run_synthesis config llm_fn now1 now2 s)) = llm_calls s
  /\ pattern_file (snd (run_synthesis config llm_fn now1 now2 s)) = pattern_file s
  /\ tension_file (snd (run_synthesis config llm_fn now1 now2 s)) = tension_file s.
Proof.
  intros H.
  assert (E : run_synthesis config llm_fn now1 now2 s = (Ok (JObj []), s)).
  { destruct H as [Hnone | [fields [Hf Hl]]].
    - apply run_synthesis_no_beliefs with (beliefs := JArr []); [|reflexivity].
      unfold load_beliefs, bind, get_state, ret. now rewrite Hnone.
    - apply run_synthesis_no_beliefs with (beliefs := JArr []); [|reflexivity].
      unfold load_beliefs, bind, get_state, lift, py_get. rewrite Hf.
      destruct Hl as [Hl | Hl]; now rewrite Hl. }
  rewrite E. repeat split.
Qed.

Lemma synthesis_without_beliefs_witness :
  run_synthesis default_config demo_llm (txt "2026-01-02T00:00:00+00:00")
    (txt "2026-01-02T00:00:01+00:00") demo_log
  = (Ok (JObj []), demo_log)
  /\ llm_calls (snd (run_synthesis default_config demo_llm
                       (txt "2026-01-02T00:00:00+00:00")
                       (txt "2026-01-02T00:00:01+00:00") demo_log))
     = llm_calls demo_log
  /\ pattern_file (snd (run_synthesis default_config demo_llm
                          (txt "2026-01-02T00:00:00+00:00")
                          (txt "2026-01-02T00:00:01+00:00") demo_log))
     = pattern_file demo_log
  /\ tension_file (snd (run_synthesis default_config demo_llm
                          (txt "2026-01-02T00:00:00+00:00")
                          (txt "2026-01-02T00:00:01+00:00") demo_log))
     = tension_file demo_log.
Proof.
  apply synthesis_without_beliefs. left. reflexivity.
Defined.

(** C1.  The code does not keep the claim for Reflection.  Take a store
    with a log, one stored belief and the reflection count 1, and a model
    that answers in plain text.
    - [run_reflection] returns the empty list and does not raise, but it
      has replaced the belief file: the stored belief is gone and the
      count is 2.  The log, the pattern file and the tension file are as
      before.
    - [run_synthesis], given the same answer on the same store, returns
      the empty result and leaves the four files as they were: it returns
      before it saves when the parsed result is empty, which
      [run_reflection] does not.
    Model output that is JSON of another shape than the required one makes
    the runs raise: a list of numbers raises AttributeError in
    [run_reflection] and the number 42 raises AttributeError in
    [run_synthesis], both before anything is written; an object whose
    tensions are a number raises TypeError in [run_synthesis] after the
    pattern and tension files were written. *)
Theorem unparseable_output_wipes_beliefs :
  let raw := txt "I could not find any beliefs." in
  let belief :=
    JObj [ (txt "belief", JStr (txt "User studies the margas"));
           (txt "confidence", JFloat (4 # 5)) ] in
  let reflect :=
    run_reflection default_config (constant_adapter raw)
      (txt "2026-01-01T02:00:00+00:00") demo_store in
  let synthesize :=
    run_synthesis default_config (constant_adapter raw)
      (txt "2026-01-01T02:00:00+00:00") (txt "2026-01-01T02:00:01+00:00")
      demo_store in
  let numbers :=
    run_reflection default_config (constant_adapter (txt "[1, 2]"))
      (txt "2026-01-01T02:00:00+00:00") demo_store in
  let number :=
    run_synthesis default_config (constant_adapter (txt "42"))
      (txt "2026-01-01T02:00:00+00:00") (txt "2026-01-01T02:00:01+00:00")
      demo_store in
  let tensions :=
    run_synthesis default_config
      (constant_adapter (json_dumps (JObj [ (txt "tensions", JInt 5) ])))
      (txt "2026-01-01T02:00:00+00:00") (txt "2026-01-01T02:00:01+00:00")
      demo_store in
  (belief_file demo_store
   = Some (JObj [ (txt "last_updated", JStr (txt "2026-01-01T01:00:00+00:00"));
                  (txt "reflection_count", JInt 1);
                  (txt "beliefs", JArr [belief]) ])
   /\ pattern_file demo_store = None
   /\ tension_file demo_store = None)
  /\ (fst reflect = Ok (JArr [])
      /\ belief_file (snd reflect)
         = Some (JObj [ (txt "last_updated", JStr (txt "2026-01-01T02:00:00+00:00"));
                        (txt "reflection_count", JInt 2);
                        (txt "beliefs", JArr []) ])
      /\ log_file (snd reflect) = log_file demo_store
      /\ pattern_file (snd reflect) = None
      /\ tension_file (snd reflect) = None)
  /\ (fst synthesize = Ok (JObj [])
      /\ log_file (snd synthesize) = log_file demo_store
      /\ belief_file (snd synthesize) = belief_file demo_store
      /\ pattern_file (snd synthesize) = None
      /\ tension_file (snd synthesize) = None)
  /\ (fst numbers = Raise AttributeError
      /\ belief_file (snd numbers) = belief_file demo_store)
  /\ (fst number = Raise AttributeError
      /\ pattern_file (snd number) = None
      /\ tension_file (snd number) = None)
  /\ (fst tensions = Raise TypeError
      /\ pattern_file (snd tensions) <> None
      /\ tension_file (snd tensions)
         = Some (JObj [ (txt "last_updated", JStr (txt "2026-01-01T02:00:01+00:00"));
                        (txt "tensions", JInt 5);
                        (txt "resolved", JArr []) ])).
Proof.
  vm_compute. repeat split; discriminate.
Qed.

End Degradation.

(** ** The context formatters *)

Section Sorting.

Local Open Scope Q_scope.

Lemma insert_by_key_perm {A} (k : Q) (x : A) (l : list (Q * A)) :
  Permutation ((k, x) :: l) (insert_by_key k x l).
Proof.
  induction l as [|[k' y] l IH]; simpl.
  - apply Permutation_refl.
  - destruct (Qle_bool k k').
    + apply Permutation_refl.
    + eapply Permutation_trans; [apply perm_swap|]. now apply perm_skip.
Qed.

Lemma sort_by_key_perm {A} (l : list (Q * A)) : Permutation l (sort_by_key l).
Proof.
  induction l as [|[k x] l IH]; simpl.
  - apply Permutation_refl.
  - eapply Permutation_trans; [|apply insert_by_key_perm]. now apply perm_skip.
Qed.

Lemma insert_by_key_sorted {A} (k : Q) (x : A) (l : list (Q * A)) :
  StronglySorted (fun a b => fst a <= fst b) l ->
  StronglySorted (fun a b => fst a <= fst b) (insert_by_key k x l).
Proof.
  induction l as [|[k' y] l IH]; intros Hs; simpl.
  - constructor; constructor.
  - inversion Hs as [|? ? Hs' Hall]; subst.
    destruct (Qle_bool k k') eqn:E.
    + apply Qle_bool_iff in E. constructor; [exact Hs|].
      constructor; [exact E|].
      eapply Forall_impl; [|exact Hall].
      intros a Ha. simpl in *. now apply Qle_trans with k'.
    + assert (Hlt : k' <= k).
      { apply Qnot_lt_le. intros Hc. apply Qlt_le_weak in Hc.
        apply Qle_bool_iff in Hc. congruence. }
      constructor; [now apply IH|].
      apply (Permutation_Forall (insert_by_key_perm k x l)).
      constructor; [exact Hlt | exact Hall].
Qed.

Lemma sort_by_key_sorted {A} (l : list (Q * A)) :
  StronglySorted (fun a b => fst a <= fst b) (sort_by_key l).
Proof.
  induction l as [|[k x] l IH]; simpl.
  - constructor.
  - now apply insert_by_key_sorted.
Qed.

Lemma neg_confidence_value (x : json) (k : Q) :
  neg_confidence x = Ok k ->
  exists q, confidence_value x = Some q /\ k = - q.
Proof.
  unfold neg_confidence, confidence_value, py_neg.
  destruct (py_get x (txt "confidence") (JInt 0)) as [c|e]; cbn [rbind];
    [|discriminate].
  destruct (as_number c) as [q|]; [|discriminate].
  intros H. injection H as <-. now exists q.
Qed.

Lemma keyed_items (items : list json) :
  forall keyed,
    rmap (fun x => rbind (neg_confidence x) (fun k => Ok (k, x))) items = Ok keyed ->
    map snd keyed = items
    /\ Forall (fun kx => neg_confidence (snd kx) = Ok (fst kx)) keyed.
Proof.
  induction items as [|x items IH]; intros keyed H; cbn [rmap] in H.
  - injection H as <-. split; constructor.
  - destruct (neg_confidence x) as [k|e] eqn:Ek; cbn [rbind] in H; [|discriminate].
    destruct (rmap _ items) as [keyed'|e]; cbn [rbind] in H; [|discriminate].
    injection H as <-. destruct (IH keyed' eq_refl) as [IH1 IH2].
    split; [simpl; now rewrite IH1 | now constructor].
Qed.

Lemma sorted_keys_descending (l : list (Q * json)) :
  Forall (fun kx => neg_confidence (snd kx) = Ok (fst kx)) l ->
  StronglySorted (fun a b => fst a <= fst b) l ->
  StronglySorted higher_first (map snd l).
Proof.
  intros Hk Hs. induction Hs as [|[k x] l Hs IH Hall]; simpl.
  - constructor.
  - inversion Hk as [|? ? Hx Hk']; subst. constructor; [now apply IH|].
    apply Forall_map. rewrite Forall_forall in *.
    intros [k' y] Hy. simpl in *.
    destruct (neg_confidence_value x k Hx) as [qa [Ea Eka]].
    destruct (neg_confidence_value y k' (Hk' (k', y) Hy)) as [qb [Eb Ekb]].
    exists qa, qb. repeat split; try assumption.
    pose proof (Hall (k', y) Hy) as Hle. simpl in Hle. subst k k'.
    apply Qopp_le_compat in Hle. now rewrite !Qopp_involutive in Hle.
Qed.

(** [sorted(xs, key=lambda x: -x.get("confidence", 0))] lists the elements
    of [xs] by descending confidence. *)
Lemma sorted_by_confidence_descending (xs : json) (sorted : list json) :
  sorted_by_confidence xs = Ok sorted ->
  exists items, py_iter xs = Ok items /\ sorted_descending items sorted.
Proof.
  unfold sorted_by_confidence.
  destruct (py_iter xs) as [items|e]; cbn [rbind]; [|discriminate].
  destruct (rmap _ items) as [keyed|e] eqn:Ek; cbn [rbind]; [|discriminate].
  intros H. injection H as <-. exists items. split; [reflexivity|].
  destruct (keyed_items items keyed Ek) as [E1 E2]. split.
  - rewrite <- E1. apply Permutation_map. apply sort_by_key_perm.
  - apply sorted_keys_descending.
    + apply (Permutation_Forall (sort_by_key_perm keyed)). exact E2.
    + apply sort_by_key_sorted.
Qed.

End Sorting.

Section FormatterClaims.

Variable py_str : json -> text.

Local Open Scope engine_scope.

Lemma format_belief_block_some (beliefs : json) (s : state) :
  format_belief_block py_str (Some beliefs) s = (belief_block py_str beliefs, s).
Proof. reflexivity. Qed.

Lemma format_belief_block_none (s : state) :
  format_belief_block py_str None s
  = (rbind (fst (load_beliefs s)) (belief_block py_str), s).
Proof.
  unfold format_belief_block, bind.
  pose proof (load_beliefs_state s) as H.
  destruct (load_beliefs s) as [[b|e] s1]; simpl in H; subst s1; reflexivity.
Qed.

Lemma format_cognitive_block_pure (s : state) :
  format_cognitive_block py_str s
  = (rbind (fst (load_patterns s)) (fun pd =>
     rbind (fst (load_tensions s)) (fun ts => cognitive_block py_str pd ts)), s).
Proof.
  unfold format_cognitive_block, bind at 1.
  pose proof (load_patterns_state s) as H.
  destruct (load_patterns s) as [[pd|e] s1]; simpl in H; subst s1; [|reflexivity].
  unfold bind.
  pose proof (load_tensions_state s) as H.
  destruct (load_tensions s) as [[ts|e] s1]; simpl in H; subst s1; reflexivity.
Qed.

Lemma load_beliefs_file (s1 s2 : state) :
  belief_file s1 = belief_file s2 -> fst (load_beliefs s1) = fst (load_beliefs s2).
Proof.
  intros H. unfold load_beliefs, bind, get_state, lift, ret. rewrite H.
  now destruct (belief_file s2).
Qed.

Lemma load_patterns_file (s1 s2 : state) :
  pattern_file s1 = pattern_file s2 -> fst (load_patterns s1) = fst (load_patterns s2).
Proof.
  intros H. unfold load_patterns, bind, get_state, ret. rewrite H.
  now destruct (pattern_file s2).
Qed.

Lemma load_tensions_file (s1 s2 : state) :
  tension_file s1 = tension_file s2 -> fst (load_tensions s1) = fst (load_tensions s2).
Proof.
  intros H. unfold load_tensions, bind, get_state, lift, ret. rewrite H.
  now destruct (tension_file s2).
Qed.

Lemma belief_block_sorted (beliefs : json) (out : text) :
  belief_block py_str beliefs = Ok out ->
  py_truthy beliefs = true ->
  exists items sorted lines,
    py_iter beliefs = Ok items
    /\ sorted_descending items sorted
    /\ rmap (belief_line py_str) sorted = Ok lines
    /\ out = join newline (belief_header :: lines) ++ newline ++ newline.
Proof.
  unfold belief_block. intros H Ht. rewrite Ht in H. cbn [negb] in H.
  destruct (sorted_by_confidence beliefs) as [sorted|e] eqn:Es; cbn [rbind] in H;
    [|discriminate].
  destruct (rmap (belief_line py_str) sorted) as [lines|e] eqn:El;
    cbn [rbind] in H; [|discriminate].
  injection H as <-.
  destruct (sorted_by_confidence_descending beliefs sorted Es) as [items [Ei Hs]].
  exists items, sorted, lines. repeat split; try assumption; apply Hs.
Qed.

Lemma cognitive_block_sorted (pdata tensions : json) (out : text) :
  cognitive_block py_str pdata tensions = Ok out ->
  exists patterns,
    py_get pdata (txt "cognitive_patterns") (JArr []) = Ok patterns
    /\ ((py_truthy patterns = false /\ out = [])
        \/ (py_truthy patterns = true
            /\ exists items sorted lines rest,
                 py_iter patterns = Ok items
                 /\ sorted_descending items sorted
                 /\ rmap (pattern_line py_str) sorted = Ok lines
                 /\ out = join newline ((cognitive_header :: lines) ++ rest))).
Proof.
  unfold cognitive_block. intros H.
  destruct (py_get pdata (txt "cognitive_patterns") (JArr [])) as [patterns|e];
    cbn [rbind] in H; [|discriminate].
  exists patterns. split; [reflexivity|].
  destruct (py_get pdata (txt "decision_archetype") (JObj [])) as [archetype|e];
    cbn [rbind] in H; [|discriminate].
  destruct (py_truthy patterns); cbn [negb] in H.
  - right. split; [reflexivity|].
    destruct (sorted_by_confidence patterns) as [sorted|e] eqn:Es;
      cbn [rbind] in H; [|discriminate].
    destruct (rmap (pattern_line py_str) sorted) as [lines|e] eqn:El;
      cbn [rbind] in H; [|discriminate].
    destruct (py_get archetype (txt "dominant") JNull) as [dominant|e];
      cbn [rbind] in H; [|discriminate].
    match type of H with
    | rbind ?x _ = _ => destruct x as [arch_lines|e]; cbn [rbind] in H;
                        [|discriminate]
    end.
    destruct (py_iter tensions) as [tension_items|e]; cbn [rbind] in H;
      [|discriminate].
    destruct (filter_active tension_items) as [active|e]; cbn [rbind] in H;
      [|discriminate].
    match type of H with
    | rbind ?x _ = _ => destruct x as [tension_lines|e]; cbn [rbind] in H;
                        [|discriminate]
    end.
    injection H as <-.
    destruct (sorted_by_confidence_descending patterns sorted Es) as [items [Ei Hs]].
    exists items, sorted, lines. eexists.
    repeat split; first [eassumption | apply Hs | reflexivity].
  - left. injection H as <-. now split.
Qed.

Lemma rmap_ok {A B} (f : A -> result B) (l : list A) :
  Forall (fun x => exists y, f x = Ok y) l -> exists l', rmap f l = Ok l'.
Proof.
  intros H. induction H as [|x l [y Hx] Hl [l' IH]].
  - now exists [].
  - exists (y :: l'). cbn [rmap]. now rewrite Hx, IH.
Qed.

Lemma format_percent_number (c : json) (pc : text) :
  format_percent c = Ok pc -> exists q, as_number c = Some q.
Proof.
  unfold format_percent.
  destruct c; cbn [as_number]; try discriminate; intros _; eexists; reflexivity.
Qed.

Lemma renderable_key (key : text) (x : json) :
  renderable key x = true ->
  exists k, neg_confidence x = Ok k.
Proof.
  unfold renderable, neg_confidence. destruct x; try discriminate.
  cbn [py_get rbind]. destruct (dict_lookup fields key); [|discriminate].
  destruct (dict_lookup fields (txt "confidence")) as [c|].
  - destruct (format_percent c) as [pc|] eqn:E; [|discriminate].
    destruct (format_percent_number c pc E) as [q Hq].
    unfold py_neg. rewrite Hq. eexists. reflexivity.
  - eexists. reflexivity.
Qed.

(** Sorting by confidence succeeds on such items, and rearranges them. *)
Lemma renderable_sorted (key : text) (items : list json) :
  forallb (renderable key) items = true ->
  exists sorted,
    sorted_by_confidence (JArr items) = Ok sorted /\ Permutation items sorted.
Proof.
  intros H. unfold sorted_by_confidence. cbn [py_iter rbind].
  destruct (rmap_ok (fun x => rbind (neg_confidence x) (fun k => Ok (k, x))) items)
    as [keyed Hk].
  { rewrite forallb_forall in H. apply Forall_forall. intros x Hx.
    destruct (renderable_key key x (H x Hx)) as [k Ek]. rewrite Ek.
    eexists. reflexivity. }
  rewrite Hk. cbn [rbind]. eexists. split; [reflexivity|].
  destruct (keyed_items items keyed Hk) as [E _]. rewrite <- E.
  apply Permutation_map. apply sort_by_key_perm.
Qed.

Lemma belief_line_renderable (b : json) :
  renderable (txt "belief") b = true -> exists line, belief_line py_str b = Ok line.
Proof.
  unfold renderable, belief_line. destruct b; try discriminate.
  cbn [py_getitem py_get].
  destruct (dict_lookup fields (txt "belief")); [|discriminate]. cbn [rbind].
  destruct (dict_lookup fields (txt "confidence")) as [c|].
  - destruct (format_percent c); [|discriminate]. eexists. reflexivity.
  - eexists. reflexivity.
Qed.

Lemma pattern_line_renderable (p : json) :
  renderable (txt "pattern") p = true ->
  (exists line, pattern_line py_str p = Ok line)
  \/ pattern_line py_str p = Raise KeyError.
Proof.
  unfold renderable, pattern_line. destruct p; try discriminate.
  cbn [py_getitem].
  destruct (dict_lookup fields (txt "pattern")); [|discriminate]. cbn [rbind].
  destruct (dict_lookup fields (txt "confidence")) as [c|]; [|now right].
  cbn [rbind]. destruct (format_percent c); [|discriminate].
  left. eexists. reflexivity.
Qed.

Lemma pattern_line_absent (p : json) :
  renderable (txt "pattern") p = true -> confidence_absent p = true ->
  pattern_line py_str p = Raise KeyError.
Proof.
  unfold renderable, confidence_absent, pattern_line. destruct p; try discriminate.
  cbn [py_getitem].
  destruct (dict_lookup fields (txt "pattern")); [|discriminate]. cbn [rbind].
  now destruct (dict_lookup fields (txt "confidence")).
Qed.

Lemma pattern_line_present (p : json) :
  renderable (txt "pattern") p = true -> confidence_absent p = false ->
  exists line, pattern_line py_str p = Ok line.
Proof.
  intros Hr Ha. destruct (pattern_line_renderable p Hr) as [H | H]; [exact H|].
  exfalso. revert Hr Ha H.
  unfold renderable, confidence_absent, pattern_line. destruct p; try discriminate.
  cbn [py_getitem].
  destruct (dict_lookup fields (txt "pattern")); [|discriminate]. cbn [rbind].
  destruct (dict_lookup fields (txt "confidence")) as [c|]; [|discriminate].
  cbn [rbind]. destruct (format_percent c); discriminate.
Qed.

(** What [load_beliefs] returns is the belief set that the file holds. *)
Lemma load_beliefs_stored (s : state) (beliefs : json) :
  stored_beliefs s beliefs -> load_beliefs s = (Ok beliefs, s).
Proof.
  unfold load_beliefs, bind, get_state, lift, ret.
  intros [[H ->] | [fields [H ->]]]; rewrite H; reflexivity.
Qed.

Lemma cognitive_patterns_stored (s : state) (patterns : json) :
  stored_patterns s patterns ->
  exists pdata,
    load_patterns s = (Ok pdata, s)
    /\ py_get pdata (txt "cognitive_patterns") (JArr []) = Ok patterns.
Proof.
  unfold load_patterns, bind, get_state, ret.
  intros [[H ->] | [fields [H ->]]]; rewrite H; eexists; split; reflexivity.
Qed.

(** What the cognitive block lists was read from the pattern file. *)
Lemma stored_patterns_read (s : state) (pdata patterns : json) :
  fst (load_patterns s) = Ok pdata ->
  py_get pdata (txt "cognitive_patterns") (JArr []) = Ok patterns ->
  stored_patterns s patterns.
Proof.
  unfold load_patterns, bind, get_state, ret.
  destruct (pattern_file s) as [doc|] eqn:E; cbn [fst].
  - intros H. injection H as ->. destruct pdata; try discriminate.
    cbn [py_get]. intros H. injection H as <-. right. now exists fields.
  - intros H. injection H as <-. intros H. injection H as <-. now left.
Qed.

Lemma filter_active_ok (ts : list json) :
  forallb tension_renderable ts = true ->
  exists active,
    filter_active ts = Ok active /\ forallb tension_renderable active = true.
Proof.
  induction ts as [|t ts IH]; intros H.
  - now exists [].
  - cbn [forallb] in H. apply andb_true_iff in H. destruct H as [Ht Hts].
    destruct (IH Hts) as [active [Ea Ha]]. cbn [filter_active]. rewrite Ea.
    assert (Hk : exists keep,
               rbind (py_get t (txt "severity") (JInt 0))
                 (fun sev => py_gt sev (5 # 10)) = Ok keep).
    { revert Ht. unfold tension_renderable. destruct t; try discriminate.
      cbn [py_get rbind].
      destruct (dict_lookup fields (txt "strategic_question")); [|discriminate].
      destruct (dict_lookup fields (txt "severity")) as [v|].
      - unfold py_gt. destruct (as_number v); [|discriminate].
        eexists. reflexivity.
      - eexists. reflexivity. }
    destruct Hk as [keep Hk].
    destruct (py_get t (txt "severity") (JInt 0)) as [sev|]; [|discriminate Hk].
    cbn [rbind] in *. rewrite Hk. cbn [rbind].
    destruct keep; eexists; (split; [reflexivity|]); [|exact Ha].
    cbn [forallb]. now rewrite Ht, Ha.
Qed.

Lemma tension_line_renderable (t : json) :
  tension_renderable t = true -> exists line, tension_line py_str t = Ok line.
Proof.
  unfold tension_renderable, tension_line. destruct t; try discriminate.
  cbn [py_getitem].
  destruct (dict_lookup fields (txt "strategic_question")); [|discriminate].
  intros _. eexists. reflexivity.
Qed.

Lemma format_belief_block_renders (s : state) (given : option json)
  (items : list json) :
  given = Some (JArr items) \/ (given = None /\ stored_beliefs s (JArr items)) ->
  forallb (renderable (txt "belief")) items = true ->
  exists out, format_belief_block py_str given s = (Ok out, s).
Proof.
  intros Hg Hr.
  assert (E : format_belief_block py_str given s
              = (belief_block py_str (JArr items), s)).
  { destruct Hg as [-> | [-> Hs]]; [reflexivity|].
    rewrite format_belief_block_none, (load_beliefs_stored s _ Hs). reflexivity. }
  rewrite E. unfold belief_block.
  destruct items as [|b0 items']; [eexists; reflexivity|].
  cbn [py_truthy negb].
  destruct (renderable_sorted _ _ Hr) as [sorted [Es Hp]].
  rewrite Es. cbn [rbind].
  destruct (rmap_ok (belief_line py_str) sorted) as [lines El].
  { apply (Permutation_Forall Hp). apply Forall_forall.
    rewrite forallb_forall in Hr. intros x Hx.
    now apply belief_line_renderable, Hr. }
  rewrite El. cbn [rbind]. eexists. reflexivity.
Qed.

Lemma format_cognitive_block_renders (s : state) (items : list json) :
  cognitive_store_ok s items ->
  exists out, format_cognitive_block py_str s = (Ok out, s).
Proof.
  intros [[fields [Hf [Hl [Hr Ha]]]] Ht].
  rewrite format_cognitive_block_pure.
  assert (Ep : fst (load_patterns s) = Ok (JObj fields)).
  { unfold load_patterns, bind, get_state, ret. now rewrite Hf. }
  assert (Et : exists ts,
             fst (load_tensions s) = Ok (JArr ts)
             /\ forallb tension_renderable ts = true).
  { unfold load_tensions, bind, get_state, lift, ret.
    destruct Ht as [Ht | [tf [Ht Hts]]]; rewrite Ht.
    - now exists [].
    - cbn [py_get fst]. destruct Hts as [Hts | [ts [Hts Hall]]]; rewrite Hts.
      + now exists [].
      + now exists ts. }
  destruct Et as [ts [Et Hts]]. rewrite Ep, Et. cbn [rbind].
  unfold cognitive_block. cbn [py_get]. rewrite Hl. cbn [rbind].
  destruct items as [|p0 items']; [eexists; reflexivity|].
  cbn [py_truthy negb].
  assert (Hr1 : forallb (renderable (txt "pattern")) (p0 :: items') = true).
  { rewrite forallb_forall in *. intros x Hx.
    specialize (Hr x Hx). now apply andb_true_iff in Hr. }
  destruct (renderable_sorted _ _ Hr1) as [sorted [Es Hp]].
  rewrite Es. cbn [rbind].
  destruct (rmap_ok (pattern_line py_str) sorted) as [lines El].
  { apply (Permutation_Forall Hp). apply Forall_forall.
    rewrite forallb_forall in Hr. intros x Hx.
    specialize (Hr x Hx). apply andb_true_iff in Hr. destruct Hr as [H1 H2].
    apply pattern_line_present; [exact H1|]. now destruct (confidence_absent x). }
  rewrite El. cbn [rbind].
  assert (Hd : exists arch_lines,
             rbind (py_get (match dict_lookup fields (txt "decision_archetype") with
                            | Some v => v
                            | None => JObj []
                            end) (txt "dominant") JNull)
               (fun dominant =>
                  rbind (if py_truthy dominant
                         then rbind (py_getitem
                                       (match dict_lookup fields
                                                (txt "decision_archetype") with
                                        | Some v => v
                                        | None => JObj []
                                        end) (txt "dominant"))
                                (fun d =>
                                   Ok [newline ++ txt "Dominant decision archetype: "
                                       ++ py_format py_str d])
                         else Ok [])
                    (fun arch_lines => Ok arch_lines)) = Ok arch_lines).
  { destruct Ha as [-> | [a ->]].
    - eexists. reflexivity.
    - cbn [py_get py_getitem rbind].
      destruct (dict_lookup a (txt "dominant")) as [d|].
      + destruct (py_truthy d); eexists; reflexivity.
      + eexists. reflexivity. }
  destruct Hd as [arch_lines Hd].
  destruct (py_get _ (txt "dominant") JNull) as [dominant|]; [|discriminate Hd].
  cbn [rbind] in *.
  match type of Hd with
  | rbind ?x _ = _ => destruct x as [al|]; [|discriminate Hd]
  end.
  cbn [rbind py_iter].
  destruct (filter_active_ok ts Hts) as [active [Ea Hact]].
  rewrite Ea. cbn [rbind].
  destruct active as [|t0 active']; [eexists; reflexivity|].
  destruct (rmap_ok (tension_line py_str) (t0 :: active')) as [qs Eq].
  { apply Forall_forall. rewrite forallb_forall in Hact. intros x Hx.
    now apply tension_line_renderable, Hact. }
  rewrite Eq. cbn [rbind]. eexists. reflexivity.
Qed.

(** C8.  The two formatters write nothing and their output is a function
    of the files they read: of the belief file for [format_belief_block],
    of the pattern and tension files for [format_cognitive_block]; so a
    repeated call gives the same output.  On an empty belief set, and on an
    empty pattern set, the output is the empty string.  Otherwise the
    block is the header followed by one bullet for each belief, or
    pattern, in the order of descending confidence: for the beliefs that
    the caller passes and for the beliefs that the belief file holds, and
    for the patterns that the pattern file holds.  The block is produced
    whenever the stored items can be rendered. *)
Theorem context_blocks_pure_sorted (s s2 : state) (given : option json) :
  (snd (format_belief_block py_str given s) = s
   /\ snd (format_cognitive_block py_str s) = s)
  /\ (format_belief_block py_str given (snd (format_belief_block py_str given s))
      = format_belief_block py_str given s
      /\ format_cognitive_block py_str (snd (format_cognitive_block py_str s))
         = format_cognitive_block py_str s)
  /\ ((belief_file s = belief_file s2 ->
       fst (format_belief_block py_str given s)
       = fst (format_belief_block py_str given s2))
      /\ (pattern_file s = pattern_file s2 -> tension_file s = tension_file s2 ->
          fst (format_cognitive_block py_str s)
          = fst (format_cognitive_block py_str s2)))
  /\ (format_belief_block py_str (Some (JArr [])) s = (Ok [], s)
      /\ (no_beliefs s -> format_belief_block py_str None s = (Ok [], s))
      /\ (no_patterns s -> tension_doc_ok s ->
          format_cognitive_block py_str s = (Ok [], s)))
  /\ ((forall beliefs out,
         given = Some beliefs \/ (given = None /\ stored_beliefs s beliefs) ->
         format_belief_block py_str given s = (Ok out, s) ->
         (py_truthy beliefs = false /\ out = [])
         \/ (py_truthy beliefs = true
             /\ exists items sorted lines,
                  py_iter beliefs = Ok items
                  /\ sorted_descending items sorted
                  /\ rmap (belief_line py_str) sorted = Ok lines
                  /\ out = join newline (belief_header :: lines)
                           ++ newline ++ newline))
      /\ (forall items,
            given = Some (JArr items)
            \/ (given = None /\ stored_beliefs s (JArr items)) ->
            forallb (renderable (txt "belief")) items = true ->
            exists out, format_belief_block py_str given s = (Ok out, s)))
  /\ ((forall out,
         format_cognitive_block py_str s = (Ok out, s) ->
         exists patterns,
           stored_patterns s patterns
           /\ ((py_truthy patterns = false /\ out = [])
               \/ (py_truthy patterns = true
                   /\ exists items sorted lines rest,
                        py_iter patterns = Ok items
                        /\ sorted_descending items sorted
                        /\ rmap (pattern_line py_str) sorted = Ok lines
                        /\ out = join newline ((cognitive_header :: lines) ++ rest))))
      /\ (forall items,
            cognitive_store_ok s items ->
            exists out, format_cognitive_block py_str s = (Ok out, s))).
Proof.
  assert (Hb : forall g t, snd (format_belief_block py_str g t) = t).
  { intros [b|] t; [reflexivity|]. now rewrite format_belief_block_none. }
  assert (Hc : forall t, snd (format_cognitive_block py_str t) = t).
  { intros t. now rewrite format_cognitive_block_pure. }
  split; [split; [apply Hb | apply Hc]|].
  split; [split; [now rewrite Hb | now rewrite Hc]|].
  split; [split|].
  { intros H. destruct given as [b|]; [reflexivity|].
    rewrite !format_belief_block_none. simpl.
    now rewrite (load_beliefs_file s s2 H). }
  { intros H1 H2. rewrite !format_cognitive_block_pure. simpl.
    now rewrite (load_patterns_file s s2 H1), (load_tensions_file s s2 H2). }
  split; [split; [reflexivity | split]|].
  { intros H. rewrite format_belief_block_none.
    assert (E : fst (load_beliefs s) = Ok (JArr [])).
    { unfold load_beliefs, bind, get_state, lift, ret, py_get.
      destruct H as [H | [fields [H Hl]]]; rewrite H; [reflexivity|].
      destruct Hl as [Hl | Hl]; now rewrite Hl. }
    now rewrite E. }
  { intros Hp Ht. rewrite format_cognitive_block_pure.
    assert (Et : exists ts, fst (load_tensions s) = Ok ts).
    { unfold load_tensions, bind, get_state, lift, ret.
      destruct Ht as [Ht | [fields Ht]]; rewrite Ht; eexists; reflexivity. }
    destruct Et as [ts Et]. rewrite Et.
    unfold load_patterns, bind, get_state, ret.
    destruct Hp as [Hp | [fields [Hp Hl]]]; rewrite Hp; [reflexivity|].
    cbn [fst rbind]. unfold cognitive_block, py_get.
    destruct Hl as [Hl | Hl]; rewrite Hl; reflexivity. }
  split; [split|split].
  { intros beliefs out Hg H.
    assert (E : format_belief_block py_str given s
                = (belief_block py_str beliefs, s)).
    { destruct Hg as [-> | [-> Hs]]; [reflexivity|].
      rewrite format_belief_block_none, (load_beliefs_stored s _ Hs). reflexivity. }
    rewrite E in H. injection H as H.
    destruct (py_truthy beliefs) eqn:Ht.
    - right. split; [reflexivity|]. now apply belief_block_sorted.
    - left. split; [reflexivity|]. unfold belief_block in H. rewrite Ht in H.
      cbn [negb] in H. now injection H as <-. }
  { apply format_belief_block_renders. }
  { intros out H. rewrite format_cognitive_block_pure in H.
    injection H as H.
    destruct (fst (load_patterns s)) as [pdata|e] eqn:Ep; cbn [rbind] in H;
      [|discriminate].
    destruct (fst (load_tensions s)) as [ts|e]; cbn [rbind] in H; [|discriminate].
    destruct (cognitive_block_sorted pdata ts out H) as [patterns [Eg Hcase]].
    exists patterns. split; [now apply (stored_patterns_read s pdata)|].
    destruct Hcase as [Hnil | [Ht Hs]]; [now left|].
    right. split; [exact Ht|].
    destruct Hs as [items [sorted [lines [rest Hs]]]].
    exists items, sorted, lines, rest. exact Hs. }
  { apply format_cognitive_block_renders. }
Qed.

End FormatterClaims.

Lemma context_blocks_pure_sorted_witness :
  fst (format_belief_block (fun _ => []) None demo_patterns)
  = fst (format_belief_block (fun _ => []) None demo_store)
  /\ format_belief_block (fun _ => []) None demo_log = (Ok [], demo_log)
  /\ format_cognitive_block (fun _ => []) demo_log = (Ok [], demo_log)
  /\ (exists out, format_belief_block (fun _ => []) None demo_store
                  = (Ok out, demo_store))
  /\ (exists out, format_cognitive_block (fun _ => []) demo_patterns
                  = (Ok out, demo_patterns))
  /\ format_belief_block (fun _ => []) None demo_store
     = (Ok (belief_header ++ newline
            ++ txt "- User studies the margas (80%)" ++ newline ++ newline),
        demo_store)
  /\ format_cognitive_block (fun _ => []) demo_patterns
     = (Ok (cognitive_header ++ newline
            ++ txt "- P2 (90%)" ++ newline
            ++ txt "- P1 (70%)" ++ newline
            ++ newline ++ txt "Dominant decision archetype: depth-first" ++ newline
            ++ newline ++ txt "Active cognitive tensions:" ++ newline
            ++ txt "- Q?" ++ newline
            ++ newline
            ++ txt "When responding: align with cognitive style. "
            ++ txt "Flag contradictions to archetype. "
            ++ txt "Apply cross-domain transfer when relevant. "
            ++ txt "No lists. Direct prose only. Name patterns by label."
            ++ newline),
        demo_patterns).
Proof.
  destruct (context_blocks_pure_sorted (fun _ => []) demo_patterns demo_store None)
    as [_ [_ [[Hsame _] [_ [_ [_ Hcog]]]]]].
  destruct (context_blocks_pure_sorted (fun _ => []) demo_log demo_log None)
    as [_ [_ [_ [[_ [Hnb Hnp]] _]]]].
  destruct (context_blocks_pure_sorted (fun _ => []) demo_store demo_store None)
    as [_ [_ [_ [_ [[_ Hbel] _]]]]].
  split; [apply Hsame; vm_compute; reflexivity|].
  split; [apply Hnb; left; reflexivity|].
  split; [apply Hnp; left; reflexivity|].
  split.
  { apply (Hbel [ JObj [ (txt "belief", JStr (txt "User studies the margas"));
                         (txt "confidence", JFloat (4 # 5)) ] ]).
    - right. split; [reflexivity|]. right.
      exists (match belief_file demo_store with
              | Some (JObj fields) => fields
              | _ => []
              end).
      split; vm_compute; reflexivity.
    - vm_compute. reflexivity. }
  split.
  { apply (Hcog [ JObj [ (txt "pattern", JStr (txt "P1"));
                         (txt "confidence", JFloat (7 # 10)) ];
                  JObj [ (txt "pattern", JStr (txt "P2"));
                         (txt "confidence", JFloat (9 # 10)) ] ]).
    split.
    - exists (match pattern_file demo_patterns with
              | Some (JObj fields) => fields
              | _ => []
              end).
      split; [vm_compute; reflexivity|]. split; [vm_compute; reflexivity|].
      split; [vm_compute; reflexivity|]. right.
      exists [ (txt "dominant", JStr (txt "depth-first")) ].
      vm_compute. reflexivity.
    - right.
      exists (match tension_file demo_patterns with
              | Some (JObj fields) => fields
              | _ => []
              end).
      split; [vm_compute; reflexivity|]. right.
      exists [ JObj [ (txt "strategic_question", JStr (txt "Q?"));
                      (txt "severity", JFloat (3 # 5)) ] ].
      split; vm_compute; reflexivity. }
  split; vm_compute; reflexivity.
Defined.

(** ** The stores that the engine produces *)

Section Reachability.

Variable list_of_set : list text -> list text.

Local Open Scope engine_scope.

Lemma is_entry_ok (e : json) : is_entry e -> entry_ok e.
Proof.
  intros [uid [now [q [a [tags [conf [E Hc]]]]]]]. subst e. split.
  - cbn [wf_json forallb snd]. rewrite strings_wf.
    change (wf_json (JFloat conf)) with (number_reads_back (JFloat conf)).
    rewrite Hc. reflexivity.
  - eexists. reflexivity.
Qed.

Lemma append_is_entry (c : append_call) (s : state) :
  exists e s', append list_of_set c s = (Ok e, s') /\ is_entry e.
Proof.
  exists (make_entry list_of_set (ac_uid c) (ac_now c) (ac_question c)
            (ac_answer c) (ac_extra_tags c)).
  exists (snd (append list_of_set c s)). split; [reflexivity|].
  exists (ac_uid c), (ac_now c), (ac_question c), (ac_answer c),
    (entry_tags list_of_set (ac_question c) (ac_answer c) (ac_extra_tags c)),
    (_score_confidence (ac_question c) (ac_answer c)).
  split; [reflexivity | apply score_reads_back].
Qed.

Lemma join_tags_strings (tags : list text) :
  join_tags (JArr (map JStr tags)) = Ok (join (txt ", ") tags).
Proof.
  unfold join_tags. cbn [py_iter rbind].
  assert (E : rmap (fun t => match t with JStr s => Ok s | _ => Raise TypeError end)
                (map JStr tags) = Ok tags).
  { induction tags as [|t tags IH]; [reflexivity|].
    cbn [map rmap rbind]. now rewrite IH. }
  now rewrite E.
Qed.

Lemma format_interaction_entry (e : json) :
  is_entry e -> exists iv, format_interaction e = Ok iv.
Proof.
  intros [uid [now [q [a [tags [conf [E _]]]]]]]. subst e.
  unfold format_interaction.
  change (py_get (JObj _) (txt "tags") (JArr [])) with (Ok (JArr (map JStr tags))).
  cbn [rbind]. rewrite join_tags_strings. cbn [rbind].
  eexists. reflexivity.
Qed.

Lemma format_interactions_entries (es : list json) :
  Forall is_entry es -> exists ivs, _format_interactions es = Ok ivs.
Proof.
  intros H. unfold _format_interactions.
  induction H as [|e es He Hes [ivs IH]].
  - eexists. reflexivity.
  - destruct (format_interaction_entry e He) as [iv E].
    cbn [rmap]. rewrite E, IH. eexists. reflexivity.
Qed.

Lemma Forall_skipn_keep {A} (P : A -> Prop) (n : nat) (l : list A) :
  Forall P l -> Forall P (skipn n l).
Proof.
  revert l. induction n as [|n IH]; intros l H; [exact H|].
  destruct l as [|x l]; [constructor|]. inversion H; subst. simpl. now apply IH.
Qed.

Lemma Forall_limit (P : json -> Prop) (n : option Z) (es : list json) :
  Forall P es -> Forall P (limit n es).
Proof.
  intros H. unfold limit. destruct n as [n'|]; [|exact H].
  destruct (Z.eqb n' 0); [exact H|].
  unfold slice_from. destruct (Z.ltb (- n') 0); now apply Forall_skipn_keep.
Qed.

(** The files that a run of [run_reflection] leaves, whatever its outcome *)
Lemma run_reflection_files (config : EngineConfig) (llm_fn : adapter) (now : text)
  (s s' : state) (r : result json) :
  run_reflection config llm_fn now s = (r, s') ->
  log_file s' = log_file s
  /\ pattern_file s' = pattern_file s
  /\ tension_file s' = tension_file s
  /\ (belief_file s' = belief_file s
      \/ exists count0 count filtered,
           stored_reflection_count s = Ok count0
           /\ py_add1 count0 = Ok count
           /\ belief_file s'
              = Some (JObj [ (txt "last_updated", JStr now);
                             (txt "reflection_count", count);
                             (txt "beliefs", JArr filtered) ])).
Proof.
  unfold run_reflection, bind at 1.
  pose proof (load_log_state (Some (reflection_window config)) s) as Hl.
  destruct (load_log (Some (reflection_window config)) s) as [[entries|e] s1];
    simpl in Hl; subst s1;
    [|intros H; injection H as <- <-; repeat split; now left].
  destruct entries as [|e0 entries'];
    [intros H; injection H as <- <-; repeat split; now left|].
  set (entries := e0 :: entries') in *.
  unfold bind at 1.
  pose proof (load_beliefs_state s) as Hb.
  destruct (load_beliefs s) as [[existing|e] s1]; simpl in Hb; subst s1;
    [|intros H; injection H as <- <-; repeat split; now left].
  unfold bind at 1, get_state. unfold bind at 1.
  assert (Hc : (match belief_file s with
                | Some doc => lift (py_get doc (txt "reflection_count") (JInt 0))
                | None => ret (JInt 0)
                end) s = (stored_reflection_count s, s)).
  { unfold stored_reflection_count. now destruct (belief_file s). }
  rewrite Hc.
  destruct (stored_reflection_count s) as [count0|e];
    [|intros H; injection H as <- <-; repeat split; now left].
  unfold bind at 1, lift at 1.
  destruct (_format_interactions entries) as [ivs|e];
    [|intros H; injection H as <- <-; repeat split; now left].
  unfold bind at 1, call_llm.
  destruct (llm_fn _ _) as [raw|e];
    [|intros H; injection H as <- <-; repeat split; now left].
  unfold bind at 1, lift at 1.
  destruct (py_iter (_parse_beliefs raw)) as [items|e];
    [|intros H; injection H as <- <-; repeat split; now left].
  unfold bind at 1, lift at 1.
  destruct (filter_confident (min_belief_confidence config) items) as [filtered|e];
    [|intros H; injection H as <- <-; repeat split; now left].
  unfold bind at 1, lift at 1.
  destruct (py_add1 count0) as [count|e] eqn:Ea;
    [|intros H; injection H as <- <-; repeat split; now left].
  unfold bind, _save_beliefs, write_beliefs, ret. intros H.
  injection H as <- <-. repeat split. right.
  exists count0, count, filtered. repeat split. exact Ea.
Qed.

(** The files that a run of [run_synthesis] leaves, whatever its outcome *)
Lemma run_synthesis_files (config : EngineConfig) (llm_fn : adapter)
  (now1 now2 : text) (s s' : state) (r : result json) :
  run_synthesis config llm_fn now1 now2 s = (r, s') ->
  log_file s' = log_file s
  /\ belief_file s' = belief_file s
  /\ ((pattern_file s' = pattern_file s /\ tension_file s' = tension_file s)
      \/ exists f1 f2,
           pattern_file s' = Some (JObj f1) /\ tension_file s' = Some (JObj f2)).
Proof.
  unfold run_synthesis, bind at 1.
  pose proof (load_beliefs_state s) as Hb.
  destruct (load_beliefs s) as [[beliefs|e] s1]; simpl in Hb; subst s1;
    [|intros H; injection H as <- <-; repeat split; now left].
  destruct (py_truthy beliefs); cbn [negb];
    [|intros H; injection H as <- <-; repeat split; now left].
  unfold bind at 1.
  pose proof (log_count_state s) as Hlc.
  destruct (log_count s) as [[n|e] s1]; simpl in Hlc; subst s1;
    [|intros H; injection H as <- <-; repeat split; now left].
  unfold bind at 1.
  pose proof (load_patterns_state s) as Hp.
  destruct (load_patterns s) as [[existing|e] s1]; simpl in Hp; subst s1;
    [|intros H; injection H as <- <-; repeat split; now left].
  unfold bind at 1, lift at 1.
  destruct (py_get existing (txt "synthesis_count") (JInt 0)) as [sc|e];
    [|intros H; injection H as <- <-; repeat split; now left].
  unfold bind at 1, call_llm.
  destruct (llm_fn _ _) as [raw|e];
    [|intros H; injection H as <- <-; repeat split; now left].
  destruct (py_truthy (_parse_result raw)); cbn [negb];
    [|intros H; injection H as <- <-; repeat split; now left].
  unfold bind at 1, lift at 1.
  destruct (py_add1 sc) as [count|e];
    [|intros H; injection H as <- <-; repeat split; now left].
  unfold bind at 1, _save_synthesis.
  unfold bind at 1, lift at 1.
  destruct (py_get (_parse_result raw) (txt "cognitive_patterns") (JArr []))
    as [patterns|e];
    [|intros H; injection H as <- <-; repeat split; now left].
  unfold bind at 1, lift at 1.
  destruct (py_get (_parse_result raw) (txt "tensions") (JArr [])) as [tensions|e];
    [|intros H; injection H as <- <-; repeat split; now left].
  unfold bind at 1, lift at 1.
  destruct (py_get (_parse_result raw) (txt "decision_archetype") (JObj []))
    as [archetype|e];
    [|intros H; injection H as <- <-; repeat split; now left].
  unfold bind at 1, lift at 1.
  destruct (py_get (_parse_result raw) (txt "abstraction_ladder") (JObj []))
    as [ladder|e];
    [|intros H; injection H as <- <-; repeat split; now left].
  unfold bind at 1, lift at 1.
  destruct (py_len patterns) as [total|e];
    [|intros H; injection H as <- <-; repeat split; now left].
  unfold bind, lift, ret, write_patterns, write_tensions; cbv beta iota.
  destruct (py_len patterns) as [n1|e];
    [destruct (py_len tensions) as [n2|e]|];
    intros H; injection H as <- <-;
    (split; [reflexivity | split; [reflexivity |]]);
    right; do 2 eexists; split; reflexivity.
Qed.

Lemma store_ok_empty : store_ok empty_state.
Proof.
  split; [|split; [now left | split; now left]].
  exists []. split; [|constructor]. split; [constructor | now left].
Qed.

Lemma store_ok_after_call (s : state) (c : call) :
  store_ok s -> store_ok (after_call list_of_set s c).
Proof.
  intros [[es [Hw He]] [Hb [Hp Ht]]]. destruct c as [a | config llm_fn now | config llm_fn now1 now2].
  - cbn [after_call].
    destruct (append_written list_of_set a s es Hw)
      as [e [s' [E [Hw' [E1 [E2 [E3 _]]]]]]].
    destruct (append_is_entry a s) as [e2 [s2 [E' He2]]].
    rewrite E in E'. injection E' as <- <-. rewrite E. cbn [snd].
    split; [|split; [now rewrite E1 | split; [now rewrite E2|]]].
    + exists (es ++ [e]). split; [exact Hw'|].
      apply Forall_app. split; [exact He | now constructor].
    + unfold tension_doc_ok in *. now rewrite E3.
  - cbn [after_call].
    destruct (run_reflection config llm_fn now s) as [r s'] eqn:E.
    destruct (run_reflection_files config llm_fn now s s' r E)
      as [E1 [E2 [E3 Hbel]]].
    cbn [snd]. split; [|split; [|split]].
    + exists es. split; [|exact He]. destruct Hw as [Hes Hf]. split; [exact Hes|].
      now rewrite E1.
    + destruct Hbel as [Hsame | [count0 [count [filtered [Hc [Ha Hnew]]]]]].
      * now rewrite Hsame.
      * right. unfold stored_reflection_count in Hc.
        destruct Hb as [Hnone | [now0 [z [bs Hdoc]]]].
        -- rewrite Hnone in Hc. injection Hc as <-. simpl in Ha.
           injection Ha as <-. now exists now, (0 + 1)%Z, filtered.
        -- rewrite Hdoc in Hc. vm_compute in Hc. injection Hc as <-.
           simpl in Ha. injection Ha as <-. now exists now, (z + 1)%Z, filtered.
    + now rewrite E2.
    + unfold tension_doc_ok in *. now rewrite E3.
  - cbn [after_call].
    destruct (run_synthesis config llm_fn now1 now2 s) as [r s'] eqn:E.
    destruct (run_synthesis_files config llm_fn now1 now2 s s' r E)
      as [E1 [E2 Hw']].
    cbn [snd]. split; [|split; [now rewrite E2 | ]].
    + exists es. split; [|exact He]. destruct Hw as [Hes Hf]. split; [exact Hes|].
      now rewrite E1.
    + destruct Hw' as [[E3 E4] | [f1 [f2 [E3 E4]]]].
      * split; [now rewrite E3 | unfold tension_doc_ok in *; now rewrite E4].
      * split; [right; now exists f1 | right; now exists f2].
Qed.

(** Every store that the engine produces has the shape [store_ok]. *)
Lemma reachable_store_ok (s : state) : reachable list_of_set s -> store_ok s.
Proof.
  intros [calls E]. subst s.
  assert (H : forall s0, store_ok s0 ->
                         store_ok (fold_left (after_call list_of_set) calls s0)).
  { induction calls as [|c calls IH]; intros s0 H0; [exact H0|].
    simpl. apply IH. now apply store_ok_after_call. }
  apply H. apply store_ok_empty.
Qed.

(** On such a store both stages can read their inputs, and the tension
    file, if any, holds an object. *)
Lemma store_ok_inputs (config : EngineConfig) (s : state) :
  store_ok s ->
  reflection_inputs_ok config s /\ synthesis_inputs_ok s /\ tension_doc_ok s.
Proof.
  intros [[es [Hw He]] [Hb [Hp Ht]]].
  assert (Hbel : exists existing, load_beliefs s = (Ok existing, s)).
  { unfold load_beliefs, bind, get_state, lift, ret.
    destruct Hb as [Hb | [now [z [bs Hb]]]]; rewrite Hb; eexists; reflexivity. }
  destruct Hbel as [existing Hbel].
  split; [|split; [|exact Ht]].
  - destruct (format_interactions_entries
                (limit (Some (reflection_window config)) es)
                (Forall_limit is_entry _ es He)) as [ivs Hivs].
    assert (Hcount : exists z, stored_reflection_count s = Ok (JInt z)).
    { unfold stored_reflection_count.
      destruct Hb as [Hb | [now [z [bs Hb]]]]; rewrite Hb.
      - now exists 0%Z.
      - exists z. reflexivity. }
    destruct Hcount as [z Hz].
    exists (limit (Some (reflection_window config)) es), ivs, existing,
      (JInt z), (JInt (z + 1)).
    repeat split; try assumption.
    now apply load_log_written.
  - destruct Hp as [Hp | [fields Hp]].
    + eexists existing, _, (JInt 0). split; [exact Hbel|]. split.
      * unfold load_patterns, bind, get_state, ret. rewrite Hp. reflexivity.
      * reflexivity.
    + exists existing, (JObj fields),
        (match dict_lookup fields (txt "synthesis_count") with
         | Some v => v
         | None => JInt 0
         end).
      split; [exact Hbel|]. split; [|reflexivity].
      unfold load_patterns, bind, get_state, ret. now rewrite Hp.
Qed.

End Reachability.

(** * Further properties of the code *)

(** ** core.py: the score *)

Section ScoreReach.

Local Open Scope Q_scope.

(** X1.  The score never exceeds 0.90 (the upper clamp 0.95 is out of reach of
    0.85 + 0.05); it is at least 0.85 exactly when the answer has no hedge;
    from eight hedges on it is the floor 0.30. *)
Theorem score_confidence_reach (question answer : text) :
  _score_confidence question answer <= 9 # 10
  /\ (85 # 100 <= _score_confidence question answer <-> hedge_count answer = 0%nat)
  /\ ((8 <= hedge_count answer)%nat -> _score_confidence question answer = 3 # 10).
Proof.
  unfold _score_confidence.
  set (h := hedge_count answer). set (b := length_ok answer).
  split; [|split].
  - rewrite confidence_of_hundredths. destruct b; unfold Qle; cbn [Qnum Qden]; lia.
  - rewrite confidence_of_hundredths. destruct b; unfold Qle; cbn [Qnum Qden]; lia.
  - intros H8. unfold confidence_of, py_round2.
    rewrite (round_half_even_Z _ 30); [reflexivity|].
    rewrite raw_score_hundredths, clamp_hundredths.
    destruct b; unfold Qeq, Qmult, inject_Z; cbn [Qnum Qden]; lia.
Qed.

Lemma score_confidence_reach_witness :
  _score_confidence (txt "Will it rain?")
    (txt "maybe, perhaps, possibly; it might, it could; unclear, uncertain, depends")
  = 3 # 10.
Proof.
  destruct (score_confidence_reach (txt "Will it rain?")
              (txt "maybe, perhaps, possibly; it might, it could; unclear, uncertain, depends"))
    as [_ [_ H]].
  apply H. vm_compute. lia.
Defined.

End ScoreReach.

(** ** core.py: tag derivation *)

Section TagShape.

Lemma lower_char_idempotent (c : ascii) : lower_char (lower_char c) = lower_char c.
Proof.
  destruct c as [b0 b1 b2 b3 b4 b5 b6 b7].
  destruct b0, b1, b2, b3, b4, b5, b6, b7; vm_compute; reflexivity.
Qed.

Lemma lower_idempotent (t : text) : lower (lower t) = lower t.
Proof.
  unfold lower. rewrite map_map. apply map_ext. apply lower_char_idempotent.
Qed.

Lemma is_word_lower_char (c : ascii) : is_word (lower_char c) = is_word c.
Proof.
  destruct c as [b0 b1 b2 b3 b4 b5 b6 b7].
  destruct b0, b1, b2, b3, b4, b5, b6, b7; vm_compute; reflexivity.
Qed.

Lemma is_word_lower (t : text) : forallb is_word (lower t) = forallb is_word t.
Proof.
  induction t as [|c t IH]; [reflexivity|].
  simpl. now rewrite is_word_lower_char, IH.
Qed.

Lemma sublist_filter {A B} (f : A -> B) (p : A -> bool) (l : list A) :
  sublist (map f (filter p l)) (map f l).
Proof.
  induction l as [|x l IH]; simpl; [constructor|].
  destruct (p x); simpl; now constructor.
Qed.

Lemma sublist_NoDup {A} (l1 l2 : list A) : sublist l1 l2 -> NoDup l2 -> NoDup l1.
Proof.
  assert (Hin : forall (l1 l2 : list A), sublist l1 l2 -> forall x, In x l1 -> In x l2).
  { intros a b H. induction H; intros y Hy; simpl in *; intuition. }
  intros H. induction H; intros Hn.
  - constructor.
  - inversion Hn; subst. auto.
  - inversion Hn; subst. constructor; [|auto].
    intros Hx. eapply Hin in Hx; [|eassumption]. contradiction.
Qed.

Lemma tag_labels_distinct : NoDup (map fst _TAG_PATTERNS).
Proof.
  unfold _TAG_PATTERNS. cbn [map fst].
  repeat (constructor; [simpl; intuition discriminate|]). constructor.
Qed.

(** X2.  The labels come out in the order of the dictionary [_TAG_PATTERNS],
    each at most once, whatever the order of the words in the text; and
    the case of the text does not matter. *)
Theorem auto_tag_order_and_case (t : text) :
  sublist (_auto_tag t) (map fst _TAG_PATTERNS)
  /\ NoDup (_auto_tag t)
  /\ _auto_tag (lower t) = _auto_tag t.
Proof.
  assert (H : sublist (_auto_tag t) (map fst _TAG_PATTERNS))
    by apply sublist_filter.
  split; [exact H|]. split.
  - exact (sublist_NoDup _ _ H tag_labels_distinct).
  - unfold _auto_tag. now rewrite lower_idempotent.
Qed.

(** A whole-word pattern of (non-empty) words is found in a text made of
    word characters only when the text is one of the words. *)
Lemma found_single_word (ws : list text) (t : text) :
  ws <> [] -> Forall (fun w => w <> []) ws ->
  forallb is_word t = true ->
  (found (whole_word (map lit_chars ws)) t = true <-> In t ws).
Proof.
  intros Hne Hw Ht.
  assert (Hfound : found (whole_word (map lit_chars ws)) t = true
                   <-> search_from (whole_word (map lit_chars ws)) false t <> None).
  { unfold found, search.
    destruct (search_from _ false t); split; congruence. }
  rewrite Hfound, search_from_iff.
  assert (Hlast : forall u, u <> [] -> forallb is_word u = true ->
                            forall pw, last_is_word pw u = true).
  { intros u Hu Hall pw. unfold last_is_word.
    destruct (rev u) as [|c r] eqn:E.
    - apply (f_equal (@rev ascii)) in E. rewrite rev_involutive in E.
      now contradiction Hu.
    - rewrite forallb_forall in Hall. apply Hall. apply in_rev.
      rewrite E. now left. }
  assert (Hhead : forall x, x <> [] -> forallb is_word x = true ->
                            head_is_word x = true).
  { intros [|c x] Hx Hall; [now contradiction Hx|].
    simpl in *. now apply andb_true_iff in Hall. }
  split.
  - intros [u [x [E H]]].
    apply (match_here_whole_word ws _ _ Hne) in H. destruct H as [Hb Hex].
    apply Exists_exists in Hex. destruct Hex as [w [Hin [rest [Ex Ha]]]].
    assert (Hwne : w <> []).
    { rewrite Forall_forall in Hw. now apply Hw. }
    subst x t. rewrite !forallb_app in Ht.
    apply andb_true_iff in Ht. destruct Ht as [Hu Ht].
    apply andb_true_iff in Ht. destruct Ht as [Hww Hr].
    assert (Hx : head_is_word (w ++ rest) = true).
    { apply Hhead; [destruct w; [now contradiction Hwne | discriminate]|].
      rewrite forallb_app. now rewrite Hww, Hr. }
    rewrite Hx in Hb.
    destruct u as [|c u].
    + rewrite (Hlast w Hwne Hww) in Ha.
      destruct rest as [|d rest].
      * simpl. now rewrite app_nil_r.
      * rewrite (Hhead (d :: rest)) in Ha by (discriminate || exact Hr).
        discriminate.
    + rewrite (Hlast (c :: u)) in Hb by (discriminate || exact Hu).
      discriminate.
  - intros Hin. exists [], t. split; [reflexivity|].
    assert (Htne : t <> []).
    { rewrite Forall_forall in Hw. now apply Hw. }
    apply (match_here_whole_word ws _ _ Hne).
    change (last_is_word false []) with false.
    split; [now rewrite (Hhead t Htne Ht)|].
    apply Exists_exists. exists t. split; [exact Hin|].
    exists []. split; [now rewrite app_nil_r|].
    now rewrite (Hlast t Htne Ht).
Qed.

(** The single-word patterns, by their words *)
Lemma single_word_keywords (tag : string) (pat : regex) :
  In tag single_word_labels -> In (tag, pat) _TAG_PATTERNS ->
  pat = whole_word (map lit_chars (keywords pat))
  /\ keywords pat <> []
  /\ Forall (fun w => w <> []) (keywords pat)
  /\ forall pat', In (tag, pat') _TAG_PATTERNS -> pat' = pat.
Proof.
  intros Hs Hin. unfold _TAG_PATTERNS in Hin.
  repeat (destruct Hin as [Hin | Hin];
          [injection Hin as <- <-;
           first [ exfalso; simpl in Hs; intuition discriminate
                 | split; [reflexivity|];
                   split; [discriminate|];
                   split; [repeat (constructor; [discriminate|]); constructor|];
                   intros pat' H'; unfold _TAG_PATTERNS in H';
                   repeat (destruct H' as [H' | H'];
                           [first [discriminate H' | now injection H' as <-]|]);
                   contradiction ]
          |]).
  contradiction.
Qed.

(** X3.  For a label whose pattern lists single words, a text that is one word
    (word characters only) gets the label exactly when, lower-cased, it is
    one of the words of the pattern: a longer word that merely starts with
    a keyword (a plural, an inflected form) does not count. *)
Theorem auto_tag_single_word (tag : string) (pat : regex) (t : text) :
  In tag single_word_labels -> In (tag, pat) _TAG_PATTERNS ->
  forallb is_word t = true ->
  (In tag (_auto_tag t) <-> In (lower t) (keywords pat)).
Proof.
  intros Hs Hin Ht.
  destruct (single_word_keywords tag pat Hs Hin) as [E [Hne [Hw Huniq]]].
  rewrite In_auto_tag.
  assert (Hl : forallb is_word (lower t) = true) by now rewrite is_word_lower.
  pose proof (found_single_word (keywords pat) (lower t) Hne Hw Hl) as Hf.
  rewrite <- E in Hf. split.
  - intros [pat' [Hin' Hfound]]. apply Huniq in Hin'. subst pat'. now apply Hf.
  - intros H. exists pat. split; [exact Hin | now apply Hf].
Qed.

End TagShape.

Lemma auto_tag_single_word_witness :
  (In "debugging"%string (_auto_tag (txt "Errors")) <->
   In (lower (txt "Errors"))
      (map txt ["error"; "bug"; "fix"; "broken"; "fail"; "crash"; "exception";
                "traceback"]%string)).
Proof.
  apply (auto_tag_single_word "debugging"%string
           (whole_word (words ["error"; "bug"; "fix"; "broken"; "fail"; "crash";
                               "exception"; "traceback"]%string))
           (txt "Errors")).
  - vm_compute. tauto.
  - vm_compute. tauto.
  - vm_compute. reflexivity.
Defined.

(** ** core.py: the episodic log *)

Section LogMore.

Variable list_of_set : list text -> list text.

(** X4.  Whatever the question and the answer hold (line breaks, quotes,
    characters outside ASCII), [log_interaction] returns the record and
    appends it to the old content of the log as one line of printable
    ASCII that [json.loads] reads back as the record; it touches no other
    file and does not call the model. *)
Theorem log_interaction_one_line (uid now question answer : text)
  (extra : option (list text)) (s : state) :
  exists e,
    fst (log_interaction list_of_set uid now question answer extra s) = Ok e
    /\ log_file (snd (log_interaction list_of_set uid now question answer extra s))
       = Some (match log_file s with Some t => t | None => [] end
               ++ json_dumps e ++ newline)
    /\ forallb printable (json_dumps e) = true
    /\ json_loads (json_dumps e) = Ok e
    /\ belief_file (snd (log_interaction list_of_set uid now question answer extra s))
       = belief_file s
    /\ pattern_file (snd (log_interaction list_of_set uid now question answer extra s))
       = pattern_file s
    /\ tension_file (snd (log_interaction list_of_set uid now question answer extra s))
       = tension_file s
    /\ llm_calls (snd (log_interaction list_of_set uid now question answer extra s))
       = llm_calls s.
Proof.
  destruct (log_interaction_spec list_of_set uid now question answer extra s)
    as [e [E [He _]]].
  exists e. rewrite E. cbn [fst snd log_file belief_file pattern_file tension_file llm_calls].
  split; [reflexivity|]. split; [reflexivity|].
  split; [now destruct (entry_object_line e He)|].
  split; [apply json_loads_dumps; now destruct He|].
  repeat split.
Qed.

(** X5.  Without extra tags (none given, or an empty list) the tags of the
    record are the derived labels, in the order of the dictionary.  With
    extra tags they are [list(set(tags + extra_tags))]: when that lists
    each element once, the record holds every derived label and every extra
    tag, nothing else, and nothing twice. *)
Theorem log_interaction_tags (uid now question answer : text)
  (extra : option (list text)) (s s' : state) (e : json) :
  lists_set list_of_set ->
  log_interaction list_of_set uid now question answer extra s = (Ok e, s') ->
  exists tags,
    py_getitem e (txt "tags") = Ok (JArr (map JStr tags))
    /\ match extra with
       | None | Some [] =>
           tags = map txt (_auto_tag (question ++ txt " " ++ answer))
       | Some extras =>
           NoDup tags
           /\ forall x, In x tags <->
                        In x (map txt (_auto_tag (question ++ txt " " ++ answer)))
                        \/ In x extras
       end.
Proof.
  intros Hset H.
  assert (E : e = make_entry list_of_set uid now question answer extra).
  { unfold log_interaction, bind, get_state, write_log, ret in H. congruence. }
  subst e. exists (entry_tags list_of_set question answer extra).
  split; [reflexivity|].
  destruct extra as [[|x0 extras]|]; [reflexivity | | reflexivity].
  unfold entry_tags.
  destruct (Hset (map txt (_auto_tag (question ++ txt " " ++ answer)) ++ x0 :: extras))
    as [Hnd Hin].
  split; [exact Hnd|].
  intros x. rewrite Hin. apply in_app_iff.
Qed.

(** X6.  A negative limit does not count from the end: [load_log(n)] with
    [n < 0] is [entries[-n:]], the log without its oldest [-n] records. *)
Theorem load_log_negative_limit (calls : list append_call) (s0 : state) (n : Z) :
  log_file s0 = None -> (n < 0)%Z ->
  load_log (Some n) (snd (run_appends list_of_set calls s0))
  = (Ok (skipn (Z.to_nat (- n)) (fst (run_appends list_of_set calls s0))),
     snd (run_appends list_of_set calls s0)).
Proof.
  intros H0 Hn.
  assert (Hinit : log_written s0 []) by (split; [constructor | now left]).
  destruct (run_appends_written list_of_set calls s0 [] Hinit) as [Hw _].
  simpl in Hw.
  rewrite (load_log_written _ _ (Some n) Hw).
  unfold limit. destruct (Z.eqb_spec n 0) as [E|_]; [lia|].
  unfold slice_from. destruct (Z.ltb_spec (- n) 0) as [Hc|_]; [lia|].
  set (es := fst (run_appends list_of_set calls s0)).
  destruct (Z.min_spec (- n) (Z.of_nat (List.length es))) as [[Hlt ->] | [Hge ->]].
  - reflexivity.
  - rewrite Nat2Z.id. rewrite skipn_all.
    rewrite skipn_all2 by lia. reflexivity.
Qed.

End LogMore.

Lemma first_occurrences_lists_set : lists_set first_occurrences.
Proof.
  intros l. unfold first_occurrences. split.
  - apply NoDup_rev. apply NoDup_nodup.
  - intros x. rewrite <- in_rev, nodup_In, <- in_rev. reflexivity.
Qed.

Lemma log_interaction_one_line_witness :
  exists e,
    fst (append first_occurrences demo_call demo_log) = Ok e
    /\ log_file (snd (append first_occurrences demo_call demo_log))
       = Some (match log_file demo_log with Some t => t | None => [] end
               ++ json_dumps e ++ newline)
    /\ forallb printable (json_dumps e) = true
    /\ json_loads (json_dumps e) = Ok e
    /\ belief_file (snd (append first_occurrences demo_call demo_log))
       = belief_file demo_log
    /\ pattern_file (snd (append first_occurrences demo_call demo_log))
       = pattern_file demo_log
    /\ tension_file (snd (append first_occurrences demo_call demo_log))
       = tension_file demo_log
    /\ llm_calls (snd (append first_occurrences demo_call demo_log))
       = llm_calls demo_log.
Proof.
  apply (log_interaction_one_line first_occurrences (ac_uid demo_call)
           (ac_now demo_call) (ac_question demo_call) (ac_answer demo_call)
           (ac_extra_tags demo_call) demo_log).
Defined.

Lemma log_interaction_tags_witness :
  exists tags,
    py_getitem
      (make_entry first_occurrences (txt "ab12cd37") (txt "2026-01-01T00:10:00+00:00")
         (txt "Is flask slow?") (txt "I prefer fastapi.")
         (Some [txt "python"; txt "source:chat"]))
      (txt "tags") = Ok (JArr (map JStr tags))
    /\ NoDup tags
    /\ forall x, In x tags <->
                 In x (map txt (_auto_tag (txt "Is flask slow?" ++ txt " "
                                           ++ txt "I prefer fastapi.")))
                 \/ In x [txt "python"; txt "source:chat"].
Proof.
  apply (log_interaction_tags first_occurrences (txt "ab12cd37")
           (txt "2026-01-01T00:10:00+00:00") (txt "Is flask slow?")
           (txt "I prefer fastapi.") (Some [txt "python"; txt "source:chat"])
           demo_log
           (snd (log_interaction first_occurrences (txt "ab12cd37")
                   (txt "2026-01-01T00:10:00+00:00") (txt "Is flask slow?")
                   (txt "I prefer fastapi.") (Some [txt "python"; txt "source:chat"])
                   demo_log))).
  - exact first_occurrences_lists_set.
  - reflexivity.
Defined.

Lemma load_log_negative_limit_witness :
  load_log (Some (-1)%Z) demo_log
  = (Ok (skipn 1 (fst (run_appends (fun l => l) demo_calls empty_state))), demo_log).
Proof.
  apply (load_log_negative_limit (fun l => l) demo_calls empty_state (-1)%Z).
  - reflexivity.
  - lia.
Defined.

(** ** reflection.py: the runs of [run_reflection] *)

Section ReflectionRuns.

Local Open Scope engine_scope.

(** Every run of [run_reflection]: it stops before the adapter is called
    and the state is as it was; or it calls the adapter once and fails
    after that; or it saves and returns. *)
Lemma run_reflection_trace (config : EngineConfig) (llm_fn : adapter) (now : text)
  (s s' : state) (r : result json) :
  run_reflection config llm_fn now s = (r, s') ->
  (s' = s
   /\ ((load_log (Some (reflection_window config)) s = (Ok [], s) /\ r = Ok (JArr []))
       \/ exists e, r = Raise e))
  \/ exists entries ivs existing count0,
       entries <> []
       /\ load_log (Some (reflection_window config)) s = (Ok entries, s)
       /\ _format_interactions entries = Ok ivs
       /\ load_beliefs s = (Ok existing, s)
       /\ stored_reflection_count s = Ok count0
       /\ ((exists e,
              r = Raise e
              /\ s' = with_call s
                        (ReflectionPrompt (List.length entries) ivs
                           (if py_truthy existing then Some existing else None)
                           (min_belief_confidence config))
                        (llm_temperature_reflect config))
           \/ exists count filtered,
                py_add1 count0 = Ok count
                /\ r = Ok (JArr filtered)
                /\ s' = reflected config s entries ivs existing count filtered now).
Proof.
  unfold run_reflection, bind at 1.
  pose proof (load_log_state (Some (reflection_window config)) s) as Hl.
  destruct (load_log (Some (reflection_window config)) s) as [[entries|e] s1] eqn:El;
    simpl in Hl; subst s1;
    [|intros H; injection H as <- <-; left; split; [reflexivity | right; now exists e]].
  destruct entries as [|e0 entries'];
    [intros H; injection H as <- <-; left; split; [reflexivity | left; now split]|].
  set (entries := e0 :: entries') in *.
  unfold bind at 1.
  pose proof (load_beliefs_state s) as Hb.
  destruct (load_beliefs s) as [[existing|e] s1] eqn:Eb; simpl in Hb; subst s1;
    [|intros H; injection H as <- <-; left; split; [reflexivity | right; now exists e]].
  unfold bind at 1, get_state. unfold bind at 1.
  assert (Hc : (match belief_file s with
                | Some doc => lift (py_get doc (txt "reflection_count") (JInt 0))
                | None => ret (JInt 0)
                end) s = (stored_reflection_count s, s)).
  { unfold stored_reflection_count. now destruct (belief_file s). }
  rewrite Hc.
  destruct (stored_reflection_count s) as [count0|e] eqn:Ec;
    [|intros H; injection H as <- <-; left; split; [reflexivity | right; now exists e]].
  unfold bind at 1, lift at 1.
  destruct (_format_interactions entries) as [ivs|e] eqn:Ef;
    [|intros H; injection H as <- <-; left; split; [reflexivity | right; now exists e]].
  intros H. right. exists entries, ivs, existing, count0.
  split; [discriminate|].
  do 4 (split; [first [reflexivity | assumption]|]).
  revert H. unfold bind at 1, call_llm.
  destruct (llm_fn _ _) as [raw|e];
    [|intros H; injection H as <- <-; left; exists e; now split].
  unfold bind at 1, lift at 1.
  destruct (py_iter (_parse_beliefs raw)) as [items|e];
    [|intros H; injection H as <- <-; left; exists e; now split].
  unfold bind at 1, lift at 1.
  destruct (filter_confident (min_belief_confidence config) items) as [filtered|e];
    [|intros H; injection H as <- <-; left; exists e; now split].
  unfold bind at 1, lift at 1.
  destruct (py_add1 count0) as [count|e] eqn:Ea;
    [|intros H; injection H as <- <-; left; exists e; now split].
  unfold bind, _save_beliefs, write_beliefs, ret. intros H.
  injection H as <- <-. right. exists count, filtered. now repeat split.
Qed.

Lemma rmap_length {A B} (f : A -> result B) (l : list A) (l' : list B) :
  rmap f l = Ok l' -> List.length l' = List.length l.
Proof.
  revert l'. induction l as [|a l IH]; intros l' H; simpl in H.
  - now injection H as <-.
  - destruct (f a) as [b|e]; [|discriminate]. simpl in H.
    destruct (rmap f l) as [bs|e]; [|discriminate]. simpl in H.
    injection H as <-. simpl. now rewrite (IH bs).
Qed.

(** At most [n] records come back from [load_log(n)] when [n] is positive. *)
Lemma load_log_length (n : Z) (s : state) (entries : list json) :
  (0 < n)%Z -> load_log (Some n) s = (Ok entries, s) ->
  (Z.of_nat (List.length entries) <= n)%Z.
Proof.
  intros Hn. unfold load_log, bind, get_state, lift, ret.
  destruct (log_file s) as [content|]; [|intros H; injection H as <-; simpl; lia].
  destruct (rmap json_loads _) as [es|e]; [|discriminate].
  destruct (Z.eqb_spec n 0) as [E|_]; [lia|].
  intros H. injection H as <-. unfold slice_from.
  destruct (Z.ltb_spec (- n) 0) as [_|Hc]; [|lia].
  rewrite length_skipn. lia.
Qed.

(** X7.  A run that fails leaves the four files as they were: the belief file
    is written last, after everything that can raise (reading the log and
    the belief file, the adapter, the filter over the parsed beliefs, the
    increment of the stored count). *)
Theorem reflection_failure_keeps_files (config : EngineConfig) (llm_fn : adapter)
  (now : text) (s s' : state) (e : exn) :
  run_reflection config llm_fn now s = (Raise e, s') -> same_files s s'.
Proof.
  intros H. destruct (run_reflection_trace config llm_fn now s s' _ H)
    as [[-> _] | [entries [ivs [existing [count0 [_ [_ [_ [_ [_ Hr]]]]]]]]]].
  - now repeat split.
  - destruct Hr as [[e' [_ ->]] | [count [filtered [_ [Hr _]]]]].
    + now repeat split.
    + discriminate.
Qed.

(** X8.  A run calls the adapter at most once, and not at all when the log is
    empty or missing.  The call is at [llm_temperature_reflect], and the
    prompt is filled with as many interactions as it announces: at least
    one, and at most [reflection_window] when that is positive. *)
Theorem reflection_calls_adapter_once (config : EngineConfig) (llm_fn : adapter)
  (now : text) (s : state) :
  (llm_calls (snd (run_reflection config llm_fn now s)) = llm_calls s
   \/ exists n ivs existing,
        llm_calls (snd (run_reflection config llm_fn now s))
        = (ReflectionPrompt n ivs existing (min_belief_confidence config),
           llm_temperature_reflect config) :: llm_calls s
        /\ List.length ivs = n /\ (1 <= n)%nat
        /\ ((0 < reflection_window config)%Z ->
            (Z.of_nat n <= reflection_window config)%Z))
  /\ (fst (load_log (Some (reflection_window config)) s) = Ok [] ->
      run_reflection config llm_fn now s = (Ok (JArr []), s)).
Proof.
  destruct (run_reflection config llm_fn now s) as [r s'] eqn:H.
  destruct (run_reflection_trace config llm_fn now s s' r H)
    as [[-> Hr] | [entries [ivs [existing [count0 [Hne [Hl [Hf [_ [_ Hr]]]]]]]]]].
  - split; [now left|]. intros Hempty.
    destruct Hr as [[_ ->] | [e ->]]; [reflexivity|].
    exfalso. revert H Hempty. unfold run_reflection, bind at 1.
    pose proof (load_log_state (Some (reflection_window config)) s) as Hs.
    destruct (load_log (Some (reflection_window config)) s) as [[es|e'] s1];
      simpl in Hs; subst s1; simpl; [|discriminate].
    intros H Hempty. injection Hempty as ->. discriminate.
  - split.
    + right. exists (List.length entries), ivs,
        (if py_truthy existing then Some existing else None).
      split.
      * destruct Hr as [[e [_ ->]] | [count [filtered [_ [_ ->]]]]]; reflexivity.
      * split; [exact (rmap_length _ _ _ Hf)|]. split.
        -- destruct entries; [now contradiction Hne | simpl; lia].
        -- intros Hw. exact (load_log_length _ s entries Hw Hl).
    + rewrite Hl. simpl. intros Hempty. injection Hempty as ->.
      now contradiction Hne.
Qed.

(** X9.  What a run returns after reading a log that is not empty is what
    [load_beliefs] returns from then on; the log, the pattern file and the
    tension file are as before. *)
Theorem reflection_then_load_beliefs (config : EngineConfig) (llm_fn : adapter)
  (now : text) (s s' : state) (r : json) :
  run_reflection config llm_fn now s = (Ok r, s') ->
  fst (load_log (Some (reflection_window config)) s) <> Ok [] ->
  load_beliefs s' = (Ok r, s')
  /\ log_file s' = log_file s
  /\ pattern_file s' = pattern_file s
  /\ tension_file s' = tension_file s.
Proof.
  intros H Hlog.
  destruct (run_reflection_trace config llm_fn now s s' _ H)
    as [[-> Hr] | [entries [ivs [existing [count0 [_ [_ [_ [_ [_ Hr]]]]]]]]]].
  - destruct Hr as [[Hl _] | [e He]]; [|discriminate].
    rewrite Hl in Hlog. now contradiction Hlog.
  - destruct Hr as [[e [He _]] | [count [filtered [_ [Hr ->]]]]]; [discriminate|].
    injection Hr as ->. now repeat split.
Qed.

End ReflectionRuns.

Lemma reflection_failure_keeps_files_witness :
  same_files demo_store
    (snd (run_reflection default_config failing_adapter
            (txt "2026-01-01T02:00:00+00:00") demo_store)).
Proof.
  apply (reflection_failure_keeps_files default_config failing_adapter
           (txt "2026-01-01T02:00:00+00:00") demo_store _ RuntimeError).
  vm_compute. reflexivity.
Defined.

Lemma reflection_calls_adapter_once_witness :
  run_reflection default_config demo_llm (txt "2026-01-01T02:00:00+00:00") empty_state
  = (Ok (JArr []), empty_state).
Proof.
  destruct (reflection_calls_adapter_once default_config demo_llm
              (txt "2026-01-01T02:00:00+00:00") empty_state) as [_ H].
  apply H. reflexivity.
Defined.

Lemma reflection_then_load_beliefs_witness :
  load_beliefs demo_store
  = (Ok (JArr [JObj [ (txt "belief", JStr (txt "User studies the margas"));
                      (txt "confidence", JFloat (4 # 5)) ]]), demo_store)
  /\ log_file demo_store = log_file demo_log
  /\ pattern_file demo_store = pattern_file demo_log
  /\ tension_file demo_store = tension_file demo_log.
Proof.
  apply (reflection_then_load_beliefs default_config demo_llm
           (txt "2026-01-01T01:00:00+00:00") demo_log demo_store).
  - vm_compute. reflexivity.
  - vm_compute. discriminate.
Defined.

(** ** synthesis.py: the runs of [run_synthesis] *)

Section SynthesisRuns.

Local Open Scope engine_scope.

(** [_save_synthesis] on an object: it fails before writing when the
    patterns have no length, and writes both files otherwise. *)
Lemma save_synthesis_object (fields : list (text * json)) (count : json)
  (n : nat) (now1 now2 : text) (s : state) :
  _save_synthesis (JObj fields) count n now1 now2 s
  = match py_len (field_or (JObj fields) (txt "cognitive_patterns") (JArr [])) with
    | Ok np => (Ok tt, synthesized s (JObj fields) count n np now1 now2)
    | Raise e => (Raise e, s)
    end.
Proof.
  unfold _save_synthesis, field_or, synthesized.
  cbn [py_get]. unfold bind, lift, write_patterns, write_tensions. cbv beta iota.
  destruct (py_len _); reflexivity.
Qed.

Lemma save_synthesis_other (result_ count : json) (n : nat) (now1 now2 : text)
  (s : state) :
  (forall fields, result_ <> JObj fields) ->
  _save_synthesis result_ count n now1 now2 s = (Raise AttributeError, s).
Proof.
  intros H. destruct result_; try reflexivity. now contradiction (H fields).
Qed.

(** Every run of [run_synthesis]: it stops before the adapter is called
    and the state is as it was; or it calls the adapter once and stops
    before writing; or it writes both files, and returns unless the
    tensions have no length. *)
Lemma run_synthesis_trace (config : EngineConfig) (llm_fn : adapter)
  (now1 now2 : text) (s s' : state) (r : result json) :
  run_synthesis config llm_fn now1 now2 s = (r, s') ->
  (s' = s
   /\ ((exists beliefs,
          load_beliefs s = (Ok beliefs, s) /\ py_truthy beliefs = false
          /\ r = Ok (JObj []))
       \/ exists e,
            r = Raise e
            /\ (fst (load_beliefs s) = Raise e
                \/ fst (log_count s) = Raise e
                \/ fst (load_patterns s) = Raise e
                \/ exists existing,
                     load_patterns s = (Ok existing, s)
                     /\ py_get existing (txt "synthesis_count") (JInt 0)
                        = Raise e)))
  \/ exists beliefs n existing prior,
       load_beliefs s = (Ok beliefs, s) /\ py_truthy beliefs = true
       /\ log_count s = (Ok n, s)
       /\ load_patterns s = (Ok existing, s)
       /\ py_get existing (txt "synthesis_count") (JInt 0) = Ok prior
       /\ ((s' = with_call s (SynthesisPrompt beliefs n)
                   (llm_temperature_synthesize config)
            /\ ((exists raw,
                   llm_fn (SynthesisPrompt beliefs n)
                     (llm_temperature_synthesize config) = Ok raw
                   /\ py_truthy (_parse_result raw) = false
                   /\ r = Ok (JObj []))
                \/ exists e, r = Raise e))
           \/ exists raw fields count np,
                llm_fn (SynthesisPrompt beliefs n)
                  (llm_temperature_synthesize config) = Ok raw
                /\ _parse_result raw = JObj fields
                /\ fields <> []
                /\ py_add1 prior = Ok count
                /\ py_len (field_or (JObj fields) (txt "cognitive_patterns") (JArr []))
                   = Ok np
                /\ s' = synthesized
                          (with_call s (SynthesisPrompt beliefs n)
                             (llm_temperature_synthesize config))
                          (JObj fields) count n np now1 now2
                /\ ((exists nt,
                       py_len (field_or (JObj fields) (txt "tensions") (JArr []))
                       = Ok nt
                       /\ r = Ok (JObj fields))
                    \/ (py_len (field_or (JObj fields) (txt "tensions") (JArr []))
                        = Raise TypeError
                        /\ r = Raise TypeError))).
Proof.
  unfold run_synthesis, bind at 1.
  pose proof (load_beliefs_state s) as Hb.
  destruct (load_beliefs s) as [[beliefs|e] s1] eqn:Eb; simpl in Hb; subst s1;
    [|intros H; injection H as <- <-; left; split; [reflexivity|];
      right; exists e; split; [reflexivity|]; left; reflexivity].
  destruct (py_truthy beliefs) eqn:Et; cbn [negb];
    [|intros H; injection H as <- <-; left; split; [reflexivity|];
      left; exists beliefs; now repeat split].
  unfold bind at 1.
  pose proof (log_count_state s) as Hlc.
  destruct (log_count s) as [[n|e] s1] eqn:En; simpl in Hlc; subst s1;
    [|intros H; injection H as <- <-; left; split; [reflexivity|];
      right; exists e; split; [reflexivity|]; right; left; reflexivity].
  unfold bind at 1.
  pose proof (load_patterns_state s) as Hp.
  destruct (load_patterns s) as [[existing|e] s1] eqn:Ep; simpl in Hp; subst s1;
    [|intros H; injection H as <- <-; left; split; [reflexivity|];
      right; exists e; split; [reflexivity|]; right; right; left; reflexivity].
  unfold bind at 1, lift at 1.
  destruct (py_get existing (txt "synthesis_count") (JInt 0)) as [prior|e] eqn:Es;
    [|intros H; injection H as <- <-; left; split; [reflexivity|];
      right; exists e; split; [reflexivity|]; right; right; right; exists existing; split; first [reflexivity | assumption]].
  intros H. right. exists beliefs, n, existing, prior.
  do 5 (split; [first [reflexivity | assumption]|]).
  revert H. unfold bind at 1, call_llm.
  fold (with_call s (SynthesisPrompt beliefs n) (llm_temperature_synthesize config)).
  set (sc := with_call s (SynthesisPrompt beliefs n) (llm_temperature_synthesize config)).
  destruct (llm_fn _ _) as [raw|e] eqn:El;
    [|intros H; injection H as <- <-; left; split; [reflexivity | right; now exists e]].
  destruct (py_truthy (_parse_result raw)) eqn:Er; cbn [negb];
    [|intros H; injection H as <- <-; left; split; [reflexivity|];
      left; exists raw; now repeat split].
  unfold bind at 1, lift at 1.
  destruct (py_add1 prior) as [count|e] eqn:Ea;
    [|intros H; injection H as <- <-; left; split; [reflexivity | right; now exists e]].
  unfold bind at 1.
  destruct (_parse_result raw) as [| | | | |items|fields] eqn:Ep';
    try (rewrite save_synthesis_other by discriminate;
         intros H; injection H as <- <-; left; split; [reflexivity|];
         right; now exists AttributeError).
  rewrite save_synthesis_object.
  destruct (py_len (field_or (JObj fields) (txt "cognitive_patterns") (JArr [])))
    as [np|e] eqn:Enp;
    [|intros H; injection H as <- <-; left; split; [reflexivity | right; now exists e]].
  assert (Hne : fields <> []) by (destruct fields; [discriminate Er | discriminate]).
  unfold bind, lift, ret. cbn [py_get].
  change (match dict_lookup fields (txt "cognitive_patterns") with
          | Some v => v | None => JArr [] end)
    with (field_or (JObj fields) (txt "cognitive_patterns") (JArr [])).
  change (match dict_lookup fields (txt "tensions") with
          | Some v => v | None => JArr [] end)
    with (field_or (JObj fields) (txt "tensions") (JArr [])).
  rewrite Enp.
  destruct (py_len (field_or (JObj fields) (txt "tensions") (JArr []))) as [nt|e] eqn:Ent;
    intros H; injection H as <- <-; right; exists raw, fields, count, np;
    (do 6 (split; [first [reflexivity | assumption]|])).
  - left. exists nt. now split.
  - right.
    assert (E : e = TypeError).
    { destruct (field_or (JObj fields) (txt "tensions") (JArr []));
        simpl in Ent; congruence. }
    subst e. now split.
Qed.

Lemma stored_synthesis_count_get (s : state) (existing : json) :
  load_patterns s = (Ok existing, s) ->
  py_get existing (txt "synthesis_count") (JInt 0) = stored_synthesis_count s.
Proof.
  unfold load_patterns, bind, get_state, ret, stored_synthesis_count.
  destruct (pattern_file s) as [doc|]; intros H; injection H as <-; reflexivity.
Qed.

(** X10.  A run that returns a result that is not empty has written the pattern
    file and the tension file from it: the stored [synthesis_count] is the
    count stored before (0 without a pattern file) plus 1, the compression
    figures are [log_count()] and the number of patterns, and the tension
    file starts again with nothing resolved.  The log and the belief file
    are as before. *)
Theorem synthesis_persists_result (config : EngineConfig) (llm_fn : adapter)
  (now1 now2 : text) (s s' : state) (r : json) :
  run_synthesis config llm_fn now1 now2 s = (Ok r, s') ->
  py_truthy r = true ->
  exists prior count n np,
    stored_synthesis_count s = Ok prior
    /\ (pattern_file s = None -> prior = JInt 0)
    /\ py_add1 prior = Ok count
    /\ (forall z, prior = JInt z -> count = JInt (z + 1))
    /\ log_count s = (Ok n, s)
    /\ py_len (field_or r (txt "cognitive_patterns") (JArr [])) = Ok np
    /\ pattern_file s' = pattern_file (synthesized s r count n np now1 now2)
    /\ tension_file s' = tension_file (synthesized s r count n np now1 now2)
    /\ log_file s' = log_file s
    /\ belief_file s' = belief_file s.
Proof.
  intros H Hr.
  destruct (run_synthesis_trace config llm_fn now1 now2 s s' _ H)
    as [[_ [[b [_ [_ E]]] | [e [E _]]]]
       | [beliefs [n [existing [prior [Hb [Ht [Hn [Hp [Hs Hrest]]]]]]]]]].
  - injection E as ->. discriminate.
  - discriminate.
  - destruct Hrest as [[_ [[raw [_ [_ E]]] | [e E]]]
                      | [raw [fields [count [np [_ [_ [_ [Ha [Hnp [-> Hend]]]]]]]]]]].
    + injection E as ->. discriminate.
    + discriminate.
    + destruct Hend as [[nt [_ E]] | [_ E]]; [|discriminate].
      injection E as ->.
      exists prior, count, n, np.
      rewrite <- (stored_synthesis_count_get s existing Hp).
      split; [exact Hs|]. split.
      { intros Hnone. revert Hp Hs. unfold load_patterns, bind, get_state, ret.
        rewrite Hnone. intros Hp. injection Hp as <-. cbn. congruence. }
      split; [exact Ha|]. split.
      { intros z ->. simpl in Ha. congruence. }
      now repeat split.
Qed.

(** X11.  After such a run [load_tensions] returns the tensions of the result
    and [load_patterns] returns a document with the patterns and the
    archetype of the result. *)
Theorem synthesis_then_load (config : EngineConfig) (llm_fn : adapter)
  (now1 now2 : text) (s s' : state) (r : json) :
  run_synthesis config llm_fn now1 now2 s = (Ok r, s') ->
  py_truthy r = true ->
  load_tensions s' = (Ok (field_or r (txt "tensions") (JArr [])), s')
  /\ exists doc,
       load_patterns s' = (Ok doc, s')
       /\ py_get doc (txt "cognitive_patterns") (JArr [])
          = Ok (field_or r (txt "cognitive_patterns") (JArr []))
       /\ py_get doc (txt "decision_archetype") (JObj [])
          = Ok (field_or r (txt "decision_archetype") (JObj []))
       /\ py_get doc (txt "abstraction_ladder") (JObj [])
          = Ok (field_or r (txt "abstraction_ladder") (JObj [])).
Proof.
  intros H Hr.
  destruct (run_synthesis_trace config llm_fn now1 now2 s s' _ H)
    as [[_ [[b [_ [_ E]]] | [e [E _]]]]
       | [beliefs [n [existing [prior [Hb [Ht [Hn [Hp [Hs Hrest]]]]]]]]]].
  - injection E as ->. discriminate.
  - discriminate.
  - destruct Hrest as [[_ [[raw [_ [_ E]]] | [e E]]]
                      | [raw [fields [count [np [_ [_ [_ [Ha [Hnp [-> Hend]]]]]]]]]]].
    + injection E as ->. discriminate.
    + discriminate.
    + destruct Hend as [[nt [_ E]] | [_ E]]; [|discriminate].
      injection E as ->. split; [reflexivity|].
      eexists. split; [reflexivity|]. now repeat split.
Qed.

(** X12.  Whatever the outcome, a run leaves the log and the belief file as they
    were, and writes the pattern file and the tension file together or not
    at all.  When it has written them, it returns the result, unless the
    tensions of the result have no length: then it fails with a TypeError
    after the two files were written. *)
Theorem synthesis_writes_both_or_none (config : EngineConfig) (llm_fn : adapter)
  (now1 now2 : text) (s : state) :
  let r := fst (run_synthesis config llm_fn now1 now2 s) in
  let s' := snd (run_synthesis config llm_fn now1 now2 s) in
  log_file s' = log_file s
  /\ belief_file s' = belief_file s
  /\ ((pattern_file s' = pattern_file s /\ tension_file s' = tension_file s
       /\ (r = Ok (JObj []) \/ exists e, r = Raise e))
      \/ exists result_ count n np,
           py_truthy result_ = true
           /\ pattern_file s' = pattern_file (synthesized s result_ count n np now1 now2)
           /\ tension_file s' = tension_file (synthesized s result_ count n np now1 now2)
           /\ (r = Ok result_
               \/ (r = Raise TypeError
                   /\ py_len (field_or result_ (txt "tensions") (JArr []))
                      = Raise TypeError))).
Proof.
  intros r s'. subst r s'.
  destruct (run_synthesis config llm_fn now1 now2 s) as [r s'] eqn:H. cbn [fst snd].
  destruct (run_synthesis_trace config llm_fn now1 now2 s s' _ H)
    as [[-> Hr]
       | [beliefs [n [existing [prior [Hb [Ht [Hn [Hp [Hs Hrest]]]]]]]]]].
  - split; [reflexivity|]. split; [reflexivity|]. left.
    split; [reflexivity|]. split; [reflexivity|].
    destruct Hr as [[b [_ [_ ->]]] | [e [-> _]]]; [now left | right; now exists e].
  - destruct Hrest as [[-> Hr]
                      | [raw [fields [count [np [_ [_ [Hne [Ha [Hnp [-> Hend]]]]]]]]]]].
    + split; [reflexivity|]. split; [reflexivity|]. left.
      split; [reflexivity|]. split; [reflexivity|].
      destruct Hr as [[raw [_ [_ ->]]] | [e ->]]; [now left | right; now exists e].
    + split; [reflexivity|]. split; [reflexivity|]. right.
      exists (JObj fields), count, n, np.
      split; [destruct fields; [now contradiction Hne | reflexivity]|].
      split; [reflexivity|]. split; [reflexivity|].
      destruct Hend as [[nt [_ ->]] | [Hnt ->]]; [now left | right; now split].
Qed.

(** X13.  A run calls the adapter at most once, at
    [llm_temperature_synthesize], with the stored beliefs and the number
    of logged interactions; it does not call it when there are no
    beliefs. *)
Theorem synthesis_calls_adapter_once (config : EngineConfig) (llm_fn : adapter)
  (now1 now2 : text) (s : state) :
  llm_calls (snd (run_synthesis config llm_fn now1 now2 s)) = llm_calls s
  \/ exists beliefs n,
       load_beliefs s = (Ok beliefs, s) /\ py_truthy beliefs = true
       /\ log_count s = (Ok n, s)
       /\ llm_calls (snd (run_synthesis config llm_fn now1 now2 s))
          = (SynthesisPrompt beliefs n, llm_temperature_synthesize config)
            :: llm_calls s.
Proof.
  destruct (run_synthesis config llm_fn now1 now2 s) as [r s'] eqn:H. cbn [snd].
  destruct (run_synthesis_trace config llm_fn now1 now2 s s' _ H)
    as [[-> Hr]
       | [beliefs [n [existing [prior [Hb [Ht [Hn [Hp [Hs Hrest]]]]]]]]]].
  - now left.
  - right. exists beliefs, n. split; [exact Hb|]. split; [exact Ht|].
    split; [exact Hn|].
    destruct Hrest as [[-> _] | [raw [fields [count [np [_ [_ [_ [_ [_ [-> _]]]]]]]]]]];
      reflexivity.
Qed.

End SynthesisRuns.

Lemma synthesis_persists_result_witness :
  exists prior count n np,
    stored_synthesis_count demo_store = Ok prior
    /\ (pattern_file demo_store = None -> prior = JInt 0)
    /\ py_add1 prior = Ok count
    /\ (forall z, prior = JInt z -> count = JInt (z + 1))
    /\ log_count demo_store = (Ok n, demo_store)
    /\ py_len (field_or demo_result (txt "cognitive_patterns") (JArr [])) = Ok np
    /\ pattern_file demo_patterns
       = pattern_file (synthesized demo_store demo_result count n np
                         (txt "2026-01-01T03:00:00+00:00")
                         (txt "2026-01-01T03:00:01+00:00"))
    /\ tension_file demo_patterns
       = tension_file (synthesized demo_store demo_result count n np
                         (txt "2026-01-01T03:00:00+00:00")
                         (txt "2026-01-01T03:00:01+00:00"))
    /\ log_file demo_patterns = log_file demo_store
    /\ belief_file demo_patterns = belief_file demo_store.
Proof.
  apply (synthesis_persists_result default_config demo_synthesis_llm
           (txt "2026-01-01T03:00:00+00:00") (txt "2026-01-01T03:00:01+00:00")
           demo_store demo_patterns demo_result).
  - vm_compute. reflexivity.
  - vm_compute. reflexivity.
Defined.

Lemma synthesis_then_load_witness :
  load_tensions demo_patterns
  = (Ok (field_or demo_result (txt "tensions") (JArr [])), demo_patterns)
  /\ exists doc,
       load_patterns demo_patterns = (Ok doc, demo_patterns)
       /\ py_get doc (txt "cognitive_patterns") (JArr [])
          = Ok (field_or demo_result (txt "cognitive_patterns") (JArr []))
       /\ py_get doc (txt "decision_archetype") (JObj [])
          = Ok (field_or demo_result (txt "decision_archetype") (JObj []))
       /\ py_get doc (txt "abstraction_ladder") (JObj [])
          = Ok (field_or demo_result (txt "abstraction_ladder") (JObj [])).
Proof.
  apply (synthesis_then_load default_config demo_synthesis_llm
           (txt "2026-01-01T03:00:00+00:00") (txt "2026-01-01T03:00:01+00:00")
           demo_store demo_patterns demo_result).
  - vm_compute. reflexivity.
  - vm_compute. reflexivity.
Defined.

(** ** The three entry points, called in any order *)

Section EngineStores.

Variable list_of_set : list text -> list text.

Lemma log_written_same_log (s s' : state) (es : list json) :
  log_file s' = log_file s -> log_written s es -> log_written s' es.
Proof.
  intros E [H1 H2]. split; [exact H1|]. now rewrite E.
Qed.

Lemma after_call_log (s : state) (c : call) (es : list json) :
  log_written s es ->
  log_written (after_call list_of_set s c) (es ++ appended list_of_set [c] s)
  /\ List.length (appended list_of_set [c] s) = (if is_log_call c then 1 else 0)%nat.
Proof.
  intros Hw. destruct c as [a | config llm_fn now | config llm_fn now1 now2];
    cbn [appended after_call is_log_call].
  - destruct (append_written list_of_set a s es Hw) as [e [s' [E [Hw' _]]]].
    rewrite E. cbn [fst snd]. rewrite app_nil_r. now split.
  - rewrite !app_nil_r. split; [|reflexivity].
    destruct (run_reflection config llm_fn now s) as [r s'] eqn:E.
    destruct (run_reflection_files config llm_fn now s s' r E) as [E1 _].
    now apply (log_written_same_log s).
  - rewrite !app_nil_r. split; [|reflexivity].
    destruct (run_synthesis config llm_fn now1 now2 s) as [r s'] eqn:E.
    destruct (run_synthesis_files config llm_fn now1 now2 s s' r E) as [E1 _].
    now apply (log_written_same_log s).
Qed.

Lemma after_calls_log (calls : list call) :
  forall s es,
    log_written s es ->
    log_written (fold_left (after_call list_of_set) calls s)
                (es ++ appended list_of_set calls s)
    /\ List.length (appended list_of_set calls s)
       = List.length (filter is_log_call calls).
Proof.
  induction calls as [|c calls IH]; intros s es Hw.
  - simpl. rewrite app_nil_r. now split.
  - destruct (after_call_log s c es Hw) as [H1 H2].
    destruct (IH _ _ H1) as [H3 H4].
    change (appended list_of_set (c :: calls) s)
      with (match c with
            | CallLog a =>
                match fst (append list_of_set a s) with
                | Ok e => [e]
                | Raise _ => []
                end
            | _ => []
            end ++ appended list_of_set calls (after_call list_of_set s c)).
    change (appended list_of_set [c] s)
      with (match c with
            | CallLog a =>
                match fst (append list_of_set a s) with
                | Ok e => [e]
                | Raise _ => []
                end
            | _ => []
            end ++ []) in H1, H2, H3.
    rewrite app_nil_r in H2, H3.
    cbn [fold_left filter]. split.
    + now rewrite app_assoc.
    + rewrite length_app, H2, H4. now destruct (is_log_call c).
Qed.

(** X14.  Reflection and synthesis runs between the appends do not disturb the
    log, whatever their adapters answer and however they end: after any
    sequence of calls of the three entry points on a fresh data directory,
    [load_log()] returns the records that the [log_interaction] calls
    returned, in order, and [log_count()] is the number of those calls. *)
Theorem log_survives_runs (calls : list call) :
  let s := fold_left (after_call list_of_set) calls empty_state in
  load_log None s = (Ok (appended list_of_set calls empty_state), s)
  /\ log_count s = (Ok (List.length (filter is_log_call calls)), s).
Proof.
  intros s.
  assert (Hinit : log_written empty_state []) by (split; [constructor | now left]).
  destruct (after_calls_log calls empty_state [] Hinit) as [Hw Hlen].
  simpl in Hw. fold s in Hw. split.
  - exact (load_log_written s _ None Hw).
  - rewrite <- Hlen. now apply log_count_written.
Qed.

Lemma after_call_log_content (s : state) (c : call) :
  exists more,
    log_content (after_call list_of_set s c) = log_content s ++ more
    /\ (log_file s <> None -> log_file (after_call list_of_set s c) <> None).
Proof.
  destruct c as [a | config llm_fn now | config llm_fn now1 now2]; cbn [after_call].
  - destruct (log_interaction_spec list_of_set (ac_uid a) (ac_now a) (ac_question a)
                (ac_answer a) (ac_extra_tags a) s) as [e [E _]].
    unfold append. rewrite E. eexists. unfold log_content at 1. cbn [snd log_file].
    split; [reflexivity | discriminate].
  - destruct (run_reflection config llm_fn now s) as [r s'] eqn:E.
    destruct (run_reflection_files config llm_fn now s s' r E) as [E1 _].
    exists []. unfold log_content. cbn [snd]. rewrite E1, app_nil_r. now split.
  - destruct (run_synthesis config llm_fn now1 now2 s) as [r s'] eqn:E.
    destruct (run_synthesis_files config llm_fn now1 now2 s s' r E) as [E1 _].
    exists []. unfold log_content. cbn [snd]. rewrite E1, app_nil_r. now split.
Qed.

(** X15.  The log is append-only: from any state, whatever the files hold, no
    sequence of calls of the three entry points removes or rewrites what
    the log file held, and none removes the file. *)
Theorem log_append_only (calls : list call) (s : state) :
  exists more,
    log_content (fold_left (after_call list_of_set) calls s) = log_content s ++ more
    /\ (log_file s <> None ->
        log_file (fold_left (after_call list_of_set) calls s) <> None).
Proof.
  revert s. induction calls as [|c calls IH]; intros s.
  - exists []. simpl. rewrite app_nil_r. now split.
  - destruct (after_call_log_content s c) as [m1 [E1 N1]].
    destruct (IH (after_call list_of_set s c)) as [m2 [E2 N2]].
    exists (m1 ++ m2). cbn [fold_left]. split.
    + now rewrite E2, E1, app_assoc.
    + auto.
Qed.

(** X16.  On every store that calls of the three entry points leave behind,
    starting from a fresh data directory, the files have the shape that
    the engine gives them, and every loader returns without raising:
    no run, however it ends, leaves a store that the next call cannot
    read. *)
Theorem engine_stores_readable (config : EngineConfig) (s : state) (n : option Z) :
  reachable list_of_set s ->
  store_ok s
  /\ (exists es k,
        load_log n s = (Ok (limit n es), s) /\ load_log None s = (Ok es, s)
        /\ log_count s = (Ok k, s) /\ k = List.length es)
  /\ (exists beliefs, load_beliefs s = (Ok (JArr beliefs), s))
  /\ (exists fields, load_patterns s = (Ok (JObj fields), s))
  /\ (exists tensions, load_tensions s = (Ok tensions, s))
  /\ reflection_inputs_ok config s
  /\ synthesis_inputs_ok s.
Proof.
  intros Hr. pose proof (reachable_store_ok list_of_set s Hr) as Hok.
  destruct (store_ok_inputs config s Hok) as [Hri [Hsi _]].
  split; [exact Hok|].
  destruct Hok as [[es [Hw He]] [Hb [Hp Ht]]].
  split; [|split; [|split; [|split; [|split; assumption]]]].
  - exists es, (List.length es).
    split; [exact (load_log_written s es n Hw)|].
    split; [exact (load_log_written s es None Hw)|].
    split; [now apply log_count_written | reflexivity].
  - unfold load_beliefs, bind, get_state, lift, ret.
    destruct Hb as [-> | [now [z [bs ->]]]]; eexists; reflexivity.
  - unfold load_patterns, bind, get_state, ret.
    destruct Hp as [-> | [fields ->]]; eexists; reflexivity.
  - unfold load_tensions, bind, get_state, lift, ret.
    destruct Ht as [-> | [fields ->]]; eexists; reflexivity.
Qed.

End EngineStores.

Lemma engine_stores_readable_witness :
  store_ok (fold_left (after_call (fun l => l)) demo_session empty_state)
  /\ (exists es k,
        load_log (Some 2%Z) (fold_left (after_call (fun l => l)) demo_session empty_state)
        = (Ok (limit (Some 2%Z) es),
           fold_left (after_call (fun l => l)) demo_session empty_state)
        /\ load_log None (fold_left (after_call (fun l => l)) demo_session empty_state)
           = (Ok es, fold_left (after_call (fun l => l)) demo_session empty_state)
        /\ log_count (fold_left (after_call (fun l => l)) demo_session empty_state)
           = (Ok k, fold_left (after_call (fun l => l)) demo_session empty_state)
        /\ k = List.length es)
  /\ (exists beliefs,
        load_beliefs (fold_left (after_call (fun l => l)) demo_session empty_state)
        = (Ok (JArr beliefs),
           fold_left (after_call (fun l => l)) demo_session empty_state))
  /\ (exists fields,
        load_patterns (fold_left (after_call (fun l => l)) demo_session empty_state)
        = (Ok (JObj fields),
           fold_left (after_call (fun l => l)) demo_session empty_state))
  /\ (exists tensions,
        load_tensions (fold_left (after_call (fun l => l)) demo_session empty_state)
        = (Ok tensions,
           fold_left (after_call (fun l => l)) demo_session empty_state))
  /\ reflection_inputs_ok default_config
       (fold_left (after_call (fun l => l)) demo_session empty_state)
  /\ synthesis_inputs_ok
       (fold_left (after_call (fun l => l)) demo_session empty_state).
Proof.
  apply (engine_stores_readable (fun l => l) default_config
           (fold_left (after_call (fun l => l)) demo_session empty_state)
           (Some 2%Z)).
  exists demo_session. reflexivity.
Defined.

(** ** reflection.py and synthesis.py: the lenient parsers *)

Section ParserShape.

Lemma rmatch_cont {A} (r : regex) :
  forall (pw : bool) (s : text) (k : bool -> text -> option A) (x : A),
    rmatch r pw s k = Some x ->
    exists pw' s', k pw' s' = Some x /\ (List.length s' <= List.length s)%nat.
Proof.
  induction r as [| c | | r1 IH1 r2 IH2 | r1 IH1 r2 IH2 | r1 IH1 | |];
    intros pw s k x; cbn [rmatch].
  - intros H. now exists pw, s.
  - destruct s as [|c' s]; [discriminate|].
    destruct (Ascii.eqb c c'); [|discriminate].
    intros H. exists (is_word c'), s. split; [exact H | simpl; lia].
  - destruct s as [|c' s]; [discriminate|].
    destruct (N.eqb (code c') 10); [discriminate|].
    intros H. exists (is_word c'), s. split; [exact H | simpl; lia].
  - intros H. apply IH1 in H. destruct H as [pw1 [s1 [H L1]]].
    apply IH2 in H. destruct H as [pw2 [s2 [H L2]]].
    exists pw2, s2. split; [exact H | lia].
  - destruct (rmatch r1 pw s k) eqn:E; simpl.
    + intros H. injection H as <-. now apply IH1 in E.
    + apply IH2.
  - destruct (rmatch r1 pw s k) eqn:E; simpl.
    + intros H. injection H as <-. now apply IH1 in E.
    + intros H. now exists pw, s.
  - revert pw. induction s as [|c s IHs]; intros pw; cbn [star_all].
    + intros H. now exists pw, [].
    + destruct (star_all (is_word c) s k) eqn:E; simpl.
      * intros H. injection H as <-.
        destruct (IHs _ E) as [pw' [s' [H L]]]. exists pw', s'.
        split; [exact H | simpl; lia].
      * intros H. now exists pw, (c :: s).
  - destruct (xorb pw (head_is_word s)); [|discriminate].
    intros H. now exists pw, s.
Qed.

Lemma search_from_some (r : regex) (s : text) :
  forall pw s1 rest,
    search_from r pw s = Some (s1, rest) ->
    exists pw', match_here r pw' s1 = Some rest.
Proof.
  induction s as [|c s IH]; intros pw s1 rest; cbn [search_from].
  - destruct (match_here r pw []) eqn:E; [|discriminate].
    intros H. injection H as <- <-. now exists pw.
  - destruct (match_here r pw (c :: s)) eqn:E.
    + intros H. injection H as <- <-. now exists pw.
    + apply IH.
Qed.

(** What [\[.*\]] or [\{.*\}] finds starts with the opening bracket. *)
Lemma span_group_head (c1 c2 : ascii) (raw : text) (m : text * text) :
  search (Seq (Chr c1) (Seq StarAll (Chr c2))) raw = Some m ->
  exists t, group m = c1 :: t.
Proof.
  destruct m as [s1 rest]. unfold search. intros H.
  apply search_from_some in H. destruct H as [pw H].
  unfold match_here in H. cbn [rmatch] in H.
  destruct s1 as [|c s1]; [discriminate|].
  destruct (Ascii.eqb_spec c1 c) as [<-|_]; [|discriminate].
  change (rmatch (Seq StarAll (Chr c2)) (is_word c1) s1 (fun _ rest0 => Some rest0)
          = Some rest) in H.
  apply rmatch_cont in H. destruct H as [pw' [s' [H L]]].
  injection H as ->. unfold group. cbn [fst snd List.length].
  replace (S (List.length s1) - List.length rest)%nat
    with (S (List.length s1 - List.length rest)) by lia.
  eexists. reflexivity.
Qed.

Lemma lex_start_grows (c : ascii) (acc : list token) (m : lex_mode)
  (acc' : list token) :
  lex_start c acc = Some (m, acc') -> exists more, acc' = more ++ acc.
Proof.
  unfold lex_start.
  repeat match goal with
         | |- context [if ?b then _ else _] => destruct b
         end;
    intros H; try discriminate; injection H as <- <-;
    first [now exists [] | eexists [_]; reflexivity].
Qed.

Lemma lex_step_grows (c : ascii) (m : lex_mode) (acc : list token)
  (m' : lex_mode) (acc' : list token) :
  lex_step c m acc = Some (m', acc') -> exists more, acc' = more ++ acc.
Proof.
  destruct m as [|a|a|a k v|a|a]; cbn [lex_step].
  - apply lex_start_grows.
  - repeat match goal with
           | |- context [if ?b then _ else _] => destruct b
           end;
      intros H; try discriminate; injection H as <- <-;
      first [now exists [] | eexists [_]; reflexivity].
  - repeat match goal with
           | |- context [if ?b then _ else _] => destruct b
           end;
      intros H; try discriminate; injection H as <- <-; now exists [].
  - destruct (hex_value c) as [d|]; [|discriminate].
    destruct k as [|[|k]]; [discriminate| |].
    + destruct (N.ltb _ 256); [|discriminate].
      intros H. injection H as <- <-. now exists [].
    + intros H. injection H as <- <-. now exists [].
  - destruct (is_num_char c).
    + intros H. injection H as <- <-. now exists [].
    + destruct (number_of (rev a)) as [v|]; [|discriminate].
      intros H. apply lex_start_grows in H. destruct H as [more ->].
      exists (more ++ [TVal v]). now rewrite <- app_assoc.
  - destruct (is_letter c).
    + intros H. injection H as <- <-. now exists [].
    + destruct (word_of (rev a)) as [v|]; [|discriminate].
      intros H. apply lex_start_grows in H. destruct H as [more ->].
      exists (more ++ [TVal v]). now rewrite <- app_assoc.
Qed.

Lemma lex_run_grows (s : text) :
  forall m acc m' acc',
    lex_run s m acc = Some (m', acc') -> exists more, acc' = more ++ acc.
Proof.
  induction s as [|c s IH]; intros m acc m' acc'; cbn [lex_run].
  - intros H. injection H as <- <-. now exists [].
  - destruct (lex_step c m acc) as [[m1 acc1]|] eqn:E; [|discriminate].
    intros H. apply IH in H. destruct H as [more2 ->].
    apply lex_step_grows in E. destruct E as [more1 ->].
    exists (more2 ++ more1). now rewrite <- app_assoc.
Qed.

(** A text that begins with an opening bracket is read as tokens that
    begin with that bracket. *)
Lemma lex_bracket_first (c : ascii) (t0 : token) (s : text) (ts : list token) :
  lex_start c [] = Some (LIdle, [t0]) ->
  lex (c :: s) = Some ts -> exists ts', ts = t0 :: ts'.
Proof.
  intros Hc. unfold lex. cbn [lex_run lex_step]. rewrite Hc.
  destruct (lex_run s LIdle [t0]) as [[m acc]|] eqn:E; [|discriminate].
  apply lex_run_grows in E. destruct E as [more ->].
  destruct m as [|a|a|a k v|a|a]; cbn [lex_finish]; try discriminate.
  - intros H. injection H as <-. rewrite rev_app_distr. eexists. reflexivity.
  - destruct (number_of (rev a)); [|discriminate].
    intros H. injection H as <-.
    change (TVal j :: more ++ [t0]) with ((TVal j :: more) ++ [t0]).
    rewrite rev_app_distr. eexists. reflexivity.
  - destruct (word_of (rev a)); [|discriminate].
    intros H. injection H as <-.
    change (TVal j :: more ++ [t0]) with ((TVal j :: more) ++ [t0]).
    rewrite rev_app_distr. eexists. reflexivity.
Qed.

Lemma last_push {A} (l : list A) (x y : A) : last (x :: l) y = last l x.
Proof.
  revert x y. induction l as [|z l IH]; intros x y; [reflexivity|].
  change (last (x :: z :: l) y) with (last (z :: l) y). now rewrite !IH.
Qed.

Lemma inside_push (arr : bool) (e e' : expect) (f g : frame) (st : list frame) :
  inside_kind arr e (f :: st) = true -> inside_kind arr e' (g :: f :: st) = true.
Proof. unfold inside_kind. now rewrite last_push. Qed.

Lemma inside_swap (arr : bool) (e e' : expect) (f f' : frame) (st : list frame) :
  frame_kind arr f' = frame_kind arr f ->
  inside_kind arr e (f :: st) = true -> inside_kind arr e' (f' :: st) = true.
Proof.
  unfold inside_kind. destruct st as [|g st]; [cbn [last]; congruence|].
  intros _. now rewrite !last_push.
Qed.

Lemma inside_pop (arr : bool) (e : expect) (f : frame) (v : json) (st : list frame) :
  value_kind arr v = frame_kind arr f ->
  inside_kind arr e (f :: st) = true -> inside_kind arr (EAfter v) st = true.
Proof.
  unfold inside_kind. destruct st as [|g st].
  - cbn [last]. congruence.
  - intros _. now rewrite last_push.
Qed.

Lemma parse_step_inside (arr : bool) (t : token) (e : expect) (st : list frame)
  (e' : expect) (st' : list frame) :
  inside_kind arr e st = true ->
  parse_step t e st = Some (e', st') ->
  inside_kind arr e' st' = true.
Proof.
  intros Hin H.
  destruct st as [|f st0].
  - (* the value is complete: no token may follow *)
    destruct e; try discriminate Hin. discriminate H.
  - destruct e as [| | | |k|v]; cbn [parse_step parse_value parse_key] in H;
      destruct t as [| | | | | |w]; try discriminate H;
      try (destruct f as [[|i items]|[|fd fields]|fields key]; try discriminate H);
      try (destruct w; try discriminate H);
      injection H as <- <-;
      first [ exact Hin
            | exact (inside_push arr _ _ _ _ _ Hin)
            | eapply inside_swap; [|exact Hin]; reflexivity
            | eapply inside_pop; [|exact Hin]; reflexivity ].
Qed.

Lemma parse_run_inside (arr : bool) (ts : list token) :
  forall e st e' st',
    inside_kind arr e st = true ->
    parse_run ts e st = Some (e', st') ->
    inside_kind arr e' st' = true.
Proof.
  induction ts as [|t ts IH]; intros e st e' st' Hin; cbn [parse_run].
  - intros H. now injection H as <- <-.
  - destruct (parse_step t e st) as [[e1 st1]|] eqn:E; [|discriminate].
    apply IH. exact (parse_step_inside arr t e st e1 st1 Hin E).
Qed.

(** A text that begins with [[] is read, if at all, as a list; one that
    begins with [{], as a dict. *)
Lemma loads_bracket_kind (arr : bool) (s : text) (v : json) :
  json_loads ((if arr then "["%char else "{"%char) :: s) = Ok v ->
  value_kind arr v = true.
Proof.
  unfold json_loads.
  destruct (lex _) as [ts|] eqn:El; [|discriminate].
  destruct (parse ts) as [v'|] eqn:Ep; [|discriminate].
  intros H. injection H as ->.
  assert (Hts : exists ts', ts = (if arr then TLBrack else TLBrace) :: ts').
  { destruct arr; eapply lex_bracket_first; try exact El; reflexivity. }
  destruct Hts as [ts' ->]. unfold parse in Ep. cbn [parse_run] in Ep.
  assert (Hs : parse_step (if arr then TLBrack else TLBrace) EValue []
               = Some (if arr then EValueOrEnd else EKeyOrEnd,
                       [if arr then FArr [] else FObjK []]))
    by now destruct arr.
  rewrite Hs in Ep.
  destruct (parse_run ts' _ _) as [[e st]|] eqn:Er; [|discriminate].
  apply (parse_run_inside arr) in Er; [|now destruct arr].
  destruct e; try discriminate Ep. destruct st; [|discriminate Ep].
  injection Ep as ->. exact Er.
Qed.

(** X17.  [_parse_result] lets no exception of the decoder escape and
    returns a dict, except when the cleaned text as a whole is a JSON value
    of another kind (a list, a string, a number): that value is returned as
    it is.  [_parse_beliefs] catches JSONDecodeError only.  On a cleaned
    text within the limits of the decoder (no run of more than 4300 digits,
    no more opening brackets than the nesting depth that the interpreter
    affords) it returns a list, so the filter of [run_reflection] has
    something to iterate over; beyond these limits [json.loads] raises
    ValueError or RecursionError, which pass through [_parse_beliefs]. *)
Theorem lenient_parsers_shape (depth : nat) (raw : text) :
  ((exists fields, _parse_result raw = JObj fields)
   \/ json_loads (strip_fences raw) = Ok (_parse_result raw))
  /\ (within_decoder_limits depth (strip_fences raw) = true ->
      exists items, _parse_beliefs raw = JArr items).
Proof.
  split.
  - unfold _parse_result.
    destruct (json_loads (strip_fences raw)) as [v|e]; [now right|].
    left.
    destruct (search object_span_re (strip_fences raw)) as [m|] eqn:Es;
      [|eexists; reflexivity].
    destruct (span_group_head _ _ _ _ Es) as [t Ht]. rewrite Ht.
    destruct (json_loads ("{"%char :: t)) as [v|e'] eqn:El;
      [|eexists; reflexivity].
    apply (loads_bracket_kind false) in El.
    destruct v; try discriminate El. eexists. reflexivity.
  - intros _. unfold _parse_beliefs.
    destruct (json_loads (strip_fences raw)) as [v|e].
    + destruct v; eexists; reflexivity.
    + destruct (search array_span_re (strip_fences raw)) as [m|] eqn:Es;
        [|eexists; reflexivity].
      destruct (span_group_head _ _ _ _ Es) as [t Ht]. rewrite Ht.
      destruct (json_loads ("["%char :: t)) as [v|e'] eqn:El;
        [|eexists; reflexivity].
      apply (loads_bracket_kind true) in El.
      destruct v; try discriminate El. eexists. reflexivity.
Qed.

End ParserShape.

Lemma lenient_parsers_shape_witness :
  exists items,
    _parse_beliefs (txt "Sure! [{1: 2}] and [3] are what I found.") = JArr items.
Proof.
  destruct (lenient_parsers_shape 100
              (txt "Sure! [{1: 2}] and [3] are what I found.")) as [_ H].
  apply H. vm_compute. reflexivity.
Defined.

(** ** reflection.py and synthesis.py: answers in a code fence *)

Section Fences.

Lemma delete_all_skip (r : regex) (u s : text) :
  forall pw,
    delete_all r pw (u ++ s) (List.length u) = delete_all r (last_is_word pw u) s 0.
Proof.
  induction u as [|c u IH]; intros pw.
  - reflexivity.
  - change (delete_all r pw ((c :: u) ++ s) (List.length (c :: u)))
      with (delete_all r (is_word c) (u ++ s) (List.length u)).
    now rewrite IH, last_is_word_cons.
Qed.

Lemma delete_all_match (r : regex) (pw : bool) (u s : text) :
  u <> [] -> match_here r pw (u ++ s) = Some s ->
  delete_all r pw (u ++ s) 0 = delete_all r (last_is_word pw u) s 0.
Proof.
  intros Hu H. destruct u as [|c u]; [now contradiction Hu|].
  change ((c :: u) ++ s) with (c :: (u ++ s)) in *.
  cbn [delete_all]. rewrite H.
  replace (List.length (u ++ s) - List.length s)%nat with (List.length u)
    by (rewrite length_app; lia).
  now rewrite delete_all_skip, last_is_word_cons.
Qed.

Lemma match_here_fence (pw : bool) (s : text) :
  match_here fence_re pw (txt "```" ++ s)
  = Some (match after_prefix (txt "json") s with Some rest => rest | None => s end).
Proof.
  unfold match_here, fence_re, lit. cbn [rmatch].
  rewrite rmatch_lit_chars.
  assert (E : after_prefix (txt "```") (txt "```" ++ s) = Some s)
    by now apply after_prefix_app.
  rewrite E. cbn [rmatch]. rewrite rmatch_lit_chars.
  now destruct (after_prefix (txt "json") s).
Qed.

Lemma match_here_not_fence (pw : bool) (c : ascii) (s : text) :
  Ascii.eqb "`"%char c = false -> match_here fence_re pw (c :: s) = None.
Proof.
  intros H. unfold match_here, fence_re, lit. cbn [rmatch].
  rewrite rmatch_lit_chars.
  change (after_prefix (txt "```") (c :: s))
    with (if Ascii.eqb "`"%char c then after_prefix (txt "``") s else None).
  now rewrite H.
Qed.

(** Text without a backquote passes through the deletion of fences. *)
Lemma delete_all_plain (x s : text) :
  no_backquote x = true ->
  forall pw,
    delete_all fence_re pw (x ++ s) 0
    = x ++ delete_all fence_re (last_is_word pw x) s 0.
Proof.
  unfold no_backquote. induction x as [|c x IH]; intros Hx pw.
  - reflexivity.
  - cbn [existsb] in Hx. rewrite negb_orb in Hx.
    apply andb_true_iff in Hx. destruct Hx as [Hc Hx].
    apply negb_true_iff in Hc.
    change ((c :: x) ++ s) with (c :: (x ++ s)).
    cbn [delete_all]. rewrite (match_here_not_fence pw c _ Hc).
    rewrite (IH Hx). now rewrite last_is_word_cons.
Qed.

Lemma space_not_backquote (c : ascii) :
  is_space c = true -> Ascii.eqb "`"%char c = false.
Proof.
  destruct c as [b0 b1 b2 b3 b4 b5 b6 b7];
    destruct b0, b1, b2, b3, b4, b5, b6, b7; vm_compute; congruence.
Qed.

Lemma spaces_no_backquote (pad : text) :
  forallb is_space pad = true -> no_backquote pad = true.
Proof.
  unfold no_backquote. induction pad as [|c pad IH]; [reflexivity|].
  cbn [forallb existsb]. intros H. apply andb_true_iff in H. destruct H as [Hc Hp].
  rewrite (space_not_backquote c Hc). cbn. now apply IH.
Qed.

Lemma no_backquote_app (x y : text) :
  no_backquote (x ++ y) = (no_backquote x && no_backquote y)%bool.
Proof. unfold no_backquote. now rewrite existsb_app, negb_orb. Qed.

Lemma lstrip_spaces (pad s : text) :
  forallb is_space pad = true -> lstrip (pad ++ s) = lstrip s.
Proof.
  induction pad as [|c pad IH]; [reflexivity|].
  cbn [forallb]. intros H. apply andb_true_iff in H. destruct H as [Hc Hp].
  change (lstrip ((c :: pad) ++ s))
    with (if is_space c then lstrip (pad ++ s) else c :: pad ++ s).
  rewrite Hc. now apply IH.
Qed.

Lemma forallb_reversed {A} (f : A -> bool) (l : list A) :
  forallb f (rev l) = forallb f l.
Proof.
  induction l as [|x l IH]; [reflexivity|].
  cbn [rev forallb]. rewrite forallb_app, IH. cbn [forallb].
  rewrite andb_true_r. apply andb_comm.
Qed.

Lemma rstrip_spaces (s pad : text) :
  forallb is_space pad = true -> rstrip (s ++ pad) = rstrip s.
Proof.
  intros H. unfold rstrip. rewrite rev_app_distr. f_equal.
  apply lstrip_spaces. now rewrite forallb_reversed.
Qed.

(** The cleaning that both parsers start with takes a fence and the white
    space around the answer away and leaves the answer. *)
Lemma strip_fences_fenced (open pad1 pad2 close : text) (c0 c1 : ascii)
  (body : text) :
  In open fence_opens -> In close fence_closes ->
  forallb is_space pad1 = true -> forallb is_space pad2 = true ->
  no_backquote (c0 :: body ++ [c1]) = true ->
  is_space c0 = false -> is_space c1 = false ->
  Ascii.eqb "j"%char c0 = false ->
  strip_fences (open ++ pad1 ++ (c0 :: body ++ [c1]) ++ pad2 ++ close)
  = c0 :: body ++ [c1].
Proof.
  intros Ho Hc Hp1 Hp2 Hd Hs0 Hs1 Hj.
  set (d := c0 :: body ++ [c1]) in *.
  assert (Hx : no_backquote (pad1 ++ d ++ pad2) = true).
  { rewrite !no_backquote_app, Hd, !spaces_no_backquote by assumption.
    reflexivity. }
  assert (Hclose : forall pw, delete_all fence_re pw close 0 = []).
  { intros pw. destruct Hc as [<- | [<- | []]]; [reflexivity|].
    change (txt "```") with (txt "```" ++ []) at 1.
    rewrite delete_all_match; [reflexivity | discriminate|].
    now rewrite match_here_fence. }
  assert (Hmid : forall pw,
             delete_all fence_re pw ((pad1 ++ d ++ pad2) ++ close) 0
             = pad1 ++ d ++ pad2).
  { intros pw. rewrite (delete_all_plain _ _ Hx), Hclose. apply app_nil_r. }
  assert (Hnj : after_prefix (txt "json") ((pad1 ++ d ++ pad2) ++ close) = None).
  { destruct pad1 as [|p pad1].
    - unfold d. cbn [app after_prefix txt list_ascii_of_string].
      now rewrite Hj.
    - cbn [forallb] in Hp1. apply andb_true_iff in Hp1. destruct Hp1 as [Hp _].
      cbn [app after_prefix txt list_ascii_of_string].
      destruct (Ascii.eqb_spec "j"%char p) as [<-|_]; [discriminate Hp | reflexivity]. }
  assert (Hdel : delete_all fence_re false
                   (open ++ pad1 ++ d ++ pad2 ++ close) 0
                 = pad1 ++ d ++ pad2).
  { replace (pad1 ++ d ++ pad2 ++ close) with ((pad1 ++ d ++ pad2) ++ close)
      by now rewrite <- !app_assoc.
    destruct Ho as [<- | [<- | [<- | []]]].
    - apply Hmid.
    - rewrite delete_all_match; [apply Hmid | discriminate|].
      now rewrite match_here_fence, Hnj.
    - change (txt "```json") with (txt "```" ++ txt "json") at 1.
      rewrite <- app_assoc.
      change (txt "```" ++ txt "json" ++ (pad1 ++ d ++ pad2) ++ close)
        with (txt "```json" ++ (pad1 ++ d ++ pad2) ++ close).
      rewrite delete_all_match; [apply Hmid | discriminate|].
      change (txt "```json" ++ (pad1 ++ d ++ pad2) ++ close)
        with (txt "```" ++ txt "json" ++ (pad1 ++ d ++ pad2) ++ close).
      rewrite match_here_fence.
      assert (E : after_prefix (txt "json")
                    (txt "json" ++ (pad1 ++ d ++ pad2) ++ close)
                  = Some ((pad1 ++ d ++ pad2) ++ close))
        by now apply after_prefix_app.
      now rewrite E. }
  assert (Hstrip : strip d = d).
  { unfold strip, d. rewrite lstrip_head by exact Hs0.
    change (c0 :: body ++ [c1]) with ((c0 :: body) ++ [c1]).
    now apply rstrip_last. }
  unfold strip_fences. rewrite Hdel.
  assert (E1 : strip (pad1 ++ d ++ pad2) = d).
  { unfold strip. rewrite (lstrip_spaces pad1 _ Hp1).
    assert (El : lstrip (d ++ pad2) = d ++ pad2)
      by exact (lstrip_head c0 ((body ++ [c1]) ++ pad2) Hs0).
    rewrite El, (rstrip_spaces d pad2 Hp2).
    unfold d. change (c0 :: body ++ [c1]) with ((c0 :: body) ++ [c1]).
    now apply rstrip_last. }
  rewrite E1.
  assert (E2 : rstrip_char "`"%char d = d).
  { unfold rstrip_char, d.
    change (c0 :: body ++ [c1]) with ((c0 :: body) ++ [c1]).
    rewrite rev_app_distr. cbn [rev app].
    assert (Hb : Ascii.eqb c1 "`"%char = false).
    { unfold d in Hd. change (c0 :: body ++ [c1]) with ((c0 :: body) ++ [c1]) in Hd.
      rewrite no_backquote_app in Hd. apply andb_true_iff in Hd.
      destruct Hd as [_ Hd]. unfold no_backquote in Hd. cbn in Hd.
      rewrite orb_false_r in Hd. apply negb_true_iff in Hd.
      now rewrite Ascii.eqb_sym. }
    rewrite Hb. cbn [rev]. rewrite rev_app_distr. cbn [rev app].
    now rewrite rev_involutive. }
  rewrite E2. exact Hstrip.
Qed.

(** X18.  An answer of the model that is a JSON list (for [_parse_beliefs]) or
    a JSON dict (for [_parse_result]) as [json.dumps] writes it, alone or
    inside a code fence with white space around it, is read as that value.
    (The answer must be free of backquotes: the cleaning deletes three
    backquotes in a row wherever they stand.) *)
Theorem fenced_answer_parsed (v : json) (open pad1 pad2 close : text) :
  wf_json v = true ->
  no_backquote (json_dumps v) = true ->
  In open fence_opens -> In close fence_closes ->
  forallb is_space pad1 = true -> forallb is_space pad2 = true ->
  (forall items, v = JArr items ->
     _parse_beliefs (open ++ pad1 ++ json_dumps v ++ pad2 ++ close) = v)
  /\ (forall fields, v = JObj fields ->
        _parse_result (open ++ pad1 ++ json_dumps v ++ pad2 ++ close) = v).
Proof.
  intros Hwf Hq Ho Hc Hp1 Hp2. split.
  - intros items ->.
    assert (Hd : exists body,
               json_dumps (JArr items) = "["%char :: body ++ ["]"%char]).
    { eexists. reflexivity. }
    destruct Hd as [body Hd]. unfold _parse_beliefs.
    rewrite Hd in *.
    rewrite (strip_fences_fenced open pad1 pad2 close _ _ body Ho Hc Hp1 Hp2 Hq)
      by reflexivity.
    rewrite <- Hd. now rewrite (json_loads_dumps _ Hwf).
  - intros fields ->.
    assert (Hd : exists body,
               json_dumps (JObj fields) = "{"%char :: body ++ ["}"%char]).
    { eexists. reflexivity. }
    destruct Hd as [body Hd]. unfold _parse_result.
    rewrite Hd in *.
    rewrite (strip_fences_fenced open pad1 pad2 close _ _ body Ho Hc Hp1 Hp2 Hq)
      by reflexivity.
    rewrite <- Hd. now rewrite (json_loads_dumps _ Hwf).
Qed.

End Fences.

Lemma fenced_answer_parsed_witness :
  _parse_beliefs (txt "```json" ++ newline ++ json_dumps (JArr demo_answer)
                  ++ newline ++ txt "```")
  = JArr demo_answer.
Proof.
  destruct (fenced_answer_parsed (JArr demo_answer) (txt "```json") newline newline
              (txt "```")) as [H _].
  - vm_compute. reflexivity.
  - vm_compute. reflexivity.
  - right. right. left. reflexivity.
  - right. left. reflexivity.
  - reflexivity.
  - reflexivity.
  - exact (H demo_answer eq_refl).
Defined.

(** ** reflection.py and synthesis.py: answers wrapped in prose *)

Section Prose.

Lemma lacks_app (c : ascii) (x y : text) :
  lacks c (x ++ y) = (lacks c x && lacks c y)%bool.
Proof. unfold lacks. now rewrite existsb_app, negb_orb. Qed.

Lemma lacks_cons (c d : ascii) (x : text) :
  lacks c (d :: x) = (negb (Ascii.eqb c d) && lacks c x)%bool.
Proof. unfold lacks. cbn [existsb]. now rewrite negb_orb. Qed.

Lemma lacks_rev (c : ascii) (x : text) : lacks c (rev x) = lacks c x.
Proof.
  induction x as [|d x IH]; [reflexivity|].
  cbn [rev]. rewrite lacks_app, IH, !lacks_cons. cbn.
  rewrite andb_true_r. apply andb_comm.
Qed.

Lemma lacks_lstrip (c : ascii) (x : text) :
  lacks c x = true -> lacks c (lstrip x) = true.
Proof.
  induction x as [|d x IH]; [reflexivity|].
  intros H. change (lstrip (d :: x)) with (if is_space d then lstrip x else d :: x).
  destruct (is_space d); [|exact H].
  rewrite lacks_cons in H. apply andb_true_iff in H. now apply IH.
Qed.

Lemma lacks_rstrip (c : ascii) (x : text) :
  lacks c x = true -> lacks c (rstrip x) = true.
Proof.
  intros H. unfold rstrip. rewrite lacks_rev. apply lacks_lstrip.
  now rewrite lacks_rev.
Qed.

Lemma lstrip_before (a b : text) (c : ascii) :
  is_space c = false -> lstrip (a ++ c :: b) = lstrip a ++ c :: b.
Proof.
  intros Hc. induction a as [|d a IH].
  - exact (lstrip_head c b Hc).
  - change (lstrip ((d :: a) ++ c :: b))
      with (if is_space d then lstrip (a ++ c :: b) else d :: a ++ c :: b).
    change (lstrip (d :: a)) with (if is_space d then lstrip a else d :: a).
    destruct (is_space d); [exact IH | reflexivity].
Qed.

Lemma rstrip_after (a b : text) (c : ascii) :
  is_space c = false -> rstrip (a ++ c :: b) = a ++ c :: rstrip b.
Proof.
  intros Hc. unfold rstrip.
  assert (E : rev (a ++ c :: b) = rev b ++ c :: rev a).
  { rewrite rev_app_distr. cbn [rev]. now rewrite <- app_assoc. }
  rewrite E, (lstrip_before (rev b) (rev a) c Hc).
  rewrite rev_app_distr. cbn [rev]. rewrite rev_involutive.
  now rewrite <- app_assoc.
Qed.

Lemma lstrip_idempotent (a : text) : lstrip (lstrip a) = lstrip a.
Proof.
  induction a as [|d a IH]; [reflexivity|].
  change (lstrip (d :: a)) with (if is_space d then lstrip a else d :: a).
  destruct (is_space d) eqn:E; [exact IH | exact (lstrip_head d a E)].
Qed.

Lemma rstrip_idempotent (a : text) : rstrip (rstrip a) = rstrip a.
Proof.
  unfold rstrip. now rewrite rev_involutive, lstrip_idempotent.
Qed.

Lemma rstrip_char_lacks (c : ascii) (s : text) :
  lacks c s = true -> rstrip_char c s = s.
Proof.
  intros H. unfold rstrip_char. rewrite <- lacks_rev in H.
  destruct (rev s) as [|d r] eqn:E.
  - apply (f_equal (@rev ascii)) in E. now rewrite rev_involutive in E.
  - rewrite lacks_cons in H. apply andb_true_iff in H. destruct H as [Hd _].
    apply negb_true_iff in Hd. rewrite Ascii.eqb_sym in Hd. rewrite Hd.
    rewrite <- E. apply rev_involutive.
Qed.

(** The cleaning of a text without backquotes: the white space at its two
    ends goes. *)
Lemma strip_fences_prose (pre post body : text) (c0 c1 : ascii) :
  no_backquote (pre ++ (c0 :: body ++ [c1]) ++ post) = true ->
  is_space c0 = false -> is_space c1 = false ->
  strip_fences (pre ++ (c0 :: body ++ [c1]) ++ post)
  = lstrip pre ++ (c0 :: body ++ [c1]) ++ rstrip post.
Proof.
  intros Hq H0 H1. unfold strip_fences.
  rewrite <- (app_nil_r (pre ++ (c0 :: body ++ [c1]) ++ post)) at 1.
  rewrite (delete_all_plain _ [] Hq). cbn [delete_all]. rewrite app_nil_r.
  assert (Hs : forall a b,
             strip (a ++ (c0 :: body ++ [c1]) ++ b)
             = lstrip a ++ (c0 :: body ++ [c1]) ++ rstrip b).
  { intros a b. unfold strip.
    change (a ++ (c0 :: body ++ [c1]) ++ b)
      with (a ++ c0 :: ((body ++ [c1]) ++ b)).
    rewrite (lstrip_before a _ c0 H0).
    replace (lstrip a ++ c0 :: (body ++ [c1]) ++ b)
      with ((lstrip a ++ c0 :: body) ++ c1 :: b)
      by (rewrite <- !app_assoc; reflexivity).
    rewrite (rstrip_after _ b c1 H1).
    rewrite <- !app_assoc. cbn [app]. rewrite <- app_assoc. reflexivity. }
  rewrite Hs.
  assert (Hq' : lacks "`"%char (lstrip pre ++ (c0 :: body ++ [c1]) ++ rstrip post)
                = true).
  { change (no_backquote (pre ++ (c0 :: body ++ [c1]) ++ post) = true)
      with (lacks "`"%char (pre ++ (c0 :: body ++ [c1]) ++ post) = true) in Hq.
    rewrite !lacks_app in Hq |- *.
    apply andb_true_iff in Hq. destruct Hq as [Ha Hq].
    apply andb_true_iff in Hq. destruct Hq as [Hb Hc].
    now rewrite (lacks_lstrip _ _ Ha), Hb, (lacks_rstrip _ _ Hc). }
  rewrite (rstrip_char_lacks _ _ Hq'), Hs.
  now rewrite lstrip_idempotent, rstrip_idempotent.
Qed.

Lemma star_all_none (c2 : ascii) (b : text) :
  lacks c2 b = true ->
  forall pw,
    star_all pw b (fun pw' s' => rmatch (Chr c2) pw' s' (fun _ rest => Some rest))
    = None.
Proof.
  induction b as [|d b IH]; intros H pw; [reflexivity|].
  rewrite lacks_cons in H. apply andb_true_iff in H. destruct H as [Hd Hb].
  apply negb_true_iff in Hd.
  cbn [star_all rmatch]. rewrite (IH Hb), Hd. reflexivity.
Qed.

(** [.*] then a closing bracket stops at the last closing bracket. *)
Lemma star_all_last (c2 : ascii) (a b : text) :
  lacks c2 b = true ->
  forall pw,
    star_all pw (a ++ c2 :: b)
      (fun pw' s' => rmatch (Chr c2) pw' s' (fun _ rest => Some rest))
    = Some b.
Proof.
  intros Hb. induction a as [|d a IH]; intros pw.
  - cbn [app star_all rmatch]. rewrite (star_all_none c2 b Hb).
    now rewrite Ascii.eqb_refl.
  - cbn [app star_all]. now rewrite IH.
Qed.

Lemma search_span_skip (c1 c2 : ascii) (a s : text) :
  lacks c1 a = true ->
  forall pw,
    search_from (Seq (Chr c1) (Seq StarAll (Chr c2))) pw (a ++ s)
    = search_from (Seq (Chr c1) (Seq StarAll (Chr c2))) (last_is_word pw a) s.
Proof.
  induction a as [|d a IH]; intros H pw; [reflexivity|].
  rewrite lacks_cons in H. apply andb_true_iff in H. destruct H as [Hd Ha].
  apply negb_true_iff in Hd.
  cbn [app search_from]. unfold match_here at 1. cbn [rmatch]. rewrite Hd.
  now rewrite (IH Ha), last_is_word_cons.
Qed.

(** In prose that has no opening bracket before the value and no closing
    bracket after it, the span expression finds the value. *)
Lemma search_span_found (c1 c2 : ascii) (pre post body : text) :
  lacks c1 pre = true -> lacks c2 post = true ->
  exists m,
    search (Seq (Chr c1) (Seq StarAll (Chr c2)))
      (pre ++ (c1 :: body ++ [c2]) ++ post) = Some m
    /\ group m = c1 :: body ++ [c2].
Proof.
  intros Hpre Hpost. unfold search. rewrite (search_span_skip c1 c2 _ _ Hpre).
  exists ((c1 :: body ++ [c2]) ++ post, post). split.
  - change ((c1 :: body ++ [c2]) ++ post) with (c1 :: ((body ++ [c2]) ++ post)).
    cbn [search_from]. unfold match_here. cbn [rmatch].
    rewrite Ascii.eqb_refl. rewrite <- app_assoc.
    change ([c2] ++ post) with (c2 :: post).
    now rewrite (star_all_last c2 body post Hpost).
  - unfold group. cbn [fst snd]. rewrite length_app.
    replace (List.length (c1 :: body ++ [c2]) + List.length post
             - List.length post)%nat
      with (List.length (c1 :: body ++ [c2]) + 0)%nat by lia.
    rewrite firstn_app_2. cbn [firstn]. apply app_nil_r.
Qed.

(** X19.  An answer of the model that wraps a JSON list (for [_parse_beliefs])
    or a JSON dict (for [_parse_result]) in prose is read as that value by
    the fall-back of the parser, when the text as a whole is not JSON, the
    prose has no opening bracket before the value and no closing bracket
    after it, and there is no backquote. *)
Theorem prose_wrapped_answer_parsed (v : json) (pre post : text) (e : exn) :
  wf_json v = true ->
  no_backquote (pre ++ json_dumps v ++ post) = true ->
  json_loads (strip_fences (pre ++ json_dumps v ++ post)) = Raise e ->
  (forall items, v = JArr items ->
     lacks "["%char pre = true -> lacks "]"%char post = true ->
     _parse_beliefs (pre ++ json_dumps v ++ post) = v)
  /\ (forall fields, v = JObj fields ->
        lacks "{"%char pre = true -> lacks "}"%char post = true ->
        _parse_result (pre ++ json_dumps v ++ post) = v).
Proof.
  intros Hwf Hq Hraise. split.
  - intros items -> Hpre Hpost.
    assert (Hd : exists body,
               json_dumps (JArr items) = "["%char :: body ++ ["]"%char]).
    { eexists. reflexivity. }
    destruct Hd as [body Hd]. unfold _parse_beliefs. rewrite Hraise.
    rewrite Hd in *.
    rewrite (strip_fences_prose pre post body _ _ Hq) by reflexivity.
    destruct (search_span_found "["%char "]"%char (lstrip pre) (rstrip post) body
                (lacks_lstrip _ _ Hpre) (lacks_rstrip _ _ Hpost)) as [m [Hs Hg]].
    unfold array_span_re. rewrite Hs, Hg, <- Hd.
    now rewrite (json_loads_dumps _ Hwf).
  - intros fields -> Hpre Hpost.
    assert (Hd : exists body,
               json_dumps (JObj fields) = "{"%char :: body ++ ["}"%char]).
    { eexists. reflexivity. }
    destruct Hd as [body Hd]. unfold _parse_result. rewrite Hraise.
    rewrite Hd in *.
    rewrite (strip_fences_prose pre post body _ _ Hq) by reflexivity.
    destruct (search_span_found "{"%char "}"%char (lstrip pre) (rstrip post) body
                (lacks_lstrip _ _ Hpre) (lacks_rstrip _ _ Hpost)) as [m [Hs Hg]].
    unfold object_span_re. rewrite Hs, Hg, <- Hd.
    now rewrite (json_loads_dumps _ Hwf).
Qed.

End Prose.

Lemma prose_wrapped_answer_parsed_witness :
  _parse_beliefs (txt "Here are the beliefs: " ++ json_dumps (JArr demo_answer)
                  ++ txt " Hope this helps.")
  = JArr demo_answer.
Proof.
  destruct (prose_wrapped_answer_parsed (JArr demo_answer)
              (txt "Here are the beliefs: ") (txt " Hope this helps.")
              JSONDecodeError) as [H _].
  - vm_compute. reflexivity.
  - vm_compute. reflexivity.
  - vm_compute. reflexivity.
  - apply (H demo_answer eq_refl).
    + vm_compute. reflexivity.
    + vm_compute. reflexivity.
Defined.

(** ** The context formatters: items without a confidence *)

Section MissingConfidence.

Variable py_str : json -> text.

Local Open Scope engine_scope.

Lemma rmap_raises {A B} (f : A -> result B) (e : exn) (l : list A) :
  Forall (fun x => (exists y, f x = Ok y) \/ f x = Raise e) l ->
  Exists (fun x => f x = Raise e) l ->
  rmap f l = Raise e.
Proof.
  intros H. induction H as [|x l Hx Hl IH]; intros Hex.
  - inversion Hex.
  - cbn [rmap]. destruct Hx as [[y Hx] | Hx]; rewrite Hx; cbn [rbind];
      [|reflexivity].
    inversion Hex as [? ? H1|? ? H1]; subst; [congruence|].
    now rewrite (IH H1).
Qed.

Lemma rmap_In {A B} (f : A -> result B) (l : list A) :
  forall l' x,
    rmap f l = Ok l' -> In x l -> exists y, f x = Ok y /\ In y l'.
Proof.
  induction l as [|a l IH]; intros l' x H Hin; [contradiction|].
  cbn [rmap] in H. destruct (f a) as [b|] eqn:Ea; [|discriminate H].
  cbn [rbind] in H. destruct (rmap f l) as [bs|]; [|discriminate H].
  injection H as <-. destruct Hin as [-> | Hin].
  - exists b. split; [exact Ea | now left].
  - destruct (IH bs x eq_refl Hin) as [y [Ey Hy]]. exists y.
    split; [exact Ey | now right].
Qed.

Lemma rmap_same_length {A B} (f : A -> result B) (l : list A) :
  forall l', rmap f l = Ok l' -> List.length l' = List.length l.
Proof.
  induction l as [|a l IH]; intros l' H; cbn [rmap] in H.
  - now injection H as <-.
  - destruct (f a); [|discriminate H]. cbn [rbind] in H.
    destruct (rmap f l) as [bs|]; [|discriminate H].
    injection H as <-. cbn [length]. now rewrite (IH bs eq_refl).
Qed.

(** X20.  The two formatters treat a stored item that has no confidence
    differently.  [format_belief_block] reads the confidence with the
    default 0 when it sorts and when it writes: on a belief file whose
    beliefs can be rendered the block is written, with one bullet for each
    belief after the header, and a belief without a confidence has the
    bullet that ends in (0%).  [format_cognitive_block] sorts with the
    default but writes with [p['confidence']]: one pattern without a
    confidence among the stored patterns and the call raises KeyError. *)
Theorem missing_confidence_rendering (s : state) (beliefs patterns : list json)
  (fields : list (text * json)) :
  (stored_beliefs s (JArr beliefs) ->
   beliefs <> [] ->
   forallb (renderable (txt "belief")) beliefs = true ->
   exists lines,
     format_belief_block py_str None s
     = (Ok (join newline (belief_header :: lines) ++ newline ++ newline), s)
     /\ List.length lines = List.length beliefs
     /\ forall b bf t,
          In b beliefs -> b = JObj bf ->
          dict_lookup bf (txt "belief") = Some (JStr t) ->
          confidence_absent b = true ->
          In (txt "- " ++ t ++ txt " (0%)") lines)
  /\ (pattern_file s = Some (JObj fields) ->
      dict_lookup fields (txt "cognitive_patterns") = Some (JArr patterns) ->
      tension_doc_ok s ->
      forallb (renderable (txt "pattern")) patterns = true ->
      existsb confidence_absent patterns = true ->
      format_cognitive_block py_str s = (Raise KeyError, s)).
Proof.
  split.
  - intros Hl Hne Hr.
    rewrite format_belief_block_none, (load_beliefs_stored s _ Hl).
    cbn [fst rbind]. unfold belief_block.
    destruct beliefs as [|b0 beliefs']; [now contradiction Hne|].
    cbn [py_truthy negb].
    destruct (renderable_sorted _ _ Hr) as [sorted [Es Hp]].
    rewrite Es. cbn [rbind].
    destruct (rmap_ok (belief_line py_str) sorted) as [lines El].
    { apply (Permutation_Forall Hp). apply Forall_forall.
      rewrite forallb_forall in Hr. intros x Hx.
      now apply belief_line_renderable, Hr. }
    rewrite El. cbn [rbind]. exists lines. split; [reflexivity|]. split.
    + rewrite (rmap_same_length _ _ _ El). symmetry.
      now apply Permutation_length.
    + intros b bf t Hin -> Ht Ha.
      destruct (rmap_In _ _ _ (JObj bf) El) as [line [E Hline]].
      { now apply (Permutation_in _ Hp). }
      unfold confidence_absent in Ha. unfold belief_line in E.
      cbn [py_getitem py_get] in E. rewrite Ht in E. cbn [rbind] in E.
      destruct (dict_lookup bf (txt "confidence")); [discriminate Ha|].
      change (format_percent (JInt 0)) with (Ok (txt "0%") : result text) in E.
      cbn [rbind py_format] in E. injection E as <-. exact Hline.
  - intros Hp Hg Ht Hr Hex.
    rewrite format_cognitive_block_pure.
    assert (Ep : fst (load_patterns s) = Ok (JObj fields)).
    { unfold load_patterns, bind, get_state, ret. now rewrite Hp. }
    assert (Et : exists ts, fst (load_tensions s) = Ok ts).
    { unfold load_tensions, bind, get_state, lift, ret.
      destruct Ht as [Ht | [tf Ht]]; rewrite Ht; eexists; reflexivity. }
    destruct Et as [ts Et]. rewrite Ep, Et. cbn [fst rbind]. f_equal.
    unfold cognitive_block. cbn [py_get]. rewrite Hg. cbn [rbind].
    destruct patterns as [|p0 patterns']; [discriminate Hex|].
    cbn [py_truthy negb].
    destruct (renderable_sorted _ _ Hr) as [sorted [Es Hperm]].
    rewrite Es. cbn [rbind].
    rewrite (rmap_raises (pattern_line py_str) KeyError sorted); [reflexivity| |].
    + apply (Permutation_Forall Hperm). apply Forall_forall.
      rewrite forallb_forall in Hr. intros x Hx.
      now apply pattern_line_renderable, Hr.
    + apply existsb_exists in Hex. destruct Hex as [x [Hx Ha]].
      apply Exists_exists. exists x. split.
      * now apply (Permutation_in _ Hperm).
      * rewrite forallb_forall in Hr. now apply pattern_line_absent; [apply Hr|].
Qed.

End MissingConfidence.

Lemma missing_confidence_rendering_witness :
  (exists lines,
     format_belief_block (fun _ => []) None demo_edited
     = (Ok (join newline (belief_header :: lines) ++ newline ++ newline),
        demo_edited)
     /\ List.length lines = 2%nat
     /\ In (txt "- B1 (0%)") lines)
  /\ format_cognitive_block (fun _ => []) demo_edited = (Raise KeyError, demo_edited).
Proof.
  destruct (missing_confidence_rendering (fun _ => []) demo_edited
              [ JObj [ (txt "belief", JStr (txt "B1")) ];
                JObj [ (txt "belief", JStr (txt "B2"));
                       (txt "confidence", JFloat (7 # 10)) ] ]
              [ JObj [ (txt "pattern", JStr (txt "P1")) ];
                JObj [ (txt "pattern", JStr (txt "P2"));
                       (txt "confidence", JFloat (7 # 10)) ] ]
              [ (txt "cognitive_patterns",
                  JArr [ JObj [ (txt "pattern", JStr (txt "P1")) ];
                         JObj [ (txt "pattern", JStr (txt "P2"));
                                (txt "confidence", JFloat (7 # 10)) ] ]) ])
    as [H1 H2].
  split.
  - destruct H1 as [lines [E [Hlen Hin]]].
    + right. eexists. split; reflexivity.
    + discriminate.
    + vm_compute. reflexivity.
    + exists lines. split; [exact E|]. split; [exact Hlen|].
      apply (Hin (JObj [ (txt "belief", JStr (txt "B1")) ])
                 [ (txt "belief", JStr (txt "B1")) ] (txt "B1"));
        [left; reflexivity | reflexivity | reflexivity | reflexivity].
  - apply H2; first [reflexivity | left; reflexivity | vm_compute; reflexivity].
Defined.

(** ** synthesis.py: [apply_patterns] *)

Section TransferRuns.

Local Open Scope engine_scope.

(** X21.  Without stored patterns (no pattern file, or one without
    patterns) [apply_patterns] does not consult the model and writes
    nothing, whatever the adapter is.  The archetype is read before the
    patterns are looked at: when the pattern file holds no archetype, or
    a dict, the call returns its fixed message; when it holds anything
    else as the archetype, the call raises AttributeError. *)
Theorem apply_patterns_without_patterns (situation : text) (llm_fn : transfer_adapter)
  (s : state) :
  no_patterns s ->
  (archetype_ok s ->
   apply_patterns situation llm_fn s = (Ok no_patterns_message, s))
  /\ (forall fields v,
        pattern_file s = Some (JObj fields) ->
        dict_lookup fields (txt "decision_archetype") = Some v ->
        (forall a, v <> JObj a) ->
        apply_patterns situation llm_fn s = (Raise AttributeError, s)).
Proof.
  intros Hp. split.
  - intros Ha. unfold apply_patterns, load_patterns, bind, get_state, lift, ret.
    destruct Hp as [Hnone | [fields [Hf Hl]]].
    + rewrite Hnone. reflexivity.
    + rewrite Hf. cbn [py_get].
      destruct Ha as [Hnone | [fields' [Hf' Hd]]]; [congruence|].
      rewrite Hf in Hf'. injection Hf' as <-.
      assert (E : py_truthy (match dict_lookup fields (txt "cognitive_patterns") with
                             | Some v => v
                             | None => JArr []
                             end) = false).
      { destruct Hl as [-> | ->]; reflexivity. }
      destruct Hd as [-> | [a ->]]; cbn [py_get]; now rewrite E.
  - intros fields v Hf Hv Hnd.
    unfold apply_patterns, load_patterns, bind, get_state, lift, ret.
    rewrite Hf. cbn [py_get]. rewrite Hv.
    destruct v; try reflexivity. now contradiction (Hnd fields0).
Qed.

(** X22.  After a synthesis run that returned patterns and a dict as archetype,
    [apply_patterns] hands the adapter the patterns of that result, its
    dominant archetype ("unknown" when the result names none) and the
    situation, at temperature 0.5, and returns what the adapter returns,
    its exception included; the state stays as it is. *)
Theorem apply_patterns_after_synthesis (config : EngineConfig) (llm_fn : adapter)
  (now1 now2 : text) (s s' : state) (r : json) (a : list (text * json))
  (situation : text) (transfer_fn : transfer_adapter) :
  run_synthesis config llm_fn now1 now2 s = (Ok r, s') ->
  py_truthy (field_or r (txt "cognitive_patterns") (JArr [])) = true ->
  field_or r (txt "decision_archetype") (JObj []) = JObj a ->
  apply_patterns situation transfer_fn s'
  = (transfer_fn
       {| tp_patterns := field_or r (txt "cognitive_patterns") (JArr []);
          tp_archetype := field_or (JObj a) (txt "dominant") (JStr (txt "unknown"));
          tp_situation := situation |} (5 # 10),
     s').
Proof.
  intros H Hp Ha.
  assert (Hr : py_truthy r = true).
  { destruct r; try discriminate Hp. destruct fields; [discriminate Hp | reflexivity]. }
  destruct (run_synthesis_trace config llm_fn now1 now2 s s' _ H)
    as [[_ [[b [_ [_ E]]] | [e [E _]]]]
       | [beliefs [n [existing [prior [Hb [Ht [Hn [Hpt [Hs Hrest]]]]]]]]]].
  - injection E as ->. discriminate.
  - discriminate.
  - destruct Hrest as [[_ [[raw [_ [_ E]]] | [e E]]]
                      | [raw [fields [count [np [_ [_ [_ [Hadd [Hnp [-> Hend]]]]]]]]]]].
    + injection E as ->. discriminate.
    + discriminate.
    + destruct Hend as [[nt [_ E]] | [_ E]]; [|discriminate].
      injection E as ->.
      set (s' := synthesized _ (JObj fields) count n np now1 now2).
      assert (Hd : exists doc,
                 load_patterns s' = (Ok doc, s')
                 /\ py_get doc (txt "cognitive_patterns") (JArr [])
                    = Ok (field_or (JObj fields) (txt "cognitive_patterns") (JArr []))
                 /\ py_get doc (txt "decision_archetype") (JObj [])
                    = Ok (field_or (JObj fields) (txt "decision_archetype") (JObj []))).
      { eexists. split; [reflexivity|]. split; reflexivity. }
      destruct Hd as [doc [Hl [Hc Hda]]].
      unfold apply_patterns, bind at 1. rewrite Hl.
      unfold bind at 1, lift at 1. rewrite Hc.
      unfold bind at 1, lift at 1. rewrite Hda, Ha.
      unfold bind at 1, lift at 1. cbn [py_get]. rewrite Hp. reflexivity.
Qed.

End TransferRuns.

Lemma apply_patterns_without_patterns_witness :
  apply_patterns (txt "Should I use LangChain?") demo_transfer_llm demo_store
  = (Ok no_patterns_message, demo_store)
  /\ apply_patterns (txt "Should I use LangChain?") demo_transfer_llm demo_odd
     = (Raise AttributeError, demo_odd).
Proof.
  split.
  - apply (apply_patterns_without_patterns (txt "Should I use LangChain?")
             demo_transfer_llm demo_store).
    + left. reflexivity.
    + left. reflexivity.
  - destruct (apply_patterns_without_patterns (txt "Should I use LangChain?")
                demo_transfer_llm demo_odd) as [_ H].
    + right.
      exists (match pattern_file demo_odd with
              | Some (JObj fields) => fields
              | _ => []
              end).
      split; [vm_compute; reflexivity|]. right. vm_compute. reflexivity.
    + apply (H (match pattern_file demo_odd with
                | Some (JObj fields) => fields
                | _ => []
                end) (JStr (txt "x"))).
      * vm_compute. reflexivity.
      * vm_compute. reflexivity.
      * discriminate.
Defined.

Lemma apply_patterns_after_synthesis_witness :
  apply_patterns (txt "Should I use LangChain?") demo_transfer_llm demo_patterns
  = (demo_transfer_llm
       {| tp_patterns := field_or demo_result (txt "cognitive_patterns") (JArr []);
          tp_archetype :=
            field_or (JObj [ (txt "dominant", JStr (txt "depth-first")) ])
              (txt "dominant") (JStr (txt "unknown"));
          tp_situation := txt "Should I use LangChain?" |} (5 # 10),
     demo_patterns).
Proof.
  apply (apply_patterns_after_synthesis default_config demo_synthesis_llm
           (txt "2026-01-01T03:00:00+00:00") (txt "2026-01-01T03:00:01+00:00")
           demo_store demo_patterns demo_result
           [ (txt "dominant", JStr (txt "depth-first")) ]).
  - vm_compute. reflexivity.
  - vm_compute. reflexivity.
  - vm_compute. reflexivity.
Defined.

(** ** ingest.py *)

Section IngestRuns.

Variable list_of_set : list text -> list text.
Variable env : nat -> text * text.
Variable str_exn : exn -> text.
Variable parse_whatsapp : text -> option text -> result (list normalised_entry).
Variable parse_twitter : text -> result (list normalised_entry).
Variable parse_linkedin_posts : text -> result (list normalised_entry).
Variable parse_linkedin_messages
  : text -> option text -> result (list normalised_entry).
Variable parse_instagram : text -> option text -> result (list normalised_entry).
Variable parse_telegram : text -> option text -> result (list normalised_entry).
Variable parse_generic_csv : text -> result (list normalised_entry).

Local Open Scope engine_scope.

Local Notation "'parse_source_'" :=
  (parse_source parse_whatsapp parse_twitter parse_linkedin_posts
     parse_linkedin_messages parse_instagram parse_telegram parse_generic_csv)
  (only parsing).

Local Notation "'ingest_'" :=
  (ingest list_of_set env str_exn parse_whatsapp parse_twitter parse_linkedin_posts
     parse_linkedin_messages parse_instagram parse_telegram parse_generic_csv)
  (only parsing).

Local Notation "'ingest_file_'" :=
  (ingest_file list_of_set env str_exn parse_whatsapp parse_twitter
     parse_linkedin_posts parse_linkedin_messages parse_instagram parse_telegram
     parse_generic_csv)
  (only parsing).

(** One entry: written, unless its answer is blank. *)
Lemma write_entry_spec (uid now : text) (x : normalised_entry) (s : state)
  (es : list json) :
  log_written s es ->
  exists s',
    _write_entry list_of_set uid now x s = (Ok (negb (blank_answer x)), s')
    /\ belief_file s' = belief_file s
    /\ pattern_file s' = pattern_file s
    /\ tension_file s' = tension_file s
    /\ llm_calls s' = llm_calls s
    /\ if blank_answer x then s' = s
       else exists e, log_written s' (es ++ [e]) /\ logs_entry e x.
Proof.
  intros [Hes Hf]. unfold _write_entry, blank_answer.
  destruct (is_blank (ne_answer x)) eqn:Eb.
  - exists s. now repeat split.
  - destruct (log_interaction_spec list_of_set uid now (ne_question x) (ne_answer x)
                (Some (ne_extra_tags x)) s) as [e [E [He [Hq Ha]]]].
    eexists. unfold try_except, bind at 1. rewrite E. unfold ret. cbn [negb].
    split; [reflexivity|]. do 4 (split; [reflexivity|]).
    exists e. split; [|now split]. split.
    + apply Forall_app. split; [exact Hes | now constructor].
    + right. cbn [log_file]. rewrite log_text_snoc.
      destruct Hf as [[Hf Hnil] | Hf]; rewrite Hf; [now subst es | reflexivity].
Qed.

(** The loop over the parsed entries *)
Lemma write_entries_spec (entries : list normalised_entry) :
  forall (i : nat) (r : IngestResult) (s : state) (es : list json),
    log_written s es ->
    exists r' s' new,
      write_entries list_of_set env entries i r s = (Ok r', s')
      /\ platform r' = platform r
      /\ total_parsed r' = total_parsed r
      /\ errors r' = errors r
      /\ total_ingested r' = (total_ingested r + List.length (filled entries))%nat
      /\ (skipped r' + List.length (filled entries)
          = skipped r + List.length entries)%nat
      /\ log_written s' (es ++ new)
      /\ Forall2 logs_entry new (filled entries)
      /\ belief_file s' = belief_file s
      /\ pattern_file s' = pattern_file s
      /\ tension_file s' = tension_file s
      /\ llm_calls s' = llm_calls s.
Proof.
  induction entries as [|x entries IH]; intros i r s es Hw.
  - exists r, s, []. cbn [write_entries filled filter List.length].
    rewrite app_nil_r. unfold ret.
    do 4 (split; [reflexivity|]). split; [lia|]. split; [lia|].
    split; [exact Hw|]. split; [constructor|]. now repeat split.
  - destruct (write_entry_spec (fst (env i)) (snd (env i)) x s es Hw)
      as [s1 [E [Hb [Hp [Ht [Hl Hx]]]]]].
    cbn [write_entries]. unfold bind at 1. rewrite E.
    unfold filled in *. cbn [filter].
    destruct (blank_answer x) eqn:Eb; cbn [negb] in *.
    + subst s1.
      destruct (IH (S i) (count_entry r false) s es Hw)
        as [r' [s' [new [E' [H1 [H2 [H3 [H4 [H5 [H6 [H7 H8]]]]]]]]]]].
      exists r', s', new. cbn [count_entry platform total_parsed errors
                                total_ingested skipped] in *.
      split; [exact E'|]. do 4 (split; [assumption|]).
      split; [cbn [List.length]; lia|].
      split; [assumption|]. split; [assumption|]. exact H8.
    + destruct Hx as [e [Hw1 He]].
      destruct (IH (S i) (count_entry r true) s1 (es ++ [e]) Hw1)
        as [r' [s' [new [E' [H1 [H2 [H3 [H4 [H5 [H6 [H7 H8]]]]]]]]]]].
      exists r', s', (e :: new). cbn [count_entry platform total_parsed errors
                                      total_ingested skipped] in *.
      split; [exact E'|]. do 3 (split; [assumption|]).
      split; [cbn [List.length]; lia|].
      split; [cbn [List.length]; lia|].
      split; [now rewrite <- app_assoc in H6|].
      split; [now constructor|].
      destruct H8 as [G1 [G2 [G3 G4]]].
      repeat split; congruence.
Qed.

(** The chain of comparisons of [ingest] knows exactly the platforms that
    [SUPPORTED_PLATFORMS] lists. *)
Lemma parse_source_supported (p source : text) (user_handle : option text) :
  parse_source_ p source user_handle = None <-> ~ In p SUPPORTED_PLATFORMS.
Proof.
  unfold parse_source, SUPPORTED_PLATFORMS.
  repeat match goal with
         | |- context [text_eqb p ?k] =>
             let E := fresh "E" in
             destruct (text_eqb p k) eqn:E;
             [ apply text_eqb_true in E; subst p;
               split; [discriminate | intros H; exfalso; apply H; simpl; tauto]
             | ]
         end.
  split; [|reflexivity]. intros _ H. simpl in H.
  repeat match goal with
         | H : _ \/ _ |- _ => destruct H as [H | H]
         | H : ?k = p, E : text_eqb p ?k = false |- _ =>
             subst p; rewrite text_eqb_refl in E; discriminate
         end.
  contradiction.
Qed.

(** X23.  [ingest] never raises and its counts add up: every parsed entry is
    either ingested or skipped.  When the parser returns entries, the
    skipped ones are those with a blank answer; the others are appended to
    the log, in order, with their question and answer, so that
    [log_count()] grows by [total_ingested]; no other file is touched and
    the model is not called.  When the parser raises, the result holds one
    error and the state is as it was. *)
Theorem ingest_accounting (source platform_ : text) (user_handle : option text)
  (s : state) (es : list json) :
  log_written s es ->
  exists r s' new,
    ingest_ source platform_ user_handle s = (Ok r, s')
    /\ platform r = strip (lower platform_)
    /\ (total_ingested r + skipped r = total_parsed r)%nat
    /\ log_written s' (es ++ new)
    /\ List.length new = total_ingested r
    /\ log_count s' = (Ok (List.length es + total_ingested r)%nat, s')
    /\ belief_file s' = belief_file s
    /\ pattern_file s' = pattern_file s
    /\ tension_file s' = tension_file s
    /\ llm_calls s' = llm_calls s
    /\ match parse_source_ (strip (lower platform_)) source user_handle with
       | Some (Ok entries) =>
           total_parsed r = List.length entries
           /\ total_ingested r = List.length (filled entries)
           /\ Forall2 logs_entry new (filled entries)
           /\ errors r = []
       | Some (Raise e) =>
           errors r = [txt "Parse error: " ++ str_exn e]
           /\ total_parsed r = 0%nat /\ s' = s
       | None =>
           List.length (errors r) = 1%nat /\ total_parsed r = 0%nat /\ s' = s
       end.
Proof.
  intros Hw. unfold ingest.
  destruct (parse_source_ (strip (lower platform_)) source user_handle)
    as [[entries|e]|].
  - destruct (write_entries_spec entries 0
                {| platform := strip (lower platform_);
                   total_parsed := List.length entries; total_ingested := 0;
                   skipped := 0; errors := [] |} s es Hw)
      as [r [s' [new [E [H1 [H2 [H3 [H4 [H5 [H6 [H7 H8]]]]]]]]]]].
    cbn [platform total_parsed errors total_ingested skipped] in *.
    assert (Hlen : List.length new = List.length (filled entries))
      by exact (Forall2_length H7).
    exists r, s', new. split; [exact E|]. split; [exact H1|].
    split; [lia|]. split; [exact H6|]. split; [lia|].
    split.
    { rewrite (log_count_written s' _ H6), length_app. do 3 f_equal. lia. }
    destruct H8 as [G1 [G2 [G3 G4]]].
    do 4 (split; [assumption|]).
    split; [exact H2|]. split; [lia|]. split; [exact H7 | exact H3].
  - exists (with_error {| platform := strip (lower platform_); total_parsed := 0;
                          total_ingested := 0; skipped := 0; errors := [] |}
              (txt "Parse error: " ++ str_exn e)), s, [].
    unfold ret. rewrite app_nil_r.
    split; [reflexivity|]. split; [reflexivity|]. split; [reflexivity|].
    split; [exact Hw|]. split; [reflexivity|].
    split; [rewrite (log_count_written s es Hw);
            cbn [with_error total_ingested]; now rewrite Nat.add_0_r|].
    now repeat split.
  - exists (with_error {| platform := strip (lower platform_); total_parsed := 0;
                          total_ingested := 0; skipped := 0; errors := [] |}
              (txt "Unknown platform '" ++ strip (lower platform_)
               ++ txt "'. Supported: " ++ join (txt ", ") SUPPORTED_PLATFORMS)),
      s, [].
    unfold ret. rewrite app_nil_r.
    split; [reflexivity|]. split; [reflexivity|]. split; [reflexivity|].
    split; [exact Hw|]. split; [reflexivity|].
    split; [rewrite (log_count_written s es Hw);
            cbn [with_error total_ingested]; now rewrite Nat.add_0_r|].
    now repeat split.
Qed.

(** X24.  A platform outside [SUPPORTED_PLATFORMS] (compared after lower-casing
    and stripping) gives a result with the error message that lists the
    supported platforms, all counts 0, and nothing is read or written; a
    platform of the list never gives that error. *)
Theorem ingest_unknown_platform (source platform_ : text)
  (user_handle : option text) (s : state) :
  (~ In (strip (lower platform_)) SUPPORTED_PLATFORMS ->
   ingest_ source platform_ user_handle s
   = (Ok {| platform := strip (lower platform_); total_parsed := 0;
            total_ingested := 0; skipped := 0;
            errors :=
              [txt "Unknown platform '" ++ strip (lower platform_)
               ++ txt "'. Supported: whatsapp, twitter, linkedin_posts, "
               ++ txt "linkedin_messages, instagram, telegram, csv, json"] |}, s))
  /\ (In (strip (lower platform_)) SUPPORTED_PLATFORMS ->
      parse_source_ (strip (lower platform_)) source user_handle <> None).
Proof.
  split.
  - intros H. apply (parse_source_supported _ source user_handle) in H.
    unfold ingest. rewrite H. reflexivity.
  - intros H E. apply (parse_source_supported _ source user_handle) in E.
    contradiction.
Qed.

(** X25.  The platform that [ingest_file] takes from the file name is always
    one that [ingest] knows, so a file that exists never gives the error
    of the unknown platform when no platform is named.  It is never "csv",
    and it is "json" only for a name that does not end in ".json": a file
    named like that is read as an Instagram (or Telegram, Twitter,
    WhatsApp) export, the generic parsers are reached by naming them. *)
Theorem detect_platform_supported (filepath path_name text_ : text)
  (user_handle : option text) (s : state) :
  In (detect_platform path_name) SUPPORTED_PLATFORMS
  /\ detect_platform path_name <> txt "csv"
  /\ (detect_platform path_name = txt "json" ->
      ends_with (txt ".json") (lower path_name) = false)
  /\ parse_source_ (strip (lower (detect_platform path_name))) text_ user_handle
     <> None
  /\ ingest_file_ filepath path_name (Some text_) None user_handle s
     = ingest_ text_ (detect_platform path_name) user_handle s.
Proof.
  assert (H : In (detect_platform path_name)
                [txt "whatsapp"; txt "twitter"; txt "linkedin_messages";
                 txt "linkedin_posts"; txt "telegram"; txt "instagram"]
              \/ (detect_platform path_name = txt "json"
                  /\ ends_with (txt ".json") (lower path_name) = false)).
  { unfold detect_platform.
    repeat match goal with
           | |- context [if ?b then _ else _] =>
               destruct b eqn:?; [left; simpl; tauto|]
           end.
    right. now split. }
  split; [|split; [|split; [|split]]].
  - destruct H as [H | [-> _]]; [|simpl; tauto].
    simpl in H. decompose [or] H; try contradiction;
      match goal with E : _ = detect_platform _ |- _ => rewrite <- E end;
      simpl; tauto.
  - destruct H as [H | [-> _]]; [|discriminate].
    simpl in H. decompose [or] H; try contradiction;
      match goal with E : _ = detect_platform _ |- _ => rewrite <- E end;
      discriminate.
  - destruct H as [H | [_ H]]; [|intros _; exact H].
    simpl in H. decompose [or] H; try contradiction;
      match goal with E : _ = detect_platform _ |- _ => rewrite <- E end;
      discriminate.
  - destruct H as [H | [-> _]]; [|discriminate].
    simpl in H. decompose [or] H; try contradiction;
      match goal with E : _ = detect_platform _ |- _ => rewrite <- E end;
      discriminate.
  - reflexivity.
Qed.

End IngestRuns.

Section GenericJson.

Lemma first_long_text_long (fields : list (text * json)) (keys : list text)
  (t : text) :
  first_long_text fields keys = Some t -> (20 < List.length t)%nat.
Proof.
  induction keys as [|key keys IH]; cbn [first_long_text]; [discriminate|].
  destruct (dict_lookup fields key) as [[| | | |val| |]|]; try exact IH.
  destruct (Nat.ltb_spec 20 (List.length val)) as [Hlt|_]; [|exact IH].
  intros H. now injection H as <-.
Qed.

Lemma item_text_long (item : json) (t : text) :
  item_text item = Some t -> (20 < List.length t)%nat.
Proof.
  destruct item; cbn [item_text]; try discriminate.
  - destruct (Nat.ltb_spec 20 (List.length s)) as [Hlt|_]; [|discriminate].
    intros H. now injection H as <-.
  - apply first_long_text_long.
Qed.

Lemma generic_entries_of_strings (ts : list text) :
  flat_map (fun item =>
              match item_text item with
              | Some t => [generic_entry t]
              | None => []
              end) (map JStr ts)
  = map generic_entry (filter (fun t => Nat.ltb 20 (List.length t)) ts).
Proof.
  induction ts as [|t ts IH]; [reflexivity|].
  cbn [map flat_map filter item_text].
  destruct (Nat.ltb 20 (List.length t)); cbn [map app]; now rewrite IH.
Qed.

(** X26.  The generic JSON parser never raises.  Every entry it returns has an
    empty question, the tags source:generic, social_media and imported,
    and as answer the stripped text of a string of more than 20
    characters.  From a JSON list of strings it returns one entry for each
    string of more than 20 characters, in order, also when the list is
    wrapped in a dict under one of the container keys; from a text that is
    not JSON it returns nothing. *)
Theorem generic_json_entries (text_ : text) (ts : list text) (key : text) :
  Forall (fun x => exists t, x = generic_entry t /\ (20 < List.length t)%nat)
         (_parse_generic_json text_)
  /\ _parse_generic_json (json_dumps (JArr (map JStr ts)))
     = map generic_entry (filter (fun t => Nat.ltb 20 (List.length t)) ts)
  /\ (In key container_keys ->
      _parse_generic_json (json_dumps (JObj [(key, JArr (map JStr ts))]))
      = map generic_entry (filter (fun t => Nat.ltb 20 (List.length t)) ts))
  /\ ((exists e, json_loads text_ = Raise e) -> _parse_generic_json text_ = []).
Proof.
  split; [|split; [|split]].
  - unfold _parse_generic_json.
    destruct (json_loads text_) as [data|e]; [|constructor].
    destruct (unwrap data) as [| | | | |items|]; try constructor.
    induction items as [|item items IH]; [constructor|].
    cbn [flat_map]. apply Forall_app. split; [|exact IH].
    destruct (item_text item) as [t|] eqn:E; [|constructor].
    constructor; [|constructor]. exists t. split; [reflexivity|].
    exact (item_text_long item t E).
  - unfold _parse_generic_json.
    rewrite json_loads_dumps by (cbn [wf_json]; apply strings_wf).
    cbn [unwrap]. apply generic_entries_of_strings.
  - intros Hin. unfold _parse_generic_json.
    rewrite json_loads_dumps
      by (cbn [wf_json forallb snd distinct_keys existsb]; now rewrite strings_wf).
    assert (E : unwrap (JObj [(key, JArr (map JStr ts))]) = JArr (map JStr ts)).
    { unfold container_keys in Hin. simpl in Hin.
      destruct Hin as [<- | [<- | [<- | [<- | [<- | []]]]]]; reflexivity. }
    rewrite E. apply generic_entries_of_strings.
  - intros [e He]. unfold _parse_generic_json. now rewrite He.
Qed.

End GenericJson.

Lemma generic_json_entries_witness :
  _parse_generic_json (json_dumps (JObj [(txt "posts", JArr (map JStr demo_export))]))
  = map generic_entry
      (filter (fun t => Nat.ltb 20 (List.length t)) demo_export).
Proof.
  destruct (generic_json_entries [] demo_export (txt "posts")) as [_ [_ [H _]]].
  apply H. left. reflexivity.
Defined.

Lemma ingest_accounting_witness :
  exists r s',
    demo_ingest (json_dumps (JArr (map JStr demo_export))) (txt " JSON ") empty_state
    = (Ok r, s')
    /\ platform r = txt "json"
    /\ (total_ingested r + skipped r = total_parsed r)%nat
    /\ log_count s' = (Ok (0 + total_ingested r)%nat, s').
Proof.
  assert (Hw : log_written empty_state [])
    by (split; [constructor | left; split; reflexivity]).
  destruct (ingest_accounting first_occurrences demo_env (fun _ => txt "error")
              no_chat_parser no_parser no_parser no_chat_parser no_chat_parser
              no_chat_parser no_parser
              (json_dumps (JArr (map JStr demo_export))) (txt " JSON ") None
              empty_state [] Hw)
    as [r [s' [new [E [Hp [Hsum [_ [_ [Hc _]]]]]]]]].
  exists r, s'. split; [exact E|]. split; [exact Hp|]. split; [exact Hsum | exact Hc].
Defined.

Lemma ingest_unknown_platform_witness :
  demo_ingest (txt "hello") (txt "Facebook") demo_log
  = (Ok {| platform := txt "facebook"; total_parsed := 0; total_ingested := 0;
           skipped := 0;
           errors :=
             [txt "Unknown platform '" ++ txt "facebook"
              ++ txt "'. Supported: whatsapp, twitter, linkedin_posts, "
              ++ txt "linkedin_messages, instagram, telegram, csv, json"] |},
     demo_log).
Proof.
  destruct (ingest_unknown_platform first_occurrences demo_env (fun _ => txt "error")
              no_chat_parser no_parser no_parser no_chat_parser no_chat_parser
              no_chat_parser no_parser (txt "hello") (txt "Facebook") None demo_log)
    as [H _].
  apply H. intros Hin. simpl in Hin.
  repeat (destruct Hin as [Hin | Hin]; [discriminate Hin|]). exact Hin.
Defined.

Lemma detect_platform_supported_witness :
  ends_with (txt ".json") (lower (txt "notes.md")) = false.
Proof.
  destruct (detect_platform_supported first_occurrences demo_env
              (fun _ => txt "error") no_chat_parser no_parser no_parser
              no_chat_parser no_chat_parser no_chat_parser no_parser
              (txt "exports/notes.md") (txt "notes.md") [] None empty_state)
    as [_ [_ [H _]]].
  apply H. reflexivity.
Defined.

(** ** reflection.py: the interactions shown to the model *)

Section Views.

Lemma format_interaction_view (e : json) :
  is_entry e -> exists iv, format_interaction e = Ok iv /\ view_of e iv.
Proof.
  intros [uid [now [q [a [tags [conf [E _]]]]]]]. subst e.
  unfold format_interaction.
  change (py_get (JObj _) (txt "tags") (JArr [])) with (Ok (JArr (map JStr tags))).
  cbn [rbind]. rewrite join_tags_strings. cbn [rbind].
  eexists. split; [reflexivity|].
  exists a, tags. now repeat split.
Qed.

Lemma join_tags_joinable (tags : json) :
  if tags_joinable tags
  then exists joined, join_tags tags = Ok joined
  else join_tags tags = Raise TypeError.
Proof.
  unfold join_tags, tags_joinable. destruct tags; cbn [py_iter rbind];
    try reflexivity.
  - destruct (rmap_ok (fun t => match t with JStr s0 => Ok s0 | _ => Raise TypeError end)
                (map (fun c => JStr [c]) s)) as [parts E].
    { apply Forall_forall. intros x Hx. apply in_map_iff in Hx.
      destruct Hx as [c [<- _]]. eexists. reflexivity. }
    rewrite E. eexists. reflexivity.
  - destruct (forallb _ items) eqn:Hall.
    + destruct (rmap_ok (fun t => match t with JStr s0 => Ok s0 | _ => Raise TypeError end)
                  items) as [parts E].
      { apply Forall_forall. rewrite forallb_forall in Hall. intros x Hx.
        specialize (Hall x Hx). destruct x; try discriminate Hall.
        eexists. reflexivity. }
      rewrite E. eexists. reflexivity.
    + rewrite (rmap_raises _ TypeError items); [reflexivity| |].
      * apply Forall_forall. intros x _.
        destruct x; first [now right | left; eexists; reflexivity].
      * apply Exists_exists.
        assert (Hex : existsb (fun t => negb match t with JStr _ => true | _ => false end)
                        items = true).
        { clear - Hall. induction items as [|x items IH]; [discriminate|].
          cbn [forallb existsb] in *. destruct x; cbn [negb orb andb] in *;
            try reflexivity. now apply IH. }
        apply existsb_exists in Hex. destruct Hex as [x [Hx Hb]].
        exists x. split; [exact Hx|]. now destruct x.
  - destruct (rmap_ok (fun t => match t with JStr s0 => Ok s0 | _ => Raise TypeError end)
                (map (fun kv => JStr (fst kv)) fields)) as [parts E].
    { apply Forall_forall. intros x Hx. apply in_map_iff in Hx.
      destruct Hx as [kv [<- _]]. eexists. reflexivity. }
    rewrite E. eexists. reflexivity.
Qed.

Lemma format_interactions_last (es : list json) (e : json) (x : exn) :
  (exists ivs, _format_interactions es = Ok ivs) ->
  format_interaction e = Raise x ->
  _format_interactions (es ++ [e]) = Raise x.
Proof.
  unfold _format_interactions. intros [ivs E] Hlast. revert ivs E.
  induction es as [|e0 es IH]; intros ivs E.
  - cbn [app rmap]. now rewrite Hlast.
  - cbn [app rmap] in *. destruct (format_interaction e0); [|discriminate E].
    cbn [rbind] in *. destruct (rmap format_interaction es) as [ivs'|];
      [|discriminate E].
    now rewrite (IH ivs' eq_refl).
Qed.

(** X27.  On records written by [log_interaction], [_format_interactions] does
    not raise and returns one view for each record, in order: the question
    and the confidence as logged, the tags joined by ", ", and of the
    answer its first 300 characters, marked as cut exactly when the answer
    is longer.  Of another record the tags are read first: when they
    cannot be joined (a number, a boolean, null, or a list with an item
    that is not a string) the call raises TypeError whatever else the
    record holds; when they can be joined, or are absent, a record
    without the key "answer" makes it raise KeyError. *)
Theorem format_interactions_views (es : list json) :
  Forall is_entry es ->
  (exists ivs,
     _format_interactions es = Ok ivs
     /\ Forall2 view_of es ivs
     /\ Forall (fun iv => (List.length (iv_answer iv) <= 300)%nat) ivs)
  /\ forall fields,
       (tags_joinable (field_or (JObj fields) (txt "tags") (JArr [])) = false ->
        _format_interactions (es ++ [JObj fields]) = Raise TypeError)
       /\ (tags_joinable (field_or (JObj fields) (txt "tags") (JArr [])) = true ->
           dict_lookup fields (txt "answer") = None ->
           _format_interactions (es ++ [JObj fields]) = Raise KeyError).
Proof.
  intros H.
  assert (Hok : exists ivs,
             _format_interactions es = Ok ivs
             /\ Forall2 view_of es ivs
             /\ Forall (fun iv => (List.length (iv_answer iv) <= 300)%nat) ivs).
  { unfold _format_interactions.
    induction H as [|e es He Hes [ivs [IH1 [IH2 IH3]]]].
    - exists []. repeat split; constructor.
    - destruct (format_interaction_view e He) as [iv [E Hv]].
      exists (iv :: ivs). cbn [rmap]. rewrite E, IH1. cbn [rbind].
      split; [reflexivity|]. split; [now constructor|].
      constructor; [|exact IH3].
      destruct Hv as [a [tags [_ [_ [_ [_ [-> _]]]]]]].
      rewrite length_firstn. lia. }
  split; [exact Hok|].
  assert (Hsome : exists ivs, _format_interactions es = Ok ivs).
  { destruct Hok as [ivs [E _]]. now exists ivs. }
  intros fields.
  pose proof (join_tags_joinable (field_or (JObj fields) (txt "tags") (JArr []))) as Hj.
  split.
  - intros Ht. rewrite Ht in Hj. apply format_interactions_last; [exact Hsome|].
    unfold format_interaction.
    change (py_get (JObj fields) (txt "tags") (JArr []))
      with (Ok (field_or (JObj fields) (txt "tags") (JArr [])) : result json).
    cbn [rbind]. now rewrite Hj.
  - intros Ht Ha. rewrite Ht in Hj. destruct Hj as [joined Hj].
    apply format_interactions_last; [exact Hsome|].
    unfold format_interaction.
    change (py_get (JObj fields) (txt "tags") (JArr []))
      with (Ok (field_or (JObj fields) (txt "tags") (JArr [])) : result json).
    cbn [rbind]. rewrite Hj. cbn [rbind py_getitem]. now rewrite Ha.
Qed.

End Views.

(** ** reflection.py and synthesis.py, one after the other *)

Section Pipeline.

Local Open Scope engine_scope.

(** X28.  Synthesis works on what the last reflection returned.  After a run of
    [run_reflection] that read a log that is not empty and returned the
    beliefs [r] (the pattern file being absent or a dict): when [r] is
    empty, [run_synthesis] returns the empty result without calling the
    adapter and without writing; otherwise it calls the adapter with
    exactly [r] and with [log_count()]. *)
Theorem synthesis_reads_reflection (config config2 : EngineConfig)
  (llm_fn llm_fn2 : adapter) (now now1 now2 : text) (s s1 : state) (r : json) :
  run_reflection config llm_fn now s = (Ok r, s1) ->
  fst (load_log (Some (reflection_window config)) s) <> Ok [] ->
  (pattern_file s = None \/ exists fields, pattern_file s = Some (JObj fields)) ->
  (py_truthy r = false ->
   run_synthesis config2 llm_fn2 now1 now2 s1 = (Ok (JObj []), s1))
  /\ (py_truthy r = true ->
      exists n,
        log_count s1 = (Ok n, s1)
        /\ llm_calls (snd (run_synthesis config2 llm_fn2 now1 now2 s1))
           = (SynthesisPrompt r n, llm_temperature_synthesize config2)
             :: llm_calls s1).
Proof.
  intros H Hlog Hpf.
  assert (Hb : load_beliefs s1 = (Ok r, s1) /\ pattern_file s1 = pattern_file s).
  { destruct (run_reflection_trace config llm_fn now s s1 _ H)
      as [[-> Hr] | [entries [ivs [existing [count0 [_ [_ [_ [_ [_ Hr]]]]]]]]]].
    - destruct Hr as [[Hl _] | [e He]]; [|discriminate].
      rewrite Hl in Hlog. now contradiction Hlog.
    - destruct Hr as [[e [He _]] | [count [filtered [_ [Hr ->]]]]]; [discriminate|].
      injection Hr as ->. now split. }
  destruct Hb as [Hb Hsame]. rewrite <- Hsame in Hpf.
  split.
  - intros Hf. now apply (run_synthesis_no_beliefs config2 llm_fn2 now1 now2 s1 r).
  - intros Ht.
    destruct (run_synthesis config2 llm_fn2 now1 now2 s1) as [r2 s2] eqn:E.
    destruct (run_synthesis_trace config2 llm_fn2 now1 now2 s1 s2 _ E)
      as [[-> Hr]
         | [beliefs [n [existing [prior [Hb' [Ht' [Hn [Hp [Hs Hrest]]]]]]]]]].
    + exfalso. destruct Hr as [[b [Hb' [Hf _]]] | [e [_ Hcause]]].
      * rewrite Hb in Hb'. injection Hb' as <-. congruence.
      * destruct Hcause as [Hc | [Hc | [Hc | [existing [Hl Hc]]]]].
        -- rewrite Hb in Hc. discriminate Hc.
        -- revert Hc. unfold log_count, bind, get_state, ret.
           destruct (log_file s1); discriminate.
        -- revert Hc. unfold load_patterns, bind, get_state, ret.
           destruct (pattern_file s1); discriminate.
        -- revert Hl Hc. unfold load_patterns, bind, get_state, ret.
           destruct Hpf as [-> | [fields ->]]; intros Hl; injection Hl as <-;
             discriminate.
    + rewrite Hb in Hb'. injection Hb' as <-.
      exists n. split; [exact Hn|]. cbn [snd].
      destruct Hrest as [[-> _] | [raw [fields [count [np [_ [_ [_ [_ [_ [-> _]]]]]]]]]]];
        reflexivity.
Qed.

End Pipeline.

Lemma format_interactions_views_witness :
  (exists ivs,
     _format_interactions (fst (run_appends (fun l => l) demo_calls empty_state))
     = Ok ivs
     /\ Forall2 view_of (fst (run_appends (fun l => l) demo_calls empty_state)) ivs
     /\ Forall (fun iv => (List.length (iv_answer iv) <= 300)%nat) ivs)
  /\ _format_interactions
       (fst (run_appends (fun l => l) demo_calls empty_state)
        ++ [JObj [ (txt "tags", JInt 5); (txt "answer", JStr (txt "yes"));
                   (txt "question", JStr (txt "no?")) ]])
     = Raise TypeError
  /\ _format_interactions
       (fst (run_appends (fun l => l) demo_calls empty_state)
        ++ [JObj [ (txt "question", JStr (txt "no?")) ]])
     = Raise KeyError.
Proof.
  destruct (format_interactions_views
              (fst (run_appends (fun l => l) demo_calls empty_state))) as [H1 H2].
  - repeat constructor;
      (do 6 eexists; split; [reflexivity | vm_compute; reflexivity]).
  - split; [exact H1|]. split.
    + apply (H2 [ (txt "tags", JInt 5); (txt "answer", JStr (txt "yes"));
                  (txt "question", JStr (txt "no?")) ]). reflexivity.
    + apply (H2 [ (txt "question", JStr (txt "no?")) ]); reflexivity.
Defined.

Lemma synthesis_reads_reflection_witness :
  exists n,
    log_count demo_store = (Ok n, demo_store)
    /\ llm_calls (snd (run_synthesis default_config demo_synthesis_llm
                         (txt "2026-01-01T03:00:00+00:00")
                         (txt "2026-01-01T03:00:01+00:00") demo_store))
       = (SynthesisPrompt
            (JArr [JObj [ (txt "belief", JStr (txt "User studies the margas"));
                          (txt "confidence", JFloat (4 # 5)) ]]) n,
          llm_temperature_synthesize default_config)
         :: llm_calls demo_store.
Proof.
  destruct (synthesis_reads_reflection default_config default_config demo_llm
              demo_synthesis_llm (txt "2026-01-01T01:00:00+00:00")
              (txt "2026-01-01T03:00:00+00:00") (txt "2026-01-01T03:00:01+00:00")
              demo_log demo_store
              (JArr [JObj [ (txt "belief", JStr (txt "User studies the margas"));
                            (txt "confidence", JFloat (4 # 5)) ]])) as [_ H].
  - vm_compute. reflexivity.
  - vm_compute. discriminate.
  - left. reflexivity.
  - apply H. reflexivity.
Defined.
